(** * bmc: best-exit analytics and the position lifecycle engine

    A shallow embedding of the JavaScript/TypeScript sources

    - the serverless best-sell endpoint: [fetchJsonWithRetry],
      [fetchTopSolanaPoolAddress], [fetchAllMinuteCandles] with its
      [stopBeforeTimestamp] floor, [computeBestSell] and the request
      [handler];
    - [bmc/api/best-sell.js], the plain variant of the same endpoint
      (no retry, no early exit), as module [Plain];
    - the Supabase edge function, the lifecycle engine: buy the newly
      listed tokens, evaluate the exit rule, sell;
    - the dashboard (the React client): its in-browser copy of the
      fetcher as module [Client], [computeBestSellInfo],
      [loadBestSellTimes], and the simulated portfolio as module
      [Portfolio];

    together with the properties the specification states about them
    and further properties of the code.

    Numbers.  A JavaScript number is modelled as [NaN], [+Infinity],
    [-Infinity] or a rational: the special values and every comparison
    behave as in the language.  Arithmetic comes in two forms.  The
    operations of scope [js] are exact; they are used on timestamps,
    milliseconds and counts, and in the simulated portfolio.  The
    operations of scope [double] round the exact result to the nearest
    IEEE 754 double, ties to even, with underflow and overflow to an
    infinity; they are used where the code computes with prices: the
    percentage of [computeBestSell] and the product [buyPrice * 1.5] of
    the exit rule.  The sign of zero is not modelled.

    Documents.  A parsed body is reduced to what the code reads of it.
    A document the code cannot read without an exception, an
    [ohlcv_list] that [.map] cannot go through or, for the client, the
    document [null], is a case of its own and ends in a [TypeError].

    Effects.  Network access is a state monad over a [World]: the upstream
    is the sequence of outcomes that successive [fetch] calls receive, and
    every [fetch] and [sleep] is recorded in a log.  A JavaScript exception
    is the [Throw] result.

    Host.  Parsing a date string, rendering a date in ISO form or in the
    browser's locale and converting a string to a number are left to the
    host: they are the variables of section [Host], and every theorem
    holds for all of them. *)

From Stdlib Require Import String.
From Stdlib Require Import List Bool Arith ZArith QArith Qround Qabs Lia Lqa.
From Stdlib Require Import Sorting.Sorted Permutation.
Import ListNotations.

Set Implicit Arguments.

(* ================================================================== *)
(** ** JavaScript numbers *)
(* ================================================================== *)

Module JS.

Inductive number : Type :=
| NaN
| PInf
| NInf
| Fin (q : Q).

Definition zero : number := Fin 0.

(** [Number.isFinite(x)] *)
Definition isFinite (x : number) : bool :=
  match x with Fin _ => true | _ => false end.

Definition isNaN (x : number) : bool :=
  match x with NaN => true | _ => false end.

(** [x < y]: false as soon as one side is [NaN]. *)
Definition ltb (x y : number) : bool :=
  match x, y with
  | NaN, _ | _, NaN => false
  | PInf, _ => false
  | _, NInf => false
  | NInf, _ => true
  | _, PInf => true
  | Fin a, Fin b => negb (Qle_bool b a)
  end.

(** [x <= y] *)
Definition leb (x y : number) : bool :=
  match x, y with
  | NaN, _ | _, NaN => false
  | NInf, _ => true
  | _, PInf => true
  | PInf, _ => false
  | _, NInf => false
  | Fin a, Fin b => Qle_bool a b
  end.

(** [x > y] and [x >= y] *)
Definition gtb (x y : number) : bool := ltb y x.
Definition geb (x y : number) : bool := leb y x.

(** [x === y] on numbers: [NaN] differs from itself. *)
Definition eqb (x y : number) : bool :=
  match x, y with
  | PInf, PInf | NInf, NInf => true
  | Fin a, Fin b => Qeq_bool a b
  | _, _ => false
  end.

(** SameValueZero, the key equality of [Map]: as [===] but [NaN] equals
    [NaN]. *)
Definition sameValueZero (x y : number) : bool :=
  match x, y with
  | NaN, NaN => true
  | _, _ => eqb x y
  end.

Definition sgn (q : Q) : comparison := Qcompare q 0.

Definition neg (x : number) : number :=
  match x with
  | NaN => NaN
  | PInf => NInf
  | NInf => PInf
  | Fin q => Fin (- q)
  end.

(** [x - y] *)
Definition sub (x y : number) : number :=
  match x, y with
  | NaN, _ | _, NaN => NaN
  | PInf, PInf | NInf, NInf => NaN
  | PInf, _ => PInf
  | NInf, _ => NInf
  | _, PInf => NInf
  | _, NInf => PInf
  | Fin a, Fin b => Fin (a - b)
  end.

Definition inf_of (c : comparison) : number :=
  match c with Gt => PInf | Lt => NInf | Eq => NaN end.

(** [x * y] *)
Definition mul (x y : number) : number :=
  match x, y with
  | NaN, _ | _, NaN => NaN
  | PInf, PInf | NInf, NInf => PInf
  | PInf, NInf | NInf, PInf => NInf
  | PInf, Fin b => inf_of (sgn b)
  | NInf, Fin b => inf_of (CompOpp (sgn b))
  | Fin a, PInf => inf_of (sgn a)
  | Fin a, NInf => inf_of (CompOpp (sgn a))
  | Fin a, Fin b => Fin (a * b)
  end.

(** [x / y]; a zero divisor stands for [+0]. *)
Definition div (x y : number) : number :=
  match x, y with
  | NaN, _ | _, NaN => NaN
  | (PInf | NInf), (PInf | NInf) => NaN
  | PInf, Fin b => match sgn b with Lt => NInf | _ => PInf end
  | NInf, Fin b => match sgn b with Lt => PInf | _ => NInf end
  | Fin _, (PInf | NInf) => Fin 0
  | Fin a, Fin b =>
      match sgn b with
      | Eq => inf_of (sgn a)
      | _ => Fin (a / b)
      end
  end.

(** [Math.floor(x)] *)
Definition floor (x : number) : number :=
  match x with
  | Fin q => Fin (inject_Z (Qfloor q))
  | _ => x
  end.

(** Truncation toward zero of a finite value (ToIntegerOrInfinity). *)
Definition truncZ (q : Q) : Z := Z.quot (Qnum q) (Z.pos (Qden q)).

(** [Math.min(...xs)]: [+Infinity] on no argument, [NaN] as soon as one
    argument is [NaN]. *)
Definition min2 (x y : number) : number :=
  match x, y with
  | NaN, _ | _, NaN => NaN
  | _, _ => if ltb y x then y else x
  end.

Definition Math_min (xs : list number) : number := fold_left min2 xs PInf.

(** Truthiness of a number: [NaN] and zero are falsy. *)
Definition truthy (x : number) : bool :=
  match x with
  | NaN => false
  | Fin q => negb (Qeq_bool q 0)
  | _ => true
  end.

(** [x || d] *)
Definition or_else (x d : number) : number := if truthy x then x else d.

Definition ofZ (z : Z) : number := Fin (inject_Z z).

(** [x + y] *)
Definition add (x y : number) : number :=
  match x, y with
  | NaN, _ | _, NaN => NaN
  | PInf, NInf | NInf, PInf => NaN
  | PInf, _ | _, PInf => PInf
  | NInf, _ | _, NInf => NInf
  | Fin a, Fin b => Fin (a + b)
  end.

(** *** Rounding to a double

    The finite values of the model are rationals.  Where the result of
    an operation of the code depends on it, the operation is followed by
    the rounding of IEEE 754 binary64: to the nearest double, ties to
    the one with an even significand, with gradual underflow, and to an
    infinity from [2^1024 - 2^970] on.  The sign of zero is not kept. *)

(** [n / d] divided by [2^e], as a fraction. *)
Definition scale2 (n d e : Z) : Z * Z :=
  if (0 <=? e)%Z then (n, d * 2 ^ e)%Z else (n * 2 ^ (- e), d)%Z.

(** The integer logarithm of a positive rational: the [k] with
    [2^k <= n / d < 2^(k + 1)]. *)
Definition floor_log2 (n d : positive) : Z :=
  let k := (Z.log2 (Z.pos n) - Z.log2 (Z.pos d))%Z in
  let '(n', d') := scale2 (Z.pos n) (Z.pos d) k in
  if (d' <=? n')%Z then k else (k - 1)%Z.

(** The integer nearest to [n / d], ties to even. *)
Definition nearest_even (n d : Z) : Z :=
  let f := (n / d)%Z in
  match (2 * (n mod d) ?= d)%Z with
  | Lt => f
  | Gt => (f + 1)%Z
  | Eq => if Z.even f then f else (f + 1)%Z
  end.

(** The double nearest to the positive rational [n / d]: a significand
    of 53 bits, of fewer bits below [2^-1022]. *)
Definition binary64_pos (n d : positive) : number :=
  let e := Z.max (floor_log2 n d - 52) (-1074) in
  let '(n', d') := scale2 (Z.pos n) (Z.pos d) e in
  let m := nearest_even n' d' in
  if (0 <=? e)%Z then
    if (2 ^ 1024 <=? m * 2 ^ e)%Z then PInf else Fin (inject_Z (m * 2 ^ e))
  else Fin (Qred (Qmake m (Z.to_pos (2 ^ (- e))))).

Definition binary64 (q : Q) : number :=
  match Qnum q with
  | Z0 => Fin 0
  | Zpos n => binary64_pos n (Qden q)
  | Zneg n => neg (binary64_pos n (Qden q))
  end.

(** The value of an operation on doubles: the exact result, rounded. *)
Definition round (x : number) : number :=
  match x with
  | Fin q => binary64 q
  | _ => x
  end.

End JS.

Import JS.

Declare Scope js_scope.
Delimit Scope js_scope with js.
Notation "x <? y" := (JS.ltb x y) : js_scope.
Notation "x <=? y" := (JS.leb x y) : js_scope.
Notation "x >? y" := (JS.gtb x y) : js_scope.
Notation "x >=? y" := (JS.geb x y) : js_scope.
Notation "x - y" := (JS.sub x y) : js_scope.
Notation "x * y" := (JS.mul x y) : js_scope.
Notation "x / y" := (JS.div x y) : js_scope.
Notation "x + y" := (JS.add x y) : js_scope.

(** The same operations on doubles: the exact result, rounded. *)
Declare Scope double_scope.
Delimit Scope double_scope with double.
Notation "x - y" := (JS.round (JS.sub x y)) : double_scope.
Notation "x * y" := (JS.round (JS.mul x y)) : double_scope.
Notation "x / y" := (JS.round (JS.div x y)) : double_scope.

(* ================================================================== *)
(** ** Data model *)
(* ================================================================== *)

(** [{ timestamp, high }] *)
Record Candle : Type := mkCandle {
  timestamp : number;
  high : number
}.

(** One row [[timestamp, open, high, low, close, volume]] of an
    [ohlcv_list], reduced to the two cells the code reads:
    [Number(row[0])] and [Number(row[2])].  The cells are the numbers
    and strings of the API, which [Number] converts without an
    exception. *)
Record RawRow : Type := mkRow {
  row0 : number;
  row2 : number
}.

(** The parsed bodies the code inspects.  [JPools top] is a pool listing
    whose [data[0].attributes.address] is [top]; [JOhlcv rows] carries
    an array [data.attributes.ohlcv_list]; [JOhlcvUnmappable] carries an
    [ohlcv_list] on which [.map(...)] throws: a value that is not an
    array (and whose [length] is not 0), or an array with a row that is
    [null]; [JNull] is the document [null]; any other document is
    [JOther]. *)
Inductive json : Type :=
| JPools (top : option string)
| JOhlcv (rows : list RawRow)
| JOther
| JOhlcvUnmappable
| JNull.

(** Requests, in place of the URL strings built from [GECKO_BASE_URL]. *)
Inductive Url : Type :=
| PoolsUrl (tokenAddress : string)
| OhlcvUrl (poolAddress : string) (beforeTimestamp : option number).

(** The values a [catch] clause can receive. *)
Inductive Error : Type :=
| FetchRejected                       (* fetch() itself rejected *)
| BodyNotJson                         (* response.json() rejected *)
| UpstreamStatus (status : Z) (u : Url)  (* `Upstream ${status} for ${url}` *)
| UnknownUpstream                     (* 'Unknown upstream error' *)
| NoPoolFound (tokenAddress : string) (* `No pool found for ${token}` *)
| FailedToLoadPools (tokenAddress : string)
| FailedToLoadCandles (poolAddress : string)
| RangeError                          (* Invalid time value *)
| TypeError.                          (* [ohlcvList.map(...)] or [null.data] *)

(** [{ bestSellAt, bestSellPrice, bestPlPercent }]; [None] is [null]. *)
Record BestSell : Type := mkBestSell {
  bestSellAt : option string;
  bestSellPrice : option number;
  bestPlPercent : option number
}.

Definition nullBestSell : BestSell :=
  {| bestSellAt := None; bestSellPrice := None; bestPlPercent := None |}.

(* ================================================================== *)
(** ** Effects: the upstream, the log, exceptions *)
(* ================================================================== *)

(** What one call of [fetch] meets. *)
Inductive Outcome : Type :=
| NetworkError
| Response (status : Z) (body : option json).

Inductive Event : Type :=
| EvFetch (u : Url)
| EvSleep (ms : Z).

(** [upstream n] is what the [n]-th call of [fetch] receives; [served]
    counts the calls made so far; [log] holds the events, newest first. *)
Record World : Type := mkWorld {
  upstream : nat -> Outcome;
  served : nat;
  log : list Event
}.

Inductive Exn (A : Type) : Type :=
| Ok (a : A)
| Throw (e : Error).
Arguments Throw {A} e.

Definition M (A : Type) : Type := World -> Exn A * World.

Definition ret {A} (a : A) : M A := fun w => (Ok a, w).
Definition throw {A} (e : Error) : M A := fun w => (Throw e, w).

Definition bind {A B} (m : M A) (k : A -> M B) : M B :=
  fun w =>
    match m w with
    | (Ok a, w') => k a w'
    | (Throw e, w') => (Throw e, w')
    end.

(** [try { m } catch (error) { h error }] *)
Definition try_catch {A} (m : M A) (h : Error -> M A) : M A :=
  fun w =>
    match m w with
    | (Ok a, w') => (Ok a, w')
    | (Throw e, w') => h e w'
    end.

Notation "x <- m ;; k" := (bind m (fun x => k))
  (at level 61, m at next level, right associativity).
Notation "m ;;; k" := (bind m (fun _ => k))
  (at level 61, right associativity).

Definition record (e : Event) (w : World) : World :=
  {| upstream := upstream w; served := served w; log := e :: log w |}.

(** [await sleep(ms)] *)
Definition sleep (ms : Z) : M unit := fun w => (Ok tt, record (EvSleep ms) w).

(** [response.ok] *)
Definition ok (status : Z) : bool := ((200 <=? status) && (status <=? 299))%Z.

(** [await fetch(url, ...)]: the next outcome of the upstream; a network
    failure rejects. *)
Definition fetch (u : Url) : M (Z * option json) := fun w =>
  let w' := {| upstream := upstream w; served := S (served w);
               log := EvFetch u :: log w |} in
  match upstream w (served w) with
  | NetworkError => (Throw FetchRejected, w')
  | Response status body => (Ok (status, body), w')
  end.

(** [await response.json()] *)
Definition response_json (body : option json) : M json :=
  match body with
  | Some j => ret j
  | None => throw BodyNotJson
  end.

Definition isFetch (e : Event) : bool :=
  match e with EvFetch _ => true | EvSleep _ => false end.

Definition fetches (evs : list Event) : nat := length (filter isFetch evs).

(* ================================================================== *)
(** ** The serverless best-sell endpoint: fetching *)
(* ================================================================== *)

(** [response.status === 429 || response.status >= 500] *)
Definition retryable (status : Z) : bool := ((status =? 429) || (500 <=? status))%Z.

(** The [catch (error)] clause of [fetchJsonWithRetry]: remember the
    error and back off unless this was the last attempt.  It yields the
    new value of [lastError]. *)
Definition on_catch (attempts attempt : nat) (error : Error) : M (option Error) :=
  (if (attempt <? attempts)%nat
   then sleep (250 * Z.of_nat attempt)
   else ret tt) ;;;
  ret (Some error).

(** One pass through the [try] block of attempt number [attempt].
    [inl j] is [return j]; [inr lastError] falls out of the [try]
    statement and goes on with the loop.  Every [throw] of the block,
    the one for a non-retryable status included, lands in [on_catch]. *)
Definition attempt_body (url : Url) (attempts attempt : nat)
    (lastError : option Error) : M (json + option Error) :=
  try_catch
    (response <- fetch url ;;
     let '(status, body) := response in
     if ok status then
       j <- response_json body ;; ret (inl j)
     else
       if negb (retryable status) || (attempt =? attempts)%nat then
         throw (UpstreamStatus status url)
       else
         sleep (250 * Z.of_nat attempt) ;;; ret (inr lastError))
    (fun error =>
       e <- on_catch attempts attempt error ;; ret (inr e)).

(** [for (let attempt = ...; attempt <= attempts; attempt += 1)], with
    [todo] the number of iterations left: [attempt + todo = attempts + 1]. *)
Fixpoint retry_loop (url : Url) (attempts todo attempt : nat)
    (lastError : option Error) : M json :=
  match todo with
  | O =>
      (* throw lastError ?? new Error('Unknown upstream error') *)
      throw (match lastError with Some e => e | None => UnknownUpstream end)
  | S todo' =>
      r <- attempt_body url attempts attempt lastError ;;
      match r with
      | inl j => ret j
      | inr lastError' => retry_loop url attempts todo' (S attempt) lastError'
      end
  end.

Definition fetchJsonWithRetry (url : Url) (attempts : nat) : M json :=
  retry_loop url attempts attempts 1 None.

(** [poolsJson?.data?.[0]?.attributes?.address] *)
Definition top_pool_address (j : json) : option string :=
  match j with JPools top => top | _ => None end.

(** A string is falsy when it is empty. *)
Definition nonempty (s : string) : bool :=
  match s with EmptyString => false | _ => true end.

Definition fetchTopSolanaPoolAddress (tokenAddress : string) : M string :=
  poolsJson <- fetchJsonWithRetry (PoolsUrl tokenAddress) 3 ;;
  match top_pool_address poolsJson with
  | Some topPoolAddress =>
      if nonempty topPoolAddress then ret topPoolAddress
      else throw (NoPoolFound tokenAddress)
  | None => throw (NoPoolFound tokenAddress)
  end.

(** [ohlcvJson?.data?.attributes?.ohlcv_list ?? []]; [None] is a value
    whose [length] is not 0 and on which [.map(...)] throws. *)
Definition ohlcv_list (j : json) : option (list RawRow) :=
  match j with
  | JOhlcv rows => Some rows
  | JOhlcvUnmappable => None
  | _ => Some []
  end.

Definition candle_of_row (row : RawRow) : Candle :=
  {| timestamp := row0 row; high := row2 row |}.

(** [Number.isFinite(row.timestamp) && Number.isFinite(row.high)
     && row.high > 0] *)
Definition valid_candle (row : Candle) : bool :=
  isFinite (timestamp row) && isFinite (high row) && (high row >? zero)%js.

Definition page_candles (ohlcvList : list RawRow) : list Candle :=
  filter valid_candle (map candle_of_row ohlcvList).

Definition maxPages : nat := 100.

(** The [while (pageCount < maxPages)] loop of [fetchAllMinuteCandles].
    [remaining] is [maxPages - pageCount]; every iteration that does not
    [break] increments [pageCount]. *)
Fixpoint page_loop (poolAddress : string) (stopBeforeTimestamp : number)
    (remaining : nat) (beforeTimestamp : option number)
    (candles : list Candle) : M (list Candle) :=
  match remaining with
  | O => ret candles
  | S remaining' =>
      ohlcvJson <- fetchJsonWithRetry (OhlcvUrl poolAddress beforeTimestamp) 3 ;;
      match ohlcv_list ohlcvJson with
      | None => throw TypeError   (* [ohlcvList.map(...)] throws *)
      | Some ohlcvList =>
      if (List.length ohlcvList =? 0)%nat then ret candles else
      let pageCandles := page_candles ohlcvList in
      let candles := candles ++ pageCandles in
      if (List.length pageCandles =? 0)%nat then ret candles else
      let oldestTimestamp := Math_min (map timestamp pageCandles) in
      if isFinite stopBeforeTimestamp
         && (oldestTimestamp <=? stopBeforeTimestamp)%js
      then ret candles else
      let beforeTimestamp := Some (oldestTimestamp - Fin 60)%js in
      if (List.length ohlcvList <? 1000)%nat then ret candles else
      page_loop poolAddress stopBeforeTimestamp remaining' beforeTimestamp candles
      end
  end.

(** The candles as accumulated by the loop, in fetch order. *)
Definition collectCandles (poolAddress : string) (stopBeforeTimestamp : number)
  : M (list Candle) :=
  page_loop poolAddress stopBeforeTimestamp maxPages None [].

(** [Map.prototype.set] on a map kept in insertion order: a key already
    present keeps its place and takes the new value. *)
Fixpoint Map_set {V} (k : number) (v : V) (m : list (number * V))
  : list (number * V) :=
  match m with
  | [] => [(k, v)]
  | (k', v') :: m' =>
      if sameValueZero k' k then (k', v) :: m'
      else (k', v') :: Map_set k v m'
  end.

(** [for (const candle of candles) uniqueByTimestamp.set(candle.timestamp,
    candle)] *)
Definition uniqueByTimestamp (candles : list Candle) : list (number * Candle) :=
  fold_left (fun m candle => Map_set (timestamp candle) candle m) candles [].

(** [Array.from(map.values())] *)
Definition Map_values {V} (m : list (number * V)) : list V := map snd m.

(** [Array.prototype.sort(compare)] as a stable insertion sort: an element
    goes before the first one that does not compare below it; a [NaN]
    from the comparator counts as zero. *)
Fixpoint sort_insert {A} (compare : A -> A -> number) (x : A) (s : list A)
  : list A :=
  match s with
  | [] => [x]
  | y :: s' =>
      if (compare y x <? zero)%js then y :: sort_insert compare x s'
      else x :: y :: s'
  end.

Definition Array_sort {A} (compare : A -> A -> number) (l : list A) : list A :=
  fold_right (sort_insert compare) [] l.

(** [(a, b) => a.timestamp - b.timestamp] *)
Definition byTimestamp (a b : Candle) : number := (timestamp a - timestamp b)%js.

Definition dedupSorted (candles : list Candle) : list Candle :=
  Array_sort byTimestamp (Map_values (uniqueByTimestamp candles)).

Definition fetchAllMinuteCandles (poolAddress : string)
    (stopBeforeTimestamp : number) : M (list Candle) :=
  candles <- collectCandles poolAddress stopBeforeTimestamp ;;
  ret (dedupSorted candles).

(** The upstream answers every request with the next page of [pages],
    status 200, and with empty pages once they are exhausted. *)
Definition pageOutcome (pages : list (list RawRow)) (n : nat) : Outcome :=
  Response 200 (Some (JOhlcv (nth n pages []))).

(* ================================================================== *)
(** ** The plain variant ([bmc/api/best-sell.js]): no retry, no early exit *)
(* ================================================================== *)

Module Plain.

Definition fetchTopSolanaPoolAddress (tokenAddress : string) : M string :=
  poolsResponse <- fetch (PoolsUrl tokenAddress) ;;
  let '(status, body) := poolsResponse in
  if negb (ok status) then throw (FailedToLoadPools tokenAddress) else
  poolsJson <- response_json body ;;
  match top_pool_address poolsJson with
  | Some topPoolAddress =>
      if nonempty topPoolAddress then ret topPoolAddress
      else throw (NoPoolFound tokenAddress)
  | None => throw (NoPoolFound tokenAddress)
  end.

Fixpoint page_loop (poolAddress : string) (remaining : nat)
    (beforeTimestamp : option number) (candles : list Candle)
  : M (list Candle) :=
  match remaining with
  | O => ret candles
  | S remaining' =>
      ohlcvResponse <- fetch (OhlcvUrl poolAddress beforeTimestamp) ;;
      let '(status, body) := ohlcvResponse in
      if negb (ok status) then throw (FailedToLoadCandles poolAddress) else
      ohlcvJson <- response_json body ;;
      match ohlcv_list ohlcvJson with
      | None => throw TypeError   (* [ohlcvList.map(...)] throws *)
      | Some ohlcvList =>
      if (List.length ohlcvList =? 0)%nat then ret candles else
      let pageCandles := page_candles ohlcvList in
      let candles := candles ++ pageCandles in
      if (List.length pageCandles =? 0)%nat then ret candles else
      let oldestTimestamp := Math_min (map timestamp pageCandles) in
      let beforeTimestamp := Some (oldestTimestamp - Fin 60)%js in
      if (List.length ohlcvList <? 1000)%nat then ret candles else
      page_loop poolAddress remaining' beforeTimestamp candles
      end
  end.

Definition fetchAllMinuteCandles (poolAddress : string) : M (list Candle) :=
  candles <- page_loop poolAddress maxPages None [] ;;
  ret (dedupSorted candles).

End Plain.

(* ================================================================== *)
(** ** Dates *)
(* ================================================================== *)

(** A [Date] object is its time value: integral milliseconds since the
    epoch, or [None] for an invalid date. *)
Definition Date : Type := option Z.

(** [date.getTime()] *)
Definition getTime (d : Date) : number :=
  match d with Some ms => ofZ ms | None => NaN end.

Definition maxTimeValue : Q := inject_Z 8640000000000000.

(** [new Date(value)] on a number (TimeClip). *)
Definition Date_of_number (v : number) : Date :=
  match v with
  | Fin q => if Qle_bool (Qabs q) maxTimeValue then Some (truncZ q) else None
  | _ => None
  end.

(** [{ buyPrice, boughtAt }] *)
Record Purchase : Type := mkPurchase {
  buyPrice : number;
  boughtAt : string
}.

(** The request as the handler reads it; [None] is [undefined]. *)
Record Request : Type := mkRequest {
  method : string;
  query_mintAddress : option string;
  query_boughtAt : option string;
  query_buyPrice : option string
}.

Inductive Body : Type :=
| ErrorBody (error : string)
| ResultBody (result : BestSell) (warning : option Error).

Record HttpResponse : Type := mkHttpResponse {
  status : Z;
  body : Body
}.

(** [String(v ?? '')] *)
Definition String_or_empty (v : option string) : string :=
  match v with Some s => s | None => EmptyString end.

(* ================================================================== *)
(** ** The lifecycle engine: tables and the environment of one pass *)
(* ================================================================== *)

(** A row of [Holdings]; [sell_price = None] is SQL [null]. *)
Record Holding : Type := mkHolding {
  symbol : string;
  mint_address : string;
  bought_at : string;
  buy_price : number;
  sell_price : option number
}.

(** A row of [Meme List]. *)
Record Meme : Type := mkMeme {
  meme_symbol : string;
  found_at : string;
  meme_mint_address : string
}.

(** A token descriptor of the discovery feed. *)
Record Token : Type := mkToken {
  token_symbol : string;
  tokenMint : string
}.

Record Db : Type := mkDb {
  memeList : list Meme;
  holdings : list Holding
}.

(** The price object returned by the oracle: [prices mint] is
    [data[mint].usdPrice], [None] when the entry is missing. *)
Definition Prices : Type := string -> option number.

Definition noPrices : Prices := fun _ => None.

(** Everything one pass reads besides the tables. *)
Record PassEnv : Type := mkPassEnv {
  feed : option (list Token);     (* discovery feed; [None]: invalid response *)
  memeSelectOk : bool;            (* [selectError] is null *)
  memeInsertOk : bool;            (* the insert into [Meme List] succeeded *)
  nowISO : string;                (* new Date().toISOString() *)
  now : number;                   (* Date.now() *)
  jupiterAtBuy : list string -> option Prices;   (* [None]: the call failed *)
  jupiterAtSell : list string -> option Prices;
  holdingsInsertOk : bool;        (* [holdingsError] is null *)
  activeSelectOk : bool;          (* [activeError] is null *)
  updateOk : string -> bool       (* the update keyed by this mint succeeded *)
}.

Inductive PassResult : Type :=
| Summary (new_memes_added trades_closed : nat)
| Failed.

(** [fetchJupiterPrices]: nothing is asked for an empty list, only the
    first 100 mints are sent, a failure gives the empty object. *)
Definition fetchJupiterPrices (jupiter : list string -> option Prices)
    (mintAddresses : list string) : Prices :=
  match mintAddresses with
  | [] => noPrices
  | _ =>
      match jupiter (firstn 100 mintAddresses) with
      | Some data => data
      | None => noPrices
      end
  end.

Definition is_null {A} (v : option A) : bool :=
  match v with None => true | Some _ => false end.

(** [activeHoldings]: [.select('*').is('sell_price', null)] *)
Definition activeHoldings (t : list Holding) : list Holding :=
  filter (fun h => is_null (sell_price h)) t.

(** [.update({ sell_price }).eq('mint_address', mint).is('sell_price', null)] *)
Definition update_sell_price (price : number) (mint : string)
    (t : list Holding) : list Holding :=
  map (fun h =>
         if String.eqb (mint_address h) mint && is_null (sell_price h)
         then {| symbol := symbol h; mint_address := mint_address h;
                 bought_at := bought_at h; buy_price := buy_price h;
                 sell_price := Some price |}
         else h) t.

Definition sixteenHours : number := ofZ (16 * 60 * 60 * 1000).

(** [Number(prices[mint]?.usdPrice)]: a missing entry is [undefined]. *)
Definition usdPrice (prices : Prices) (mint : string) : number :=
  match prices mint with Some p => p | None => NaN end.

(* ================================================================== *)
(** ** The in-browser copy of the fetcher (the React client) *)
(* ================================================================== *)

Module Client.

(** [poolsJson.data?.[0]?.attributes?.address]: without [?.] after
    [poolsJson], the document [null] throws. *)
Definition fetchTopSolanaPoolAddress (tokenAddress : string) : M string :=
  poolsResponse <- fetch (PoolsUrl tokenAddress) ;;
  let '(status, body) := poolsResponse in
  if negb (ok status) then throw (FailedToLoadPools tokenAddress) else
  poolsJson <- response_json body ;;
  match poolsJson with
  | JNull => throw TypeError
  | _ =>
      match top_pool_address poolsJson with
      | Some topPoolAddress =>
          if nonempty topPoolAddress then ret topPoolAddress
          else throw (NoPoolFound tokenAddress)
      | None => throw (NoPoolFound tokenAddress)
      end
  end.

(** [ohlcvJson.data?.attributes?.ohlcv_list ?? []]: the document [null]
    throws here too. *)
Definition ohlcv_list (ohlcvJson : json) : option (list RawRow) :=
  match ohlcvJson with
  | JNull => None
  | _ => ohlcv_list ohlcvJson
  end.

(** [Number.isFinite(row.high) && row.high > 0]: the client does not
    look at the timestamp, [row[0]], a number by its type. *)
Definition valid_high (row : Candle) : bool :=
  isFinite (high row) && (high row >? zero)%js.

Definition page_candles (ohlcvList : list RawRow) : list Candle :=
  filter valid_high (map candle_of_row ohlcvList).

(** The loop of the client's [fetchAllMinuteCandles]: one [fetch] per
    page, and no [break] on a page without a valid candle, where
    [Math.min()] is [Infinity]. *)
Fixpoint page_loop (poolAddress : string) (remaining : nat)
    (beforeTimestamp : option number) (candles : list Candle)
  : M (list Candle) :=
  match remaining with
  | O => ret candles
  | S remaining' =>
      ohlcvResponse <- fetch (OhlcvUrl poolAddress beforeTimestamp) ;;
      let '(status, body) := ohlcvResponse in
      if negb (ok status) then throw (FailedToLoadCandles poolAddress) else
      ohlcvJson <- response_json body ;;
      match ohlcv_list ohlcvJson with
      | None => throw TypeError   (* [ohlcvList.map(...)] throws *)
      | Some ohlcvList =>
      if (List.length ohlcvList =? 0)%nat then ret candles else
      let pageCandles := page_candles ohlcvList in
      let candles := candles ++ pageCandles in
      let oldestTimestamp := Math_min (map timestamp pageCandles) in
      let beforeTimestamp := Some (oldestTimestamp - Fin 60)%js in
      if (List.length ohlcvList <? 1000)%nat then ret candles else
      page_loop poolAddress remaining' beforeTimestamp candles
      end
  end.

Definition fetchAllMinuteCandles (poolAddress : string) : M (list Candle) :=
  candles <- page_loop poolAddress maxPages None [] ;;
  ret (dedupSorted candles).

End Client.

(* ================================================================== *)
(** ** The simulated portfolio of the dashboard (the React client) *)
(* ================================================================== *)

Module Portfolio.

Definition investmentPerCoin : number := Fin (1 # 2).
Definition startingCapital : number := Fin 5.

(** [getProfitLossPercent(buyPrice, sellPrice)]; [None] is [null]. *)
Definition getProfitLossPercent (buyPrice : number) (sellPrice : option number)
  : option number :=
  match sellPrice with
  | None => None
  | Some sell =>
      if JS.eqb buyPrice zero then None
      else Some (((sell - buyPrice) / buyPrice) * Fin 100)%js
  end.

Definition validInvestments (holdings : list Holding) : list Holding :=
  filter (fun holding => (buy_price holding >? zero)%js) holdings.

Definition maxAffordableCoins : number :=
  floor (startingCapital / investmentPerCoin)%js.

(** [array.slice(0, end)]: [end] is truncated to an integer, [NaN] is 0,
    and a negative [end] counts from the end of the array. *)
Definition Array_slice0 {A} (end_ : number) (array : list A) : list A :=
  match end_ with
  | NaN | NInf => []
  | PInf => array
  | Fin q =>
      let relativeEnd := truncZ q in
      if (relativeEnd <? 0)%Z
      then firstn (Z.to_nat (Z.of_nat (List.length array) + relativeEnd)) array
      else firstn (Z.to_nat relativeEnd) array
  end.

(** [array.length] as a number. *)
Definition Array_length {A} (array : list A) : number :=
  ofZ (Z.of_nat (List.length array)).

Definition simulatedInvestments (holdings : list Holding) : list Holding :=
  Array_slice0 maxAffordableCoins (validInvestments holdings).

Definition investedCapital (holdings : list Holding) : number :=
  (Array_length (simulatedInvestments holdings) * investmentPerCoin)%js.

Definition uninvestedCash (holdings : list Holding) : number :=
  (startingCapital - investedCapital holdings)%js.

(** The callback of the [reduce] of [investmentValue]. *)
Definition value_step (total : number) (holding : Holding) : number :=
  match sell_price holding with
  | None => (total + investmentPerCoin)%js
  | Some sell =>
      (total + investmentPerCoin * (sell / buy_price holding))%js
  end.

Definition investmentValue (holdings : list Holding) : number :=
  fold_left value_step (simulatedInvestments holdings) zero.

Definition endingCapital (holdings : list Holding) : number :=
  (uninvestedCash holdings + investmentValue holdings)%js.

Definition totalGainLossAbsolute (holdings : list Holding) : number :=
  (endingCapital holdings - startingCapital)%js.

Definition totalGainLossPercent (holdings : list Holding) : number :=
  if JS.eqb startingCapital zero then zero
  else ((totalGainLossAbsolute holdings / startingCapital) * Fin 100)%js.

Definition closedInvestments (holdings : list Holding) : list Holding :=
  filter (fun holding => negb (is_null (sell_price holding)))
    (simulatedInvestments holdings).

(** [(holding.sell_price as number) > holding.buy_price]; the cast does
    nothing at run time and [null] compares as 0. *)
Definition winning (holding : Holding) : bool :=
  match sell_price holding with
  | Some sell => (sell >? buy_price holding)%js
  | None => (zero >? buy_price holding)%js
  end.

Definition winningInvestments (holdings : list Holding) : nat :=
  List.length (filter winning (closedInvestments holdings)).

Definition winRatePercent (holdings : list Holding) : option number :=
  if (List.length (closedInvestments holdings) =? 0)%nat then None
  else Some ((ofZ (Z.of_nat (winningInvestments holdings))
              / Array_length (closedInvestments holdings)) * Fin 100)%js.

End Portfolio.

Local Open Scope string_scope.

(* ================================================================== *)
(** ** Sample inputs *)
(* ================================================================== *)

Module Samples.

Definition candle (t h : Z) : Candle := mkCandle (ofZ t) (ofZ h).
Definition row (t h : Z) : RawRow := mkRow (ofZ t) (ofZ h).

(** A host that knows the dates of the examples. *)
Definition hostParse (s : string) : Date :=
  if String.eqb s "1970-01-01T00:01:40.000Z" then Some 100000%Z
  else if String.eqb s "1970-01-01T00:00:00.000Z" then Some 0%Z
  else if String.eqb s "1969-12-31T23:59:59.000Z" then Some (-1000)%Z
  else None.

Definition hostFormat (ms : Z) : string :=
  if (ms =? 160000)%Z then "1970-01-01T00:02:40.000Z"
  else if (ms =? 220000)%Z then "1970-01-01T00:03:40.000Z"
  else EmptyString.

Definition hostNumber (s : string) : number :=
  if String.eqb s "1" then ofZ 1
  else if String.eqb s "0" then ofZ 0
  else NaN.

(** The scenario of the specification: bought at [t = 100] for 1. *)
Definition candles : list Candle := [candle 100 2; candle 160 5; candle 220 3].

Definition boughtAt100 : Purchase :=
  {| buyPrice := ofZ 1; boughtAt := "1970-01-01T00:01:40.000Z" |}.

Definition boughtAtEpoch : Purchase :=
  {| buyPrice := ofZ 1; boughtAt := "1970-01-01T00:00:00.000Z" |}.

Definition boughtBeforeEpoch : Purchase :=
  {| buyPrice := ofZ 1; boughtAt := "1969-12-31T23:59:59.000Z" |}.

Definition worldOf (up : nat -> Outcome) : World :=
  {| upstream := up; served := 0; log := [] |}.

(** A 404 followed by a good answer. *)
Definition notFoundThenOk (n : nat) : Outcome :=
  match n with
  | O => Response 404 None
  | _ => Response 200 (Some (JPools (Some "pool"%string)))
  end.

(** Two pages that overlap at [t = 160]: a full page of 1000 rows, then
    a short one that carries another value for [t = 160]. *)
Definition overlapping : list (list RawRow) :=
  [ (repeat (row 220 3) 999 ++ [row 160 5])%list;
    [row 160 7; row 100 2] ].

Definition fullPage : list RawRow := repeat (row 220 3) 1000.

(** A full page that reaches the purchase instant [t = 100], then an
    older page, at the cursor [100 - 60], with a higher price. *)
Definition pastPurchase : list (list RawRow) :=
  [ (repeat (row 220 3) 999 ++ [row 100 2])%list;
    [row 40 9] ].

(** A pool listing, then one page of candles. *)
Definition poolThenPage (n : nat) : Outcome :=
  match n with
  | O => Response 200 (Some (JPools (Some "pool"%string)))
  | _ => Response 200 (Some (JOhlcv [row 160 5]))
  end.

Definition getRequest (buy : string) : Request :=
  {| method := "GET";
     query_mintAddress := Some "mint"%string;
     query_boughtAt := Some "1970-01-01T00:01:40.000Z"%string;
     query_buyPrice := Some buy |}.

Definition holding (sym mint at_ : string) (buy : Z) (sell : option number)
  : Holding :=
  {| symbol := sym; mint_address := mint; bought_at := at_;
     buy_price := ofZ buy; sell_price := sell |}.

(** An open holding bought at [t = 100 s], one whose [bought_at] does not
    parse, and a closed one. *)
Definition openHolding : Holding :=
  holding "AAA" "mintA" "1970-01-01T00:01:40.000Z" 2 None.
Definition undatedHolding : Holding :=
  holding "BBB" "mintB" "not-a-date" 2 None.
Definition closedHolding : Holding :=
  holding "CCC" "mintC" "1970-01-01T00:01:40.000Z" 2 (Some (ofZ 3)).

Definition table : list Holding := [closedHolding; openHolding; undatedHolding].

Definition quotes (mint : string) : option number :=
  if String.eqb mint "mintA" then Some (ofZ 3)
  else if String.eqb mint "mintB" then Some (ofZ 4)
  else None.

(** A pass one millisecond past sixteen hours after [t = 100 s]; the
    feed lists one unknown token. *)
Definition env : PassEnv :=
  {| feed := Some [ {| token_symbol := "DDD"; tokenMint := "mintD" |} ];
     memeSelectOk := true;
     memeInsertOk := true;
     nowISO := "1970-01-01T16:01:40.001Z";
     now := ofZ (100000 + 57600001);
     jupiterAtBuy := fun _ => Some quotes;
     jupiterAtSell := fun _ => Some quotes;
     holdingsInsertOk := true;
     activeSelectOk := true;
     updateOk := fun _ => true |}.

Definition db : Db := {| memeList := []; holdings := table |}.

(** An upstream that is down: every request is answered with a 503. *)
Definition alwaysDown (n : nat) : Outcome := Response 503 None.

(** A candle past the last instant a [Date] can hold. *)
Definition farFuture : list Candle := [candle 8640000000001 2].

(** The best exit of the scenario: [t = 160] at 5. *)
Definition bestAt160 : BestSell :=
  {| bestSellAt := Some "1970-01-01T00:02:40.000Z"%string;
     bestSellPrice := Some (ofZ 5);
     bestPlPercent := Some (ofZ 400) |}.

Definition postRequest : Request :=
  {| method := "POST";
     query_mintAddress := Some "mint"%string;
     query_boughtAt := Some "1970-01-01T00:01:40.000Z"%string;
     query_buyPrice := Some "1"%string |}.

(** A pool listing, then the pages of [pastPurchase]. *)
Definition healthyUpstream (n : nat) : Outcome :=
  match n with
  | O => Response 200 (Some (JPools (Some "pool"%string)))
  | S k => pageOutcome pastPurchase k
  end.

(** One short page. *)
Definition shortPages : list (list RawRow) := [ [row 160 7; row 100 2] ].

(** The browser's rendering of a date. *)
Definition hostLocale (d : Date) : string :=
  match d with
  | Some 160000%Z => "1/1/1970, 12:02:40 AM"
  | Some _ => "1/1/1970"
  | None => "Invalid Date"
  end.

(** The purchase of the scenario as a row of the table. *)
Definition scenarioHolding : Holding :=
  holding "AAA" "mintA" "1970-01-01T00:01:40.000Z" 1 None.

Definition newToken : Token := {| token_symbol := "DDD"; tokenMint := "mintD" |}.

(** A pass during which the price service does not answer at buy time. *)
Definition unpricedEnv : PassEnv :=
  {| feed := Some [newToken];
     memeSelectOk := true;
     memeInsertOk := true;
     nowISO := "1970-01-01T16:01:40.001Z";
     now := ofZ (100000 + 57600001);
     jupiterAtBuy := fun _ => None;
     jupiterAtSell := fun _ => Some quotes;
     holdingsInsertOk := true;
     activeSelectOk := true;
     updateOk := fun _ => true |}.

Definition unpricedHolding : Holding :=
  holding "DDD" "mintD" "1970-01-01T16:01:40.001Z" 0 None.

Definition openTable : list Holding := [openHolding; undatedHolding].

(** A pass one second after the purchase at [t = 100 s], while the
    price service quotes 4 for [mintA] and nothing else. *)
Definition risen (mint : string) : option number :=
  if String.eqb mint "mintA" then Some (ofZ 4) else None.

Definition earlyEnv : PassEnv :=
  {| feed := Some [];
     memeSelectOk := true;
     memeInsertOk := true;
     nowISO := "1970-01-01T00:01:41.000Z";
     now := ofZ 101000;
     jupiterAtBuy := fun _ => Some quotes;
     jupiterAtSell := fun _ => Some risen;
     holdingsInsertOk := true;
     activeSelectOk := true;
     updateOk := fun _ => true |}.

(** The same pass with the quotes of [quotes]: 3 for [mintA], one and a
    half times the buy price of [openHolding]. *)
Definition earlyEnvAtLimit : PassEnv :=
  {| feed := Some [];
     memeSelectOk := true;
     memeInsertOk := true;
     nowISO := "1970-01-01T00:01:41.000Z";
     now := ofZ 101000;
     jupiterAtBuy := fun _ => Some quotes;
     jupiterAtSell := fun _ => Some quotes;
     holdingsInsertOk := true;
     activeSelectOk := true;
     updateOk := fun _ => true |}.

(** The doubles written [0.007] and [0.0105]: in doubles the product
    [0.007 * 1.5] is [0.0105], the exact product is smaller. *)
Definition double_0_007 : number :=
  Fin (8070450532247929 # 1152921504606846976).
Definition double_0_0105 : number :=
  Fin (6052837899185947 # 576460752303423488).

Definition smallHolding : Holding :=
  {| symbol := "FFF"; mint_address := "mintF";
     bought_at := "1970-01-01T00:01:40.000Z";
     buy_price := double_0_007; sell_price := None |}.

Definition smallEnv : PassEnv :=
  {| feed := Some [];
     memeSelectOk := true;
     memeInsertOk := true;
     nowISO := "1970-01-01T00:01:41.000Z";
     now := ofZ 101000;
     jupiterAtBuy := fun _ => Some quotes;
     jupiterAtSell := fun _ => Some (fun _ => Some double_0_0105);
     holdingsInsertOk := true;
     activeSelectOk := true;
     updateOk := fun _ => true |}.

(** Two open holdings with one mint address, the second one without a
    date, and a pass more than sixteen hours after [t = 100 s] at a spot
    price of 2, the buy price. *)
Definition datedShared : Holding :=
  holding "GGG" "mintX" "1970-01-01T00:01:40.000Z" 2 None.
Definition undatedShared : Holding :=
  holding "HHH" "mintX" "not-a-date" 2 None.
Definition sharedTable : list Holding := [datedShared; undatedShared].

Definition sharedEnv : PassEnv :=
  {| feed := Some [];
     memeSelectOk := true;
     memeInsertOk := true;
     nowISO := "1970-01-01T16:01:40.001Z";
     now := ofZ (100000 + 57600001);
     jupiterAtBuy := fun _ => Some quotes;
     jupiterAtSell := fun _ => Some (fun _ => Some (ofZ 2));
     holdingsInsertOk := true;
     activeSelectOk := true;
     updateOk := fun _ => true |}.

(** A 2xx answer whose [ohlcv_list] cannot be mapped. *)
Definition unmappable (n : nat) : Outcome := Response 200 (Some JOhlcvUnmappable).

End Samples.

Local Close Scope string_scope.

(* ================================================================== *)
(** ** Code that depends on the host's date and number conversions *)
(* ================================================================== *)

Section Host.

Set Default Proof Using "Type".

(** [new Date(s)] on a string: the host's parser. *)
Variable Date_parse : string -> Date.
(** The rendering of a valid time value by [toISOString]. *)
Variable formatISO : Z -> string.
(** [Number(s)] on a string. *)
Variable Number_of_string : string -> number.

(** [date.toISOString()]: a range error on an invalid date. *)
Definition toISOString (d : Date) : Exn string :=
  match d with
  | Some ms => Ok (formatISO ms)
  | None => Throw RangeError
  end.

(** [Math.floor(new Date(boughtAt).getTime() / 1000)] *)
Definition unixSeconds (boughtAt : string) : number :=
  floor (getTime (Date_parse boughtAt) / Fin 1000)%js.

(** [afterBuyCandles.reduce((best, current) =>
      current.high > best.high ? current : best)] on a non-empty array. *)
Definition reduce_best (first : Candle) (rest : list Candle) : Candle :=
  fold_left (fun best current =>
               if (high current >? high best)%js then current else best)
            rest first.

(** [((bestCandle.high - buyPrice) / buyPrice) * 100], each operation
    rounded to a double. *)
Definition plPercent (bestHigh buyPrice : number) : number :=
  (((bestHigh - buyPrice) / buyPrice) * Fin 100)%double.

Definition computeBestSell (p : Purchase) (candles : list Candle)
  : Exn BestSell :=
  if negb (isFinite (buyPrice p)) || (buyPrice p <=? zero)%js
  then Ok nullBestSell else
  let boughtAtUnixSeconds := unixSeconds (boughtAt p) in
  if negb (isFinite boughtAtUnixSeconds) || (boughtAtUnixSeconds <=? zero)%js
  then Ok nullBestSell else
  let afterBuyCandles :=
    filter (fun candle => (timestamp candle >=? boughtAtUnixSeconds)%js) candles in
  match afterBuyCandles with
  | [] => Ok nullBestSell
  | first :: rest =>
      let bestCandle := reduce_best first rest in
      let bestPlPercent := plPercent (high bestCandle) (buyPrice p) in
      match toISOString (Date_of_number (timestamp bestCandle * Fin 1000)%js) with
      | Throw e => Throw e
      | Ok iso =>
          Ok {| bestSellAt := Some iso;
                bestSellPrice := Some (high bestCandle);
                bestPlPercent := Some bestPlPercent |}
      end
  end.

(** [Number(req.query.buyPrice)] *)
Definition Number_of_query (v : option string) : number :=
  match v with Some s => Number_of_string s | None => NaN end.

Definition respond (st : Z) (b : Body) : HttpResponse :=
  {| status := st; body := b |}.

(** The [try] block of the handler, up to the result it hands to
    [res.status(200).json]. *)
Definition tryBlock (mintAddress boughtAt : string) (buyPrice : number)
  : M BestSell :=
  let boughtAtUnixSeconds := unixSeconds boughtAt in
  poolAddress <- fetchTopSolanaPoolAddress mintAddress ;;
  minuteCandles <- fetchAllMinuteCandles poolAddress boughtAtUnixSeconds ;;
  fun w' =>
    (computeBestSell {| buyPrice := buyPrice; boughtAt := boughtAt |}
                     minuteCandles, w').

(** The request handler.  Every path ends in one [res.status(..).json(..)];
    what the [try] block throws is answered by the [catch] clause. *)
Definition handler (req : Request) : World -> HttpResponse * World :=
  fun w =>
  if negb (String.eqb (method req) "GET"%string) then
    (respond 405 (ErrorBody "Method not allowed"%string), w)
  else
    let mintAddress := String_or_empty (query_mintAddress req) in
    let boughtAt := String_or_empty (query_boughtAt req) in
    let buyPrice := Number_of_query (query_buyPrice req) in
    if negb (nonempty mintAddress) || negb (nonempty boughtAt)
       || negb (isFinite buyPrice)
    then
      (respond 400 (ErrorBody "mintAddress, boughtAt, and buyPrice are required"%string), w)
    else
      match tryBlock mintAddress boughtAt buyPrice w with
      | (Ok result, w') => (respond 200 (ResultBody result None), w')
      | (Throw error, w') =>
          (respond 200 (ResultBody nullBestSell (Some error)), w')
      end.

(** *** The exit rule *)

(** [Number(h.buy_price) || 0] *)
Definition buyPriceOf (h : Holding) : number := or_else (buy_price h) zero.

(** [Number(currentPrices[h.mint_address]?.usdPrice) || 0] *)
Definition currentPriceOf (currentPrices : Prices) (h : Holding) : number :=
  or_else (usdPrice currentPrices (mint_address h)) zero.

(** [Number.isFinite(boughtTime) && (now - boughtTime) > sixteenHours] *)
Definition heldOver16Hours (now : number) (h : Holding) : bool :=
  let boughtTime := getTime (Date_parse (bought_at h)) in
  isFinite boughtTime && ((now - boughtTime) >? sixteenHours)%js.

(** The predicate of [activeHoldings.filter(...)]; the product
    [buyPrice * 1.5] is a double, the exact product rounded. *)
Definition shouldSell (now : number) (currentPrices : Prices) (h : Holding) : bool :=
  let buyPrice := buyPriceOf h in
  if heldOver16Hours now h then true else
  if (buyPrice <=? zero)%js then false else
  let currentPrice := currentPriceOf currentPrices h in
  (currentPrice >? (buyPrice * Fin (3 # 2))%double)%js.

(** Part A: record the tokens not yet known and open a holding for each. *)
Definition buyNew (env : PassEnv) (tokens : list Token) (db : Db) : Db * nat :=
  let existingSymbols := map meme_symbol (memeList db) in
  let newTokens :=
    filter (fun token =>
              negb (existsb (String.eqb (token_symbol token)) existingSymbols))
           tokens in
  match newTokens with
  | [] => (db, O)
  | _ =>
      let memeRecords :=
        map (fun token => {| meme_symbol := token_symbol token;
                             found_at := nowISO env;
                             meme_mint_address := tokenMint token |}) newTokens in
      let prices := fetchJupiterPrices (jupiterAtBuy env) (map tokenMint newTokens) in
      let holdingsRecords :=
        map (fun token =>
               {| symbol := token_symbol token;
                  mint_address := tokenMint token;
                  bought_at := nowISO env;
                  buy_price := match prices (tokenMint token) with
                               | Some usd => usd
                               | None => zero
                               end;
                  sell_price := None |}) newTokens in
      let memeList' :=
        if memeInsertOk env then memeList db ++ memeRecords else memeList db in
      if holdingsInsertOk env then
        ({| memeList := memeList';
            holdings := holdings db ++ holdingsRecords |},
         List.length holdingsRecords)
      else
        ({| memeList := memeList'; holdings := holdings db |}, O)
  end.

(** [currentPrices]: the spot prices fetched for the open holdings. *)
Definition currentPricesOf (env : PassEnv) (t : list Holding) : Prices :=
  fetchJupiterPrices (jupiterAtSell env) (map mint_address (activeHoldings t)).

(** [coinsToSell]: the open holdings the exit rule selects. *)
Definition coinsToSell (env : PassEnv) (t : list Holding) : list Holding :=
  filter (shouldSell (now env) (currentPricesOf env t)) (activeHoldings t).

(** One closing update; a failed statement leaves the table as it is. *)
Definition closeOne (env : PassEnv) (currentPrices : Prices)
    (t : list Holding) (holding : Holding) : list Holding :=
  let currentPrice :=
    or_else (usdPrice currentPrices (mint_address holding)) zero in
  if updateOk env (mint_address holding)
  then update_sell_price currentPrice (mint_address holding) t
  else t.

(** Part B: evaluate the exit rule on the open holdings and close the
    selected ones.  The updates of [Promise.all] are independent
    statements; they are applied here in the order of [coinsToSell]. *)
Definition sellDue (env : PassEnv) (t : list Holding) : list Holding * nat :=
  if negb (activeSelectOk env) then (t, O) else
  match activeHoldings t with
  | [] => (t, O)
  | _ =>
      let selected := coinsToSell env t in
      (fold_left (closeOne env (currentPricesOf env t)) selected t,
       List.length selected)
  end.

(** One invocation of the edge function. *)
Definition lifecyclePass (env : PassEnv) (db : Db) : Db * PassResult :=
  match feed env with
  | None => (db, Failed)
  | Some tokens =>
      if negb (memeSelectOk env) then (db, Failed) else
      let '(db1, boughtCount) := buyNew env tokens db in
      let '(t2, soldCount) := sellDue env (holdings db1) in
      ({| memeList := memeList db1; holdings := t2 |},
       Summary boughtCount soldCount)
  end.

(** The table after a sequence of passes. *)
Definition runPasses (envs : list PassEnv) (db : Db) : Db :=
  fold_left (fun d env => fst (lifecyclePass env d)) envs db.

(** *** The handler of the plain variant ([bmc/api/best-sell.js]) *)

(** What the plain handler sends: an error text of its own, the message
    of a caught error ([{ error: message }]), or a result. *)
Inductive PlainBody : Type :=
| PlainError (error : string)
| PlainFailure (error : Error)
| PlainResult (result : BestSell).

Record PlainResponse : Type := mkPlainResponse {
  plain_status : Z;
  plain_body : PlainBody
}.

(** The [try] block of the plain handler; [computeBestSell] is the same
    function in both files. *)
Definition plainTryBlock (mintAddress boughtAt : string) (buyPrice : number)
  : M BestSell :=
  poolAddress <- Plain.fetchTopSolanaPoolAddress mintAddress ;;
  minuteCandles <- Plain.fetchAllMinuteCandles poolAddress ;;
  fun w' =>
    (computeBestSell {| buyPrice := buyPrice; boughtAt := boughtAt |}
                     minuteCandles, w').

Definition plainHandler (req : Request) : World -> PlainResponse * World :=
  fun w =>
  if negb (String.eqb (method req) "GET"%string) then
    ({| plain_status := 405;
        plain_body := PlainError "Method not allowed"%string |}, w)
  else
    let mintAddress := String_or_empty (query_mintAddress req) in
    let boughtAt := String_or_empty (query_boughtAt req) in
    let buyPrice := Number_of_query (query_buyPrice req) in
    if negb (nonempty mintAddress) || negb (nonempty boughtAt)
       || negb (isFinite buyPrice)
    then
      ({| plain_status := 400;
          plain_body :=
            PlainError "mintAddress, boughtAt, and buyPrice are required"%string |},
       w)
    else
      match plainTryBlock mintAddress boughtAt buyPrice w with
      | (Ok result, w') =>
          ({| plain_status := 200; plain_body := PlainResult result |}, w')
      | (Throw error, w') =>
          ({| plain_status := 502; plain_body := PlainFailure error |}, w')
      end.

(** *** The client's calculator and its loader *)

(** [date.toLocaleString()]: the host's rendering; an invalid date is
    rendered too, nothing is thrown. *)
Variable toLocaleString : Date -> string.

(** [computeBestSellInfo] of the client: the price guard is
    [buy_price <= 0] alone and the purchase instant is not checked. *)
Definition computeBestSellInfo (holding : Holding) (candles : list Candle)
  : BestSell :=
  if (buy_price holding <=? zero)%js then nullBestSell else
  let boughtAtUnixSeconds := unixSeconds (bought_at holding) in
  let afterBuyCandles :=
    filter (fun candle => (timestamp candle >=? boughtAtUnixSeconds)%js) candles in
  match afterBuyCandles with
  | [] => nullBestSell
  | first :: rest =>
      let bestCandle := reduce_best first rest in
      let bestPlPercent := plPercent (high bestCandle) (buy_price holding) in
      {| bestSellAt :=
           Some (toLocaleString
                   (Date_of_number (timestamp bestCandle * Fin 1000)%js));
         bestSellPrice := Some (high bestCandle);
         bestPlPercent := Some bestPlPercent |}
  end.

(** [`${holding.symbol}-${holding.bought_at}`] *)
Definition holdingKey (holding : Holding) : string :=
  (symbol holding ++ "-" ++ bought_at holding)%string.

(** [record[key] = v] on an object with string keys. *)
Fixpoint Object_set {V} (key : string) (v : V) (o : list (string * V))
  : list (string * V) :=
  match o with
  | [] => [(key, v)]
  | (k, v0) :: o' =>
      if String.eqb k key then (k, v) :: o'
      else (k, v0) :: Object_set key v o'
  end.

(** [record[key]]; [None] is [undefined]. *)
Fixpoint Object_get {V} (key : string) (o : list (string * V)) : option V :=
  match o with
  | [] => None
  | (k, v) :: o' => if String.eqb k key then Some v else Object_get key o'
  end.

(** One turn of the loop of [loadBestSellTimes]: the [try] block and its
    [catch]. *)
Definition loadOne (holding : Holding) : M BestSell :=
  try_catch
    (poolAddress <- Client.fetchTopSolanaPoolAddress (mint_address holding) ;;
     minuteCandles <- Client.fetchAllMinuteCandles poolAddress ;;
     ret (computeBestSellInfo holding minuteCandles))
    (fun _ => ret nullBestSell).

(** [for (const holding of holdings)], with [next] the record
    [nextBestSellByHolding] built so far. *)
Fixpoint loadLoop (holdings : list Holding) (next : list (string * BestSell))
  : M (list (string * BestSell)) :=
  match holdings with
  | [] => ret next
  | holding :: rest =>
      info <- loadOne holding ;;
      loadLoop rest (Object_set (holdingKey holding) info next)
  end.

Definition loadBestSellTimes (holdings : list Holding)
  : M (list (string * BestSell)) :=
  loadLoop holdings [].

Unset Implicit Arguments.

(* ================================================================== *)
(** ** The vocabulary of the statements *)
(* ================================================================== *)

(** What a computation may do to the world: extend the log by [seg]
    (newest first), consume [fetches seg] outcomes, leave the upstream. *)
Definition extends_by (w w' : World) (seg : list Event) : Prop :=
  log w' = seg ++ log w /\
  served w' = (served w + fetches seg)%nat /\
  upstream w' = upstream w.

(** [seg] is what one candle-page request, a call of [fetchJsonWithRetry]
    on the OHLCV URL of [poolAddress], adds to the log: between one and
    three [fetch]es. *)
Definition page_request (poolAddress : string) (seg : list Event) : Prop :=
  (exists (beforeTimestamp : option number) (w0 : World),
     extends_by w0
       (snd (fetchJsonWithRetry (OhlcvUrl poolAddress beforeTimestamp) 3 w0))
       seg) /\
  (1 <= fetches seg <= 3)%nat.

(** Strictly ascending by timestamp. *)
Definition ascending (cs : list Candle) : Prop :=
  StronglySorted (fun a b => (timestamp a <? timestamp b)%js = true) cs.

(** No two positions hold the same timestamp. *)
Definition distinct_timestamps (cs : list Candle) : Prop :=
  ForallOrdPairs
    (fun a b => sameValueZero (timestamp a) (timestamp b) = false) cs.

(** [c] is the last candle of [candles] with its timestamp. *)
Definition last_with_timestamp (candles : list Candle) (c : Candle) : Prop :=
  exists l1 l2,
    candles = l1 ++ c :: l2 /\
    Forall (fun d => sameValueZero (timestamp d) (timestamp c) = false) l2.

(** The keys of a map are pairwise different. *)
Definition keys_distinct {V} (m : list (number * V)) : Prop :=
  ForallOrdPairs (fun a b => sameValueZero (fst a) (fst b) = false) m.

(** What the validity filter ensures of a timestamp. *)
Definition finite_timestamp (c : Candle) : Prop := isFinite (timestamp c) = true.

(** The callback of [reduce]. *)
Definition step_best (best current : Candle) : Candle :=
  if (high current >? high best)%js then current else best.

(** The first guard of [computeBestSell]. *)
Definition validBuyPrice (buyPrice : number) : bool :=
  isFinite buyPrice && (buyPrice >? zero)%js.

(** The second guard: a finite purchase instant strictly after the epoch
    second. *)
Definition validInstant (seconds : number) : bool :=
  isFinite seconds && (seconds >? zero)%js.

(** [new Date(timestamp * 1000)] is a valid date. *)
Definition dateable (c : Candle) : Prop :=
  Date_of_number (timestamp c * Fin 1000)%js <> None.

(** The candles at or after the purchase instant. *)
Definition afterBuy (seconds : number) (candles : list Candle) : list Candle :=
  filter (fun candle => (timestamp candle >=? seconds)%js) candles.

(** The result built from the best candle. *)
Definition populated (p : Purchase) (best : Candle) (ms : Z) : BestSell :=
  {| bestSellAt := Some (formatISO ms);
     bestSellPrice := Some (high best);
     bestPlPercent :=
       Some (((high best - buyPrice p) / buyPrice p) * Fin 100)%double |}.

(** The cases in which [computeBestSell] answers the all-absent result. *)
Definition absentCase (p : Purchase) (candles : list Candle) : Prop :=
  validBuyPrice (buyPrice p) = false \/
  Date_parse (boughtAt p) = None \/
  (unixSeconds (boughtAt p) <=? zero)%js = true \/
  Forall (fun c => (timestamp c >=? unixSeconds (boughtAt p))%js = false)
         candles.

(** The profit trigger: [buyPrice > 0] and a spot price strictly above
    one and a half times the buy price. *)
Definition profitTrigger (currentPrices : Prices) (h : Holding) : Prop :=
  (buyPriceOf h >? zero)%js = true /\
  (currentPriceOf currentPrices h
     >? (buyPriceOf h * Fin (3 # 2))%double)%js = true.

(** All three fields are present. *)
Definition isPopulated (r : BestSell) : Prop :=
  exists iso price pl,
    r = {| bestSellAt := Some iso; bestSellPrice := Some price;
           bestPlPercent := Some pl |}.

(** From now on the upstream of [w] serves [pages]. *)
Definition serves (w : World) (pages : list (list RawRow)) : Prop :=
  forall k, upstream w (served w + k)%nat = pageOutcome pages k.

(** The cursor is honoured: when a page has valid candles, the next page
    holds only candles at or before [oldestTimestamp - 60]. *)
Fixpoint honorsCursor (pages : list (list RawRow)) : bool :=
  match pages with
  | page :: later =>
      match page_candles page with
      | [] => true
      | pageCandles =>
          forallb (fun c =>
                     (timestamp c <=?
                      Math_min (map timestamp pageCandles) - Fin 60)%js)
                  (page_candles (hd [] later))
      end && honorsCursor later
  | [] => true
  end.

(** The candles the loop accumulates when the pages arrive as they are. *)
Fixpoint pure_loop (stopBeforeTimestamp : number) (remaining : nat)
    (pages : list (list RawRow)) (candles : list Candle) : list Candle :=
  match remaining with
  | O => candles
  | S remaining' =>
      let ohlcvList := hd [] pages in
      if (List.length ohlcvList =? 0)%nat then candles else
      let pageCandles := page_candles ohlcvList in
      let candles := candles ++ pageCandles in
      if (List.length pageCandles =? 0)%nat then candles else
      let oldestTimestamp := Math_min (map timestamp pageCandles) in
      if isFinite stopBeforeTimestamp
         && (oldestTimestamp <=? stopBeforeTimestamp)%js
      then candles else
      if (List.length ohlcvList <? 1000)%nat then candles else
      pure_loop stopBeforeTimestamp remaining' (tl pages) candles
  end.

(** The filter on the purchase instant, on a timestamp and on the keys
    of a map. *)
Definition atOrAfter (seconds : number) (k : number) : bool := (k >=? seconds)%js.

Definition filterKeys {V} (seconds : number) (m : list (number * V))
  : list (number * V) :=
  filter (fun kv => atOrAfter seconds (fst kv)) m.

(** The error an attempt on [url] ends with when it meets [o]; [None]
    when the attempt returns a body. *)
Definition attempt_error (url : Url) (o : Outcome) : option Error :=
  match o with
  | NetworkError => Some FetchRejected
  | Response status body =>
      if ok status then
        match body with Some _ => None | None => Some BodyNotJson end
      else Some (UpstreamStatus status url)
  end.

(** The body an attempt returns when it meets [o]. *)
Definition attempt_value (o : Outcome) : option json :=
  match o with
  | Response status (Some j) => if ok status then Some j else None
  | _ => None
  end.

(** The errors the serverless variant can end with while it loads
    candles: those of a candle-page request, and the [TypeError] of a
    list that cannot be mapped. *)
Definition page_error (poolAddress : string) (e : Error) : Prop :=
  e = FetchRejected \/ e = BodyNotJson \/ e = TypeError \/
  exists status beforeTimestamp,
    ok status = false /\
    e = UpstreamStatus status (OhlcvUrl poolAddress beforeTimestamp).

(** The errors the plain variant can end with while it loads candles. *)
Definition plain_page_error (poolAddress : string) (e : Error) : Prop :=
  e = FetchRejected \/ e = BodyNotJson \/ e = TypeError \/
  e = FailedToLoadCandles poolAddress.

(** From [w] on, some request is answered with a 2xx body whose
    [ohlcv_list] cannot be mapped. *)
Definition unmappable_served (w : World) : Prop :=
  exists n status,
    (served w <= n)%nat /\ ok status = true /\
    upstream w n = Response status (Some JOhlcvUnmappable).

(** The errors a call of [fetchJsonWithRetry] on [url] can end with. *)
Definition request_error (url : Url) (e : Error) : Prop :=
  e = FetchRejected \/ e = BodyNotJson \/
  exists status, ok status = false /\ e = UpstreamStatus status url.

(** The log holds requests only, no pause. *)
Definition only_fetches (seg : list Event) : Prop :=
  Forall (fun ev => isFetch ev = true) seg.

(** The request passes the checks of the handlers: a [GET] with a
    non-empty [mintAddress] and [boughtAt] and a finite [buyPrice]. *)
Definition accepted (req : Request) : Prop :=
  method req = "GET"%string /\
  nonempty (String_or_empty (query_mintAddress req)) = true /\
  nonempty (String_or_empty (query_boughtAt req)) = true /\
  isFinite (Number_of_query (query_buyPrice req)) = true.

(** A healthy upstream: the next answer is a pool listing whose first
    address is [poolAddress], the following ones are [pages]. *)
Definition healthy (w : World) (poolAddress : string)
    (pages : list (list RawRow)) : Prop :=
  upstream w (served w) = Response 200 (Some (JPools (Some poolAddress))) /\
  nonempty poolAddress = true /\
  forall k, upstream w (S (served w) + k)%nat = pageOutcome pages k.

(** [h'] is [h], or [h] sold: the same position, with [sell_price]
    unchanged or set for the first time. *)
Definition same_position (h h' : Holding) : Prop :=
  symbol h' = symbol h /\ mint_address h' = mint_address h /\
  bought_at h' = bought_at h /\ buy_price h' = buy_price h /\
  (sell_price h' = sell_price h \/
   (sell_price h = None /\ exists sold, sell_price h' = Some sold)).

(** [h] closed at [price]. *)
Definition sold_at (price : number) (h : Holding) : Holding :=
  {| symbol := symbol h; mint_address := mint_address h;
     bought_at := bought_at h; buy_price := buy_price h;
     sell_price := Some price |}.

(** The pages an upstream serves are well formed: no 2xx answer is the
    document [null], every timestamp is finite and a page with rows has
    a valid candle. *)
Definition well_formed_pages (up : nat -> Outcome) : Prop :=
  forall n status,
    (ok status = true -> up n <> Response status (Some JNull)) /\
    forall rows,
      up n = Response status (Some (JOhlcv rows)) ->
      Forall (fun row => isFinite (row0 row) = true) rows /\
      (rows <> [] -> page_candles rows <> []).

(** What [loadBestSellTimes] stores for [holding] when the lookup of the
    holding starts in [w]: the value of [computeBestSellInfo] on the
    candles fetched for its pool, or the all-absent entry when the pool
    lookup or the candle fetch throws. *)
Definition stored_for (holding : Holding) (w : World) (info : BestSell) : Prop :=
  match Client.fetchTopSolanaPoolAddress (mint_address holding) w with
  | (Ok poolAddress, w1) =>
      match fst (Client.fetchAllMinuteCandles poolAddress w1) with
      | Ok minuteCandles => info = computeBestSellInfo holding minuteCandles
      | Throw _ => info = nullBestSell
      end
  | (Throw _, _) => info = nullBestSell
  end.

(** The displayed profit or loss of a holding is not negative: it is
    absent, or a number that is at least zero. *)
Definition no_loss (h : Holding) : Prop :=
  match Portfolio.getProfitLossPercent (buy_price h) (sell_price h) with
  | Some pl => (pl >=? zero)%js = true
  | None => True
  end.

(** A running total of the simulation that is worth at least [n] stakes. *)
Definition worth_stakes (total : number) (n : nat) : Prop :=
  total = PInf \/
  exists q, total = Fin q /\ (inject_Z (Z.of_nat n) * (1 # 2) <= q)%Q.

(* ================================================================== *)
(** ** Facts about numbers *)
(* ================================================================== *)

Lemma ltb_Fin (a b : Q) : (Fin a <? Fin b)%js = true <-> (a < b)%Q.
Proof.
  simpl. rewrite negb_true_iff. split; intro H.
  - apply Qnot_le_lt. intro L. apply Qle_bool_iff in L. congruence.
  - destruct (Qle_bool b a) eqn:E; [|reflexivity].
    apply Qle_bool_iff in E. lra.
Qed.

Lemma leb_Fin (a b : Q) : (Fin a <=? Fin b)%js = true <-> (a <= b)%Q.
Proof. simpl. apply Qle_bool_iff. Qed.

Lemma ltb_Fin_false (a b : Q) : (Fin a <? Fin b)%js = false <-> (b <= a)%Q.
Proof.
  rewrite <- not_true_iff_false, ltb_Fin. split; intro H; lra.
Qed.

Lemma leb_Fin_false (a b : Q) : (Fin a <=? Fin b)%js = false <-> (b < a)%Q.
Proof.
  rewrite <- not_true_iff_false, leb_Fin. split; intro H; lra.
Qed.

Lemma eqb_Fin (a b : Q) : JS.eqb (Fin a) (Fin b) = true <-> (a == b)%Q.
Proof. simpl. apply Qeq_bool_iff. Qed.

Lemma sameValueZero_Fin (a b : Q) :
  sameValueZero (Fin a) (Fin b) = true <-> (a == b)%Q.
Proof. simpl. apply Qeq_bool_iff. Qed.

Lemma sameValueZero_Fin_false (a b : Q) :
  sameValueZero (Fin a) (Fin b) = false <-> ~ (a == b)%Q.
Proof. rewrite <- not_true_iff_false, sameValueZero_Fin. tauto. Qed.

(** Destructs every number in sight and turns the comparisons between
    finite values into statements about rationals. *)
Ltac num_reflect :=
  unfold JS.gtb, JS.geb, zero in *;
  repeat match goal with
  | H : (Fin _ <? Fin _)%js = true |- _ => apply ltb_Fin in H
  | H : (Fin _ <? Fin _)%js = false |- _ => apply ltb_Fin_false in H
  | H : (Fin _ <=? Fin _)%js = true |- _ => apply leb_Fin in H
  | H : (Fin _ <=? Fin _)%js = false |- _ => apply leb_Fin_false in H
  | H : sameValueZero (Fin _) (Fin _) = true |- _ => apply sameValueZero_Fin in H
  | H : sameValueZero (Fin _) (Fin _) = false |- _ =>
      apply sameValueZero_Fin_false in H
  | |- (Fin _ <? Fin _)%js = true => apply ltb_Fin
  | |- (Fin _ <? Fin _)%js = false => apply ltb_Fin_false
  | |- (Fin _ <=? Fin _)%js = true => apply leb_Fin
  | |- (Fin _ <=? Fin _)%js = false => apply leb_Fin_false
  | |- sameValueZero (Fin _) (Fin _) = true => apply sameValueZero_Fin
  | |- sameValueZero (Fin _) (Fin _) = false => apply sameValueZero_Fin_false
  end.

Ltac num_cases :=
  repeat match goal with
  | x : number |- _ => destruct x
  end;
  try discriminate; try reflexivity; try (simpl in *; congruence).

Ltac num_solve :=
  intros; num_cases; cbn [JS.sub] in *; num_reflect; simpl in *; try lra.

Lemma isFinite_Fin (x : number) : isFinite x = true -> exists q, x = Fin q.
Proof. destruct x; try discriminate. eauto. Qed.

Lemma leb_trans (a b c : number) :
  (a <=? b)%js = true -> (b <=? c)%js = true -> (a <=? c)%js = true.
Proof. num_solve. Qed.

Lemma ltb_leb_trans (a b c : number) :
  (a <? b)%js = true -> (b <=? c)%js = true -> (a <? c)%js = true.
Proof. num_solve. Qed.

Lemma leb_ltb_trans (a b c : number) :
  (a <=? b)%js = true -> (b <? c)%js = true -> (a <? c)%js = true.
Proof. num_solve. Qed.

Lemma ltb_trans (a b c : number) :
  (a <? b)%js = true -> (b <? c)%js = true -> (a <? c)%js = true.
Proof. num_solve. Qed.

Lemma ltb_leb (a b : number) : (a <? b)%js = true -> (a <=? b)%js = true.
Proof. num_solve. Qed.

Lemma ltb_not_leb (a b : number) : (a <? b)%js = true -> (b <=? a)%js = false.
Proof. num_solve. Qed.

(** Without [NaN] the order is total. *)
Lemma ltb_false_leb (a b : number) :
  isNaN a = false -> isNaN b = false ->
  (a <? b)%js = false -> (b <=? a)%js = true.
Proof. num_solve. Qed.

Lemma leb_false_ltb (a b : number) :
  isNaN a = false -> isNaN b = false ->
  (a <=? b)%js = false -> (b <? a)%js = true.
Proof. num_solve. Qed.

(** The sign of a difference of finite numbers is their order. *)
Lemma sub_neg_ltb (a b : number) :
  isFinite a = true -> isFinite b = true ->
  ((a - b) <? zero)%js = (a <? b)%js.
Proof.
  intros Ha Hb. destruct a, b; try discriminate. unfold zero. simpl JS.sub.
  destruct (Fin q <? Fin q0)%js eqn:E; num_reflect; lra.
Qed.

Lemma sub_60_ltb (a : number) :
  isFinite a = true -> ((a - Fin 60) <? a)%js = true.
Proof. num_solve. Qed.

Lemma sameValueZero_sym (a b : number) :
  sameValueZero a b = sameValueZero b a.
Proof.
  destruct a, b; try reflexivity. simpl.
  destruct (Qeq_bool q q0) eqn:E, (Qeq_bool q0 q) eqn:F; try reflexivity.
  - apply Qeq_bool_iff in E. apply Qeq_bool_neq in F. exfalso. apply F. lra.
  - apply Qeq_bool_iff in F. apply Qeq_bool_neq in E. exfalso. apply E. lra.
Qed.

Lemma sameValueZero_refl (a : number) : sameValueZero a a = true.
Proof. destruct a; try reflexivity. simpl. apply Qeq_bool_iff. reflexivity. Qed.

Lemma sameValueZero_trans (a b c : number) :
  sameValueZero a b = true -> sameValueZero b c = true ->
  sameValueZero a c = true.
Proof. num_solve. Qed.

(** Comparisons do not tell SameValueZero-equal numbers apart. *)
Lemma leb_sameValueZero_r (a b c : number) :
  sameValueZero b c = true -> (a <=? b)%js = (a <=? c)%js.
Proof.
  intros H. destruct a, b, c; try discriminate; try reflexivity.
  num_reflect. destruct (Fin q <=? Fin q1)%js eqn:E; num_reflect; lra.
Qed.

Lemma leb_sameValueZero_l (a b c : number) :
  sameValueZero a b = true -> (a <=? c)%js = (b <=? c)%js.
Proof.
  intros H. destruct a, b, c; try discriminate; try reflexivity.
  num_reflect. destruct (Fin q0 <=? Fin q1)%js eqn:E; num_reflect; lra.
Qed.

Lemma ltb_irrefl (a : number) : (a <? a)%js = false.
Proof. num_solve. Qed.

Lemma ltb_not_sameValueZero (a b : number) :
  (a <? b)%js = true -> sameValueZero a b = false.
Proof. num_solve. Qed.

(* ================================================================== *)
(** ** Facts about [fetchJsonWithRetry] *)
(* ================================================================== *)

Lemma extends_by_nil (w : World) : extends_by w w [].
Proof. unfold extends_by, fetches. simpl. auto. Qed.

Lemma fetches_app (a b : list Event) :
  fetches (a ++ b) = (fetches a + fetches b)%nat.
Proof. unfold fetches. rewrite filter_app, length_app. reflexivity. Qed.

Lemma extends_by_trans (w1 w2 w3 : World) (s1 s2 : list Event) :
  extends_by w1 w2 s1 -> extends_by w2 w3 s2 -> extends_by w1 w3 (s2 ++ s1).
Proof.
  intros (L1 & S1 & U1) (L2 & S2 & U2). unfold extends_by.
  rewrite L2, L1, S2, S1, U2, U1, fetches_app, app_assoc. repeat split. lia.
Qed.

(** One attempt performs exactly one [fetch]. *)
Lemma attempt_body_extends (url : Url) (attempts attempt : nat)
    (lastError : option Error) (w : World) :
  exists seg,
    extends_by w (snd (attempt_body url attempts attempt lastError w)) seg /\
    fetches seg = 1%nat.
Proof.
  unfold attempt_body, try_catch, bind, fetch, on_catch, bind, sleep, ret,
    throw, response_json, extends_by, record, fetches.
  destruct (attempt <? attempts)%nat;
    destruct (upstream w (served w)) as [|st [j|]];
    try destruct (ok st);
    try destruct (negb (retryable st) || (attempt =? attempts)%nat);
    cbn -[Z.mul];
    first [ exists [EvFetch url]; cbn; repeat split; (reflexivity || lia)
          | exists [EvSleep (250 * Z.of_nat attempt); EvFetch url];
            cbn -[Z.mul]; repeat split; (reflexivity || lia) ].
Qed.

Lemma retry_loop_extends (url : Url) (attempts todo : nat) :
  forall (attempt : nat) (lastError : option Error) (w : World),
  exists seg,
    extends_by w (snd (retry_loop url attempts todo attempt lastError w)) seg /\
    (fetches seg <= todo)%nat.
Proof.
  induction todo as [|todo IH]; intros attempt lastError w.
  - exists []. split; [apply extends_by_nil | reflexivity].
  - simpl. unfold bind.
    destruct (attempt_body_extends url attempts attempt lastError w)
      as (s1 & E1 & F1).
    destruct (attempt_body url attempts attempt lastError w) as [[r|e] w1];
      simpl in E1.
    + destruct r as [j|lastError'].
      * exists s1. split; [exact E1 | lia].
      * destruct (IH (S attempt) lastError' w1) as (s2 & E2 & F2).
        exists (s2 ++ s1). split.
        -- eapply extends_by_trans; eassumption.
        -- rewrite fetches_app. lia.
    + exists s1. split; [exact E1 | lia].
Qed.

(** A call with at least one attempt performs at least one [fetch]. *)
Lemma retry_loop_fetches_pos (url : Url) (attempts todo : nat)
    (attempt : nat) (lastError : option Error) (w : World) (seg : list Event) :
  extends_by w (snd (retry_loop url attempts (S todo) attempt lastError w)) seg ->
  (1 <= fetches seg)%nat.
Proof.
  intros (_ & S1 & _). revert S1. simpl. unfold bind.
  destruct (attempt_body_extends url attempts attempt lastError w)
    as (s1 & (_ & S0 & _) & F1).
  destruct (attempt_body url attempts attempt lastError w) as [[r|e] w1];
    simpl in S0.
  - destruct r as [j|lastError'].
    + simpl. lia.
    + destruct (retry_loop_extends url attempts todo (S attempt) lastError' w1)
        as (s2 & (_ & S2 & _) & _).
      intros S1. lia.
  - simpl. lia.
Qed.

(** The [attempts]-attempt budget: a call of [fetchJsonWithRetry] issues
    at most [attempts] requests. *)
Lemma fetchJsonWithRetry_extends (url : Url) (attempts : nat) (w : World) :
  exists seg,
    extends_by w (snd (fetchJsonWithRetry url attempts w)) seg /\
    (fetches seg <= attempts)%nat.
Proof. apply retry_loop_extends. Qed.

(** The schedule of a call with three attempts: one, two or three
    requests, with a pause of 250 ms times the attempt number after each
    failed attempt but the last. *)
Lemma fetchJsonWithRetry_schedule (url : Url) (w : World) :
  let added := log (snd (fetchJsonWithRetry url 3 w)) in
  added = EvFetch url :: log w \/
  added = EvFetch url :: EvSleep 250 :: EvFetch url :: log w \/
  added = EvFetch url :: EvSleep 500 :: EvFetch url
            :: EvSleep 250 :: EvFetch url :: log w.
Proof.
  unfold fetchJsonWithRetry. cbn [retry_loop].
  unfold bind, attempt_body, try_catch, bind, on_catch, bind, fetch, sleep,
    response_json, ret, throw, record.
  cbn -[Z.mul ok retryable].
  destruct (upstream w (served w)) as [|st1 [j1|]];
    try destruct (ok st1); try destruct (retryable st1);
    cbn -[Z.mul ok retryable]; auto;
    destruct (upstream w (S (served w))) as [|st2 [j2|]];
    try destruct (ok st2); try destruct (retryable st2);
    cbn -[Z.mul ok retryable]; auto;
    destruct (upstream w (S (S (served w)))) as [|st3 [j3|]];
    try destruct (ok st3); try destruct (retryable st3);
    cbn -[Z.mul ok retryable]; auto.
Qed.

(** Whatever the status of a failed first answer, retryable or not, the
    second attempt is made. *)
Lemma fetchJsonWithRetry_retries_any_status (url : Url) (w : World)
    (st : Z) (body : option json) (j : json) :
  ok st = false ->
  upstream w (served w) = Response st body ->
  upstream w (S (served w)) = Response 200 (Some j) ->
  fst (fetchJsonWithRetry url 3 w) = Ok j /\
  log (snd (fetchJsonWithRetry url 3 w))
    = EvFetch url :: EvSleep 250 :: EvFetch url :: log w.
Proof.
  intros Hok U1 U2. unfold fetchJsonWithRetry. cbn [retry_loop].
  unfold bind, attempt_body, try_catch, bind, on_catch, bind, fetch, sleep,
    response_json, ret, throw, record.
  cbn -[Z.mul ok retryable]. rewrite U1, Hok.
  destruct (retryable st); cbn -[Z.mul ok retryable]; rewrite U2; cbn; auto.
Qed.

(* ================================================================== *)
(** ** Facts about the pagination loop *)
(* ================================================================== *)

Lemma fetches_concat_le (segs : list (list Event)) (k : nat) :
  Forall (fun seg => (fetches seg <= k)%nat) segs ->
  (fetches (concat segs) <= List.length segs * k)%nat.
Proof.
  induction 1 as [|seg segs Hs _ IH]; simpl; [reflexivity|].
  rewrite fetches_app. lia.
Qed.

Lemma page_loop_requests (poolAddress : string) (stop : number) (remaining : nat) :
  forall (beforeTimestamp : option number) (candles : list Candle) (w : World),
  exists requests : list (list Event),
    (List.length requests <= remaining)%nat /\
    Forall (page_request poolAddress) requests /\
    extends_by w
      (snd (page_loop poolAddress stop remaining beforeTimestamp candles w))
      (concat requests).
Proof.
  induction remaining as [|remaining IH]; intros beforeTimestamp candles w.
  - exists []. simpl. split; [lia|]. split; [constructor | apply extends_by_nil].
  - cbn [page_loop]. unfold bind at 1.
    destruct (fetchJsonWithRetry_extends (OhlcvUrl poolAddress beforeTimestamp) 3 w)
      as (s1 & E1 & F1).
    assert (P1 : page_request poolAddress s1).
    { split; [exists beforeTimestamp, w; exact E1|].
      split; [|exact F1].
      apply (retry_loop_fetches_pos (OhlcvUrl poolAddress beforeTimestamp)
               3 2 1 None w s1 E1). }
    assert (One : forall w1, extends_by w w1 s1 ->
              exists requests : list (list Event),
                (List.length requests <= S remaining)%nat /\
                Forall (page_request poolAddress) requests /\
                extends_by w w1 (concat requests)).
    { intros w1 Hw1. exists [s1]. simpl. rewrite app_nil_r.
      split; [lia|]. split; [|exact Hw1]. constructor; auto. }
    destruct (fetchJsonWithRetry (OhlcvUrl poolAddress beforeTimestamp) 3 w)
      as [[ohlcvJson|e] w1]; simpl in E1; [|apply One; exact E1].
    destruct (ohlcv_list ohlcvJson) as [ohlcvList|]; [|apply One; exact E1].
    destruct (List.length ohlcvList =? 0)%nat;
      [apply One; exact E1|].
    destruct (List.length (page_candles ohlcvList) =? 0)%nat;
      [apply One; exact E1|].
    destruct (isFinite stop && _); [apply One; exact E1|].
    destruct (List.length ohlcvList <? 1000)%nat;
      [apply One; exact E1|].
    match goal with
    | |- context [page_loop _ _ _ ?b ?c w1] =>
        destruct (IH b c w1) as (rs & L & Fa & E2)
    end.
    exists (rs ++ [s1]). rewrite length_app, concat_app. simpl.
    rewrite app_nil_r. split; [lia|]. split.
    + apply Forall_app. split; auto.
    + eapply extends_by_trans; eassumption.
Qed.

(** Only rows that pass the validity filter are collected. *)
Lemma page_candles_valid (rows : list RawRow) :
  Forall (fun c => valid_candle c = true) (page_candles rows).
Proof.
  unfold page_candles. apply Forall_forall. intros c Hc.
  apply filter_In in Hc. tauto.
Qed.

Lemma page_loop_valid (poolAddress : string) (stop : number) (remaining : nat) :
  forall (beforeTimestamp : option number) (candles : list Candle) (w : World)
         (result : list Candle),
  Forall (fun c => valid_candle c = true) candles ->
  fst (page_loop poolAddress stop remaining beforeTimestamp candles w)
    = Ok result ->
  Forall (fun c => valid_candle c = true) result.
Proof.
  induction remaining as [|remaining IH];
    intros beforeTimestamp candles w result Hc.
  - simpl. intros [= <-]. exact Hc.
  - cbn [page_loop]. unfold bind at 1.
    destruct (fetchJsonWithRetry _ 3 w) as [[ohlcvJson|e] w1];
      [|discriminate].
    destruct (ohlcv_list ohlcvJson) as [ohlcvList|]; [|discriminate].
    assert (Hc' : Forall (fun c => valid_candle c = true)
                    (candles ++ page_candles ohlcvList)).
    { apply Forall_app. split; [exact Hc | apply page_candles_valid]. }
    destruct (List.length ohlcvList =? 0)%nat;
      [intros [= <-]; exact Hc|].
    destruct (List.length (page_candles ohlcvList) =? 0)%nat;
      [intros [= <-]; exact Hc'|].
    destruct (isFinite stop && _); [intros [= <-]; exact Hc'|].
    destruct (List.length ohlcvList <? 1000)%nat;
      [intros [= <-]; exact Hc'|].
    apply IH. exact Hc'.
Qed.

(* ================================================================== *)
(** ** Facts about deduplication and sorting *)
(* ================================================================== *)

Lemma sameValueZero_false_l (a b c : number) :
  sameValueZero a b = true -> sameValueZero a c = false ->
  sameValueZero b c = false.
Proof.
  intros Hab Hac. destruct (sameValueZero b c) eqn:E; [|reflexivity].
  rewrite (sameValueZero_trans _ _ _ Hab E) in Hac. discriminate.
Qed.

Lemma Map_set_In {V} (k : number) (v : V) (m : list (number * V))
    (k' : number) (v' : V) :
  keys_distinct m ->
  In (k', v') (Map_set k v m) ->
  (v' = v /\ sameValueZero k' k = true) \/
  (In (k', v') m /\ sameValueZero k' k = false).
Proof.
  induction m as [|[k1 v1] m IH]; simpl; intros D H.
  - destruct H as [[= <- <-]|[]]. left. split; [reflexivity|].
    apply sameValueZero_refl.
  - inversion D as [|? ? Hk1 Dm]; subst.
    destruct (sameValueZero k1 k) eqn:E.
    + destruct H as [[= <- <-]|H]; [left; auto|].
      right. split; [right; exact H|].
      rewrite Forall_forall in Hk1. specialize (Hk1 _ H). simpl in Hk1.
      rewrite sameValueZero_sym.
      apply sameValueZero_false_l with (a := k1); assumption.
    + destruct H as [[= <- <-]|H]; [right; split; [left; reflexivity|exact E]|].
      destruct (IH Dm H) as [L|[R1 R2]]; [left; exact L|].
      right. split; [right; exact R1|exact R2].
Qed.

Lemma Map_set_keys {V} (k : number) (v : V) (m : list (number * V))
    (k' : number) (v' : V) :
  In (k', v') (Map_set k v m) ->
  (exists v0, In (k', v0) m) \/ k' = k.
Proof.
  induction m as [|[k1 v1] m IH]; simpl; intros H.
  - destruct H as [[= <- <-]|[]]. right. reflexivity.
  - destruct (sameValueZero k1 k).
    + destruct H as [[= <- <-]|H]; left; eexists; [left; reflexivity|].
      right. exact H.
    + destruct H as [[= <- <-]|H]; [left; eexists; left; reflexivity|].
      destruct (IH H) as [[v0 Hv0]| ->]; [left; eexists; right; exact Hv0|].
      right. reflexivity.
Qed.

Lemma Map_set_keys_distinct {V} (k : number) (v : V) (m : list (number * V)) :
  keys_distinct m -> keys_distinct (Map_set k v m).
Proof.
  induction m as [|[k1 v1] m IH]; simpl; intros D.
  - constructor; constructor.
  - inversion D as [|? ? Hk1 Dm]; subst.
    destruct (sameValueZero k1 k) eqn:E.
    + constructor; assumption.
    + constructor; [|apply IH; exact Dm].
      apply Forall_forall. intros [k' v'] H. simpl.
      destruct (Map_set_keys _ _ _ _ _ H) as [[v0 Hv0]| ->]; [|exact E].
      rewrite Forall_forall in Hk1. apply (Hk1 _ Hv0).
Qed.

(** After [set(k, v)] the map holds [v] under a key equal to [k]. *)
Lemma Map_set_has {V} (k : number) (v : V) (m : list (number * V)) :
  exists k', In (k', v) (Map_set k v m) /\ sameValueZero k' k = true.
Proof.
  induction m as [|[k1 v1] m IH]; simpl.
  - exists k. split; [left; reflexivity | apply sameValueZero_refl].
  - destruct (sameValueZero k1 k) eqn:E.
    + exists k1. split; [left; reflexivity | exact E].
    + destruct IH as (k' & H1 & H2). exists k'. split; [right; exact H1|exact H2].
Qed.

(** [set] never removes a key. *)
Lemma Map_set_keeps {V} (k : number) (v : V) (m : list (number * V))
    (k0 : number) (v0 : V) :
  In (k0, v0) m -> exists v', In (k0, v') (Map_set k v m).
Proof.
  induction m as [|[k1 v1] m IH]; simpl; intros H; [contradiction|].
  destruct (sameValueZero k1 k).
  - destruct H as [H|H].
    + inversion H; subst. eexists. left. reflexivity.
    + eexists. right. exact H.
  - destruct H as [H|H].
    + inversion H; subst. eexists. left. reflexivity.
    + destruct (IH H) as (v' & Hv'). eexists. right. exact Hv'.
Qed.

Lemma uniqueByTimestamp_snoc (l : list Candle) (x : Candle) :
  uniqueByTimestamp (l ++ [x]) = Map_set (timestamp x) x (uniqueByTimestamp l).
Proof. unfold uniqueByTimestamp. rewrite fold_left_app. reflexivity. Qed.

(** The invariant of the deduplication loop. *)
Lemma uniqueByTimestamp_spec (l : list Candle) :
  keys_distinct (uniqueByTimestamp l) /\
  (forall k v, In (k, v) (uniqueByTimestamp l) ->
     sameValueZero k (timestamp v) = true /\ last_with_timestamp l v) /\
  (forall c, In c l ->
     exists k v, In (k, v) (uniqueByTimestamp l) /\
                 sameValueZero k (timestamp c) = true).
Proof.
  induction l as [|x l (D & B & C)] using rev_ind.
  - repeat split; try constructor; simpl; intros; contradiction.
  - rewrite uniqueByTimestamp_snoc. split; [|split].
    + apply Map_set_keys_distinct. exact D.
    + intros k v H.
      destruct (Map_set_In _ _ _ _ _ D H) as [[-> Hk]|[Hin Hk]].
      * split; [exact Hk|]. exists l, []. split; [reflexivity|constructor].
      * destruct (B _ _ Hin) as (Hkv & l1 & l2 & -> & Hl2).
        split; [exact Hkv|]. exists l1, (l2 ++ [x]). split.
        -- rewrite <- app_assoc. reflexivity.
        -- apply Forall_app. split; [exact Hl2|]. constructor; [|constructor].
           rewrite sameValueZero_sym.
           apply sameValueZero_false_l with (a := k); assumption.
    + intros c Hc. apply in_app_or in Hc. destruct Hc as [Hc|[<-|[]]].
      * destruct (C _ Hc) as (k & v & Hin & Hk).
        destruct (Map_set_keeps (timestamp x) x _ _ _ Hin) as (v' & Hv').
        exists k, v'. split; assumption.
      * destruct (Map_set_has (timestamp x) x (uniqueByTimestamp l))
          as (k' & H1 & H2).
        exists k', x. split; assumption.
Qed.

Lemma sort_insert_In {A} (compare : A -> A -> number) (x y : A) (s : list A) :
  In y (sort_insert compare x s) <-> y = x \/ In y s.
Proof.
  induction s as [|z s IH]; simpl.
  - intuition.
  - destruct (compare z x <? zero)%js; simpl; rewrite ?IH; intuition.
Qed.

Lemma Array_sort_In {A} (compare : A -> A -> number) (y : A) (l : list A) :
  In y (Array_sort compare l) <-> In y l.
Proof.
  induction l as [|x l IH]; simpl; [tauto|].
  rewrite sort_insert_In, IH. intuition.
Qed.

Lemma valid_finite_timestamp (c : Candle) :
  valid_candle c = true -> finite_timestamp c.
Proof.
  unfold valid_candle, finite_timestamp. intros H.
  apply andb_true_iff in H. destruct H as [H _].
  apply andb_true_iff in H. tauto.
Qed.

Lemma byTimestamp_neg (a b : Candle) :
  finite_timestamp a -> finite_timestamp b ->
  (byTimestamp a b <? zero)%js = (timestamp a <? timestamp b)%js.
Proof. intros. apply sub_neg_ltb; assumption. Qed.

Lemma sort_insert_ascending (x : Candle) (s : list Candle) :
  finite_timestamp x -> Forall finite_timestamp s ->
  Forall (fun y => sameValueZero (timestamp y) (timestamp x) = false) s ->
  ascending s -> ascending (sort_insert byTimestamp x s).
Proof.
  intros Fx Fs Ds As. induction As as [|y s As IH Hy]; simpl.
  - repeat constructor.
  - inversion Fs as [|? ? Fy Fs']; subst. inversion Ds as [|? ? Dy Ds']; subst.
    rewrite byTimestamp_neg by assumption.
    destruct (timestamp y <? timestamp x)%js eqn:E.
    + constructor; [apply IH; assumption|].
      apply Forall_forall. intros z Hz. apply sort_insert_In in Hz.
      destruct Hz as [->|Hz]; [exact E|].
      rewrite Forall_forall in Hy. apply Hy. exact Hz.
    + assert (Lt : (timestamp x <? timestamp y)%js = true).
      { unfold finite_timestamp in Fx, Fy.
        destruct (timestamp x), (timestamp y); try discriminate.
        num_reflect. lra. }
      constructor; [constructor; assumption|].
      constructor; [exact Lt|].
      apply Forall_forall. intros z Hz. rewrite Forall_forall in Hy.
      eapply ltb_trans; [exact Lt | apply Hy; exact Hz].
Qed.

Lemma Array_sort_ascending (l : list Candle) :
  Forall finite_timestamp l -> distinct_timestamps l ->
  ascending (Array_sort byTimestamp l).
Proof.
  intros Fl Dl. induction Dl as [|x l Hx Dl IH]; simpl.
  - constructor.
  - inversion Fl as [|? ? Fx Fl']; subst.
    apply sort_insert_ascending.
    + exact Fx.
    + apply Forall_forall. intros y Hy. apply Array_sort_In in Hy.
      rewrite Forall_forall in Fl'. apply Fl'. exact Hy.
    + apply Forall_forall. intros y Hy. apply Array_sort_In in Hy.
      rewrite Forall_forall in Hx. rewrite sameValueZero_sym. apply Hx. exact Hy.
    + apply IH. exact Fl'.
Qed.

Lemma ascending_distinct (cs : list Candle) :
  ascending cs -> distinct_timestamps cs.
Proof.
  induction 1 as [|c cs _ IH Hc]; constructor; [|exact IH].
  eapply Forall_impl; [|exact Hc]. intros d. apply ltb_not_sameValueZero.
Qed.

Lemma values_distinct (m : list (number * Candle)) :
  keys_distinct m ->
  (forall k v, In (k, v) m -> sameValueZero k (timestamp v) = true) ->
  distinct_timestamps (Map_values m).
Proof.
  intros D. induction D as [|[k v] m Hk D IH]; simpl; intros B.
  - constructor.
  - constructor; [|apply IH; intros; apply B; right; assumption].
    apply Forall_forall. intros c Hc. unfold Map_values in Hc.
    apply in_map_iff in Hc. destruct Hc as ([k' v'] & <- & Hin). simpl.
    rewrite Forall_forall in Hk. specialize (Hk _ Hin). simpl in Hk.
    assert (Hv : sameValueZero k (timestamp v) = true)
      by (apply B; left; reflexivity).
    assert (Hv' : sameValueZero k' (timestamp v') = true)
      by (apply B; right; exact Hin).
    apply sameValueZero_false_l with (a := k); [exact Hv|].
    rewrite sameValueZero_sym.
    apply sameValueZero_false_l with (a := k'); [exact Hv'|].
    rewrite sameValueZero_sym. exact Hk.
Qed.

Lemma In_dedupSorted (candles : list Candle) (c : Candle) :
  In c (dedupSorted candles) <->
  exists k, In (k, c) (uniqueByTimestamp candles).
Proof.
  unfold dedupSorted. rewrite Array_sort_In. unfold Map_values.
  rewrite in_map_iff. split.
  - intros ([k v] & <- & H). exists k. exact H.
  - intros (k & H). exists (k, c). split; [reflexivity|exact H].
Qed.

(** What [dedupSorted] does to a list of candles with finite timestamps. *)
Lemma dedupSorted_spec (candles : list Candle) :
  Forall finite_timestamp candles ->
  ascending (dedupSorted candles) /\
  distinct_timestamps (dedupSorted candles) /\
  (forall c, In c (dedupSorted candles) -> last_with_timestamp candles c) /\
  (forall c, In c candles ->
     exists c', In c' (dedupSorted candles) /\
                sameValueZero (timestamp c') (timestamp c) = true).
Proof.
  intros Fc. destruct (uniqueByTimestamp_spec candles) as (D & B & C).
  assert (Asc : ascending (dedupSorted candles)).
  { apply Array_sort_ascending.
    - apply Forall_forall. intros c Hc. unfold Map_values in Hc.
      apply in_map_iff in Hc. destruct Hc as ([k v] & <- & Hin). simpl.
      destruct (B _ _ Hin) as (_ & l1 & l2 & -> & _).
      rewrite Forall_forall in Fc. apply Fc. apply in_elt.
    - apply values_distinct; [exact D|]. intros k v H. apply (B _ _ H). }
  split; [exact Asc|]. split; [apply ascending_distinct; exact Asc|]. split.
  - intros c Hc. apply In_dedupSorted in Hc. destruct Hc as (k & Hk).
    apply (B _ _ Hk).
  - intros c Hc. destruct (C _ Hc) as (k & v & Hin & Hk).
    exists v. split; [apply In_dedupSorted; exists k; exact Hin|].
    destruct (B _ _ Hin) as (Hkv & _).
    apply sameValueZero_trans with (b := k); [|exact Hk].
    rewrite sameValueZero_sym. exact Hkv.
Qed.

(* ================================================================== *)
(** ** Facts about [computeBestSell] *)
(* ================================================================== *)

Lemma reduce_best_fold (first : Candle) (rest : list Candle) :
  reduce_best first rest = fold_left step_best rest first.
Proof. reflexivity. Qed.

(** The scan of [reduce]: the running best is the first candle of the
    part scanned so far whose [high] no other candle of that part
    exceeds. *)
Lemma reduce_scan (rest : list Candle) :
  forall (pre : list Candle) (best : Candle) (mid : list Candle),
  isNaN (high best) = false ->
  Forall (fun c => isNaN (high c) = false) rest ->
  Forall (fun c => (high c <? high best)%js = true) pre ->
  Forall (fun c => (high c <=? high best)%js = true) mid ->
  exists l1 l2,
    pre ++ best :: mid ++ rest = l1 ++ fold_left step_best rest best :: l2 /\
    Forall (fun c => (high c <? high (fold_left step_best rest best))%js = true) l1 /\
    Forall (fun c => (high c <=? high (fold_left step_best rest best))%js = true) l2.
Proof.
  induction rest as [|c rest IH]; intros pre best mid Nb Nr Hpre Hmid.
  - exists pre, mid. rewrite app_nil_r. auto.
  - inversion Nr as [|? ? Nc Nr']; subst. simpl. unfold step_best at 2 4 6.
    unfold JS.gtb. destruct (high best <? high c)%js eqn:E.
    + destruct (IH (pre ++ best :: mid) c [] Nc Nr') as (l1 & l2 & Eq & H1 & H2).
      * apply Forall_app. split; [|constructor].
        -- eapply Forall_impl; [|exact Hpre]. intros d Hd.
           exact (ltb_trans _ _ _ Hd E).
        -- exact E.
        -- eapply Forall_impl; [|exact Hmid]. intros d Hd.
           exact (leb_ltb_trans _ _ _ Hd E).
      * constructor.
      * exists l1, l2. split; [|auto]. rewrite <- Eq. simpl.
        rewrite <- app_assoc. reflexivity.
    + destruct (IH pre best (mid ++ [c]) Nb Nr' Hpre) as (l1 & l2 & Eq & H1 & H2).
      * apply Forall_app. split; [exact Hmid|]. constructor; [|constructor].
        apply ltb_false_leb; assumption.
      * exists l1, l2. split; [|auto]. rewrite <- Eq.
        rewrite <- app_assoc. reflexivity.
Qed.

Lemma leb_refl_notNaN (a : number) : isNaN a = false -> (a <=? a)%js = true.
Proof. num_solve. Qed.

(** [reduce] on a non-empty array without [NaN] highs: the first
    occurrence of the greatest [high]. *)
Lemma reduce_best_first_max (first : Candle) (rest : list Candle) :
  Forall (fun c => isNaN (high c) = false) (first :: rest) ->
  exists l1 l2,
    first :: rest = l1 ++ reduce_best first rest :: l2 /\
    Forall (fun c => (high c <? high (reduce_best first rest))%js = true) l1 /\
    Forall (fun c => (high c <=? high (reduce_best first rest))%js = true) l2.
Proof.
  intros N. inversion N as [|? ? Nf Nr]; subst.
  rewrite reduce_best_fold.
  apply (reduce_scan rest [] first [] Nf Nr); constructor.
Qed.

Lemma ascending_filter (f : Candle -> bool) (cs : list Candle) :
  ascending cs -> ascending (filter f cs).
Proof.
  induction 1 as [|c cs _ IH Hc]; simpl; [constructor|].
  destruct (f c); [|exact IH]. constructor; [exact IH|].
  apply Forall_forall. intros d Hd. apply filter_In in Hd.
  rewrite Forall_forall in Hc. apply Hc. tauto.
Qed.

Lemma ascending_app_inv (l1 l2 : list Candle) (c : Candle) :
  ascending (l1 ++ c :: l2) ->
  Forall (fun d => (timestamp d <? timestamp c)%js = true) l1 /\
  Forall (fun d => (timestamp c <? timestamp d)%js = true) l2.
Proof.
  induction l1 as [|a l1 IH]; simpl; intros A;
    inversion A as [|? ? A' Ha]; subst.
  - split; [constructor | exact Ha].
  - destruct (IH A') as (H1 & H2). split; [|exact H2].
    constructor; [|exact H1].
    rewrite Forall_forall in Ha. apply Ha. apply in_elt.
Qed.

Lemma guard_validBuyPrice (x : number) :
  negb (isFinite x) || (x <=? zero)%js = negb (validBuyPrice x).
Proof.
  unfold validBuyPrice, zero, JS.gtb. destruct x; try reflexivity. simpl.
  rewrite negb_involutive. reflexivity.
Qed.

(** [computeBestSell] once both guards are passed. *)
Lemma computeBestSell_guards_passed (p : Purchase) (candles : list Candle) :
  validBuyPrice (buyPrice p) = true ->
  validInstant (unixSeconds (boughtAt p)) = true ->
  computeBestSell p candles =
    match afterBuy (unixSeconds (boughtAt p)) candles with
    | [] => Ok nullBestSell
    | first :: rest =>
        match Date_of_number
                (timestamp (reduce_best first rest) * Fin 1000)%js with
        | Some ms => Ok (populated p (reduce_best first rest) ms)
        | None => Throw RangeError
        end
    end.
Proof.
  intros Hb Hi. unfold computeBestSell.
  rewrite guard_validBuyPrice, Hb. cbn [negb].
  rewrite guard_validBuyPrice.
  change (validBuyPrice (unixSeconds (boughtAt p)))
    with (validInstant (unixSeconds (boughtAt p))).
  rewrite Hi. cbn [negb]. fold (afterBuy (unixSeconds (boughtAt p)) candles).
  destruct (afterBuy (unixSeconds (boughtAt p)) candles) as [|first rest];
    [reflexivity|].
  unfold toISOString, populated, plPercent.
  destruct (Date_of_number _); reflexivity.
Qed.

Lemma computeBestSell_invalid_buyPrice (p : Purchase) (candles : list Candle) :
  validBuyPrice (buyPrice p) = false ->
  computeBestSell p candles = Ok nullBestSell.
Proof.
  intros Hb. unfold computeBestSell. rewrite guard_validBuyPrice, Hb.
  reflexivity.
Qed.

Lemma computeBestSell_invalid_instant (p : Purchase) (candles : list Candle) :
  validInstant (unixSeconds (boughtAt p)) = false ->
  computeBestSell p candles = Ok nullBestSell.
Proof.
  intros Hi. unfold computeBestSell.
  destruct (negb (isFinite (buyPrice p)) || (buyPrice p <=? zero)%js);
    [reflexivity|].
  rewrite guard_validBuyPrice.
  change (validBuyPrice (unixSeconds (boughtAt p)))
    with (validInstant (unixSeconds (boughtAt p))).
  rewrite Hi. reflexivity.
Qed.

(** [computeBestSell] reads the candles only through the filter on the
    purchase instant. *)
Lemma computeBestSell_afterBuy (p : Purchase) (cs1 cs2 : list Candle) :
  afterBuy (unixSeconds (boughtAt p)) cs1
    = afterBuy (unixSeconds (boughtAt p)) cs2 ->
  computeBestSell p cs1 = computeBestSell p cs2.
Proof.
  intros E.
  destruct (validBuyPrice (buyPrice p)) eqn:Hb;
    [|rewrite !computeBestSell_invalid_buyPrice by exact Hb; reflexivity].
  destruct (validInstant (unixSeconds (boughtAt p))) eqn:Hi;
    [|rewrite !computeBestSell_invalid_instant by exact Hi; reflexivity].
  rewrite !computeBestSell_guards_passed by assumption. rewrite E. reflexivity.
Qed.

Lemma afterBuy_In (seconds : number) (candles : list Candle) (c : Candle) :
  In c (afterBuy seconds candles) <->
  In c candles /\ (timestamp c >=? seconds)%js = true.
Proof. unfold afterBuy. apply filter_In. Qed.

Lemma ltb_asym (a b : number) :
  (a <? b)%js = true -> (b <? a)%js = true -> False.
Proof. num_solve. Qed.

(** C1 (amended).  For a finite [buyPrice > 0], a purchase instant that is
    finite and strictly positive (in whole seconds), and a candle series
    in chronological order whose highs are numbers and whose timestamps
    are valid dates: if some candle is at or after the purchase instant,
    [computeBestSell] returns the chronologically earliest candle that
    reaches the greatest [high] among the candles at or after the
    purchase instant, with [bestSellPrice] that [high] and [bestPlPercent]
    the value of [(high - buyPrice) / buyPrice * 100] as the code
    computes it, in doubles. *)
Theorem computeBestSell_earliest_maximum (p : Purchase) (candles : list Candle) :
  validBuyPrice (buyPrice p) = true ->
  validInstant (unixSeconds (boughtAt p)) = true ->
  ascending candles ->
  Forall (fun c => isNaN (high c) = false) candles ->
  Forall dateable candles ->
  (exists c, In c candles /\
             (timestamp c >=? unixSeconds (boughtAt p))%js = true) ->
  exists (best : Candle) (ms : Z),
    In best candles /\
    (timestamp best >=? unixSeconds (boughtAt p))%js = true /\
    (forall c, In c candles ->
       (timestamp c >=? unixSeconds (boughtAt p))%js = true ->
       (high c <=? high best)%js = true /\
       ((timestamp c <? timestamp best)%js = true ->
        (high c <? high best)%js = true)) /\
    Date_of_number (timestamp best * Fin 1000)%js = Some ms /\
    computeBestSell p candles =
      Ok {| bestSellAt := Some (formatISO ms);
            bestSellPrice := Some (high best);
            bestPlPercent :=
              Some (((high best - buyPrice p) / buyPrice p) * Fin 100)%double |}.
Proof.
  intros Hb Hi Asc Nn Dt (c0 & Hc0 & Hge0).
  rewrite computeBestSell_guards_passed by assumption.
  assert (AscA : ascending (afterBuy (unixSeconds (boughtAt p)) candles))
    by (apply ascending_filter; exact Asc).
  assert (In0 : In c0 (afterBuy (unixSeconds (boughtAt p)) candles))
    by (apply afterBuy_In; auto).
  assert (NnA : Forall (fun c => isNaN (high c) = false)
                  (afterBuy (unixSeconds (boughtAt p)) candles)).
  { apply Forall_forall. intros c Hc. apply afterBuy_In in Hc.
    rewrite Forall_forall in Nn. apply Nn. tauto. }
  assert (Mem : forall c, In c candles ->
            (timestamp c >=? unixSeconds (boughtAt p))%js = true ->
            In c (afterBuy (unixSeconds (boughtAt p)) candles))
    by (intros; apply afterBuy_In; auto).
  destruct (afterBuy (unixSeconds (boughtAt p)) candles) as [|first rest] eqn:EA;
    [contradiction|].
  destruct (reduce_best_first_max first rest NnA) as (l1 & l2 & Eq & H1 & H2).
  set (best := reduce_best first rest) in *.
  assert (InB : In best (first :: rest)) by (rewrite Eq; apply in_elt).
  rewrite <- EA in InB. apply afterBuy_In in InB. destruct InB as (InB & GeB).
  assert (NB : isNaN (high best) = false)
    by (rewrite Forall_forall in Nn; apply Nn; exact InB).
  rewrite Eq in AscA. destruct (ascending_app_inv _ _ _ AscA) as (A1 & A2).
  assert (DB : dateable best)
    by (rewrite Forall_forall in Dt; apply Dt; exact InB).
  unfold dateable in DB.
  destruct (Date_of_number (timestamp best * Fin 1000)%js) as [ms|] eqn:ED;
    [|contradiction].
  exists best, ms. split; [exact InB|]. split; [exact GeB|].
  split; [|split; [exact ED | reflexivity]].
  intros c Hc Hge. specialize (Mem c Hc Hge). rewrite Eq in Mem.
  apply in_app_or in Mem. rewrite Forall_forall in H1, H2, A1, A2.
  destruct Mem as [M|[<-|M]].
  - split; [apply ltb_leb; apply H1; exact M | intros _; apply H1; exact M].
  - split; [apply leb_refl_notNaN; exact NB|].
    rewrite ltb_irrefl. discriminate.
  - split; [apply H2; exact M|].
    intros L. exfalso. apply (ltb_asym _ _ L). apply A2. exact M.
Qed.

Lemma unixSeconds_Some (s : string) (ms : Z) :
  Date_parse s = Some ms ->
  unixSeconds s = Fin (inject_Z (Qfloor (inject_Z ms / 1000))).
Proof. intros E. unfold unixSeconds. rewrite E. reflexivity. Qed.

Lemma unixSeconds_None (s : string) :
  Date_parse s = None -> unixSeconds s = NaN.
Proof. intros E. unfold unixSeconds. rewrite E. reflexivity. Qed.

Lemma reduce_best_In (first : Candle) (rest : list Candle) :
  In (reduce_best first rest) (first :: rest).
Proof.
  rewrite reduce_best_fold. revert first.
  induction rest as [|c rest IH]; intros b; [left; reflexivity|].
  cbn [fold_left]. destruct (IH (step_best b c)) as [H|H].
  - rewrite <- H. unfold step_best.
    destruct (high c >? high b)%js; [right; left|left]; reflexivity.
  - right. right. exact H.
Qed.

Lemma validInstant_false (s : string) :
  validInstant (unixSeconds s) = false <->
  Date_parse s = None \/ (unixSeconds s <=? zero)%js = true.
Proof.
  destruct (Date_parse s) as [ms|] eqn:E.
  - rewrite (unixSeconds_Some _ _ E). unfold validInstant, JS.gtb, zero.
    cbn [isFinite andb]. split.
    + intros H. right. num_reflect. exact H.
    + intros [H|H]; [discriminate|]. num_reflect. exact H.
  - rewrite (unixSeconds_None _ E). split; [auto|reflexivity].
Qed.

Lemma afterBuy_nil (seconds : number) (candles : list Candle) :
  afterBuy seconds candles = [] <->
  Forall (fun c => (timestamp c >=? seconds)%js = false) candles.
Proof.
  unfold afterBuy. induction candles as [|c cs IH]; simpl.
  - split; constructor.
  - destruct (timestamp c >=? seconds)%js eqn:E.
    + split; [discriminate|]. intros H. inversion H; congruence.
    + rewrite IH. split; [constructor; assumption|].
      intros H. inversion H; assumption.
Qed.

(** C3 (amended).  [computeBestSell] returns the all-absent result exactly
    when [buyPrice] is not a finite value [> 0], or [boughtAt] does not
    parse to a valid instant, or the purchase instant in whole seconds is
    not strictly positive, or no candle has a timestamp at or after the
    purchase instant.  In every other case, when the candle timestamps
    are valid dates, it returns a populated result built from one of the
    candles. *)
Theorem computeBestSell_absent_iff (p : Purchase) (candles : list Candle) :
  (computeBestSell p candles = Ok nullBestSell <-> absentCase p candles) /\
  (~ absentCase p candles -> Forall dateable candles ->
   exists (best : Candle) (ms : Z),
     In best candles /\
     computeBestSell p candles =
       Ok {| bestSellAt := Some (formatISO ms);
             bestSellPrice := Some (high best);
             bestPlPercent :=
               Some (((high best - buyPrice p) / buyPrice p) * Fin 100)%double |}).
Proof.
  unfold absentCase.
  destruct (validBuyPrice (buyPrice p)) eqn:Hb.
  2:{ rewrite computeBestSell_invalid_buyPrice by exact Hb.
      split; [tauto|]. intros N. exfalso. apply N. auto. }
  destruct (validInstant (unixSeconds (boughtAt p))) eqn:Hi.
  2:{ rewrite computeBestSell_invalid_instant by exact Hi.
      apply validInstant_false in Hi.
      split; [tauto|]. intros N. exfalso. apply N. tauto. }
  assert (Hi' : ~ (Date_parse (boughtAt p) = None \/
                   (unixSeconds (boughtAt p) <=? zero)%js = true)).
  { intros H. apply validInstant_false in H. congruence. }
  rewrite computeBestSell_guards_passed by assumption.
  rewrite <- afterBuy_nil.
  destruct (afterBuy (unixSeconds (boughtAt p)) candles) as [|first rest] eqn:EA.
  - split; [tauto|]. intros N. exfalso. apply N. tauto.
  - assert (InB : In (reduce_best first rest) candles).
    { pose proof (reduce_best_In first rest) as H.
      rewrite <- EA in H. apply afterBuy_In in H. tauto. }
    split.
    + split.
      * destruct (Date_of_number _); unfold populated; discriminate.
      * intros [H|[H|[H|H]]]; try discriminate; exfalso; tauto.
    + intros _ Dt. rewrite Forall_forall in Dt. specialize (Dt _ InB).
      unfold dateable in Dt.
      destruct (Date_of_number _) as [ms|]; [|contradiction].
      exists (reduce_best first rest), ms. split; [exact InB|reflexivity].
Qed.

(** C4.  Whatever the upstream serves, the list [fetchAllMinuteCandles]
    returns is strictly ascending by timestamp and holds no timestamp
    twice; each returned candle is the last one fetched with its
    timestamp, and every fetched timestamp is represented. *)
Theorem fetchAllMinuteCandles_ascending_unique
    (poolAddress : string) (stopBeforeTimestamp : number) (w : World)
    (result : list Candle) :
  fst (fetchAllMinuteCandles poolAddress stopBeforeTimestamp w) = Ok result ->
  exists candles : list Candle,
    fst (collectCandles poolAddress stopBeforeTimestamp w) = Ok candles /\
    ascending result /\
    distinct_timestamps result /\
    (forall c, In c result -> last_with_timestamp candles c) /\
    (forall c, In c candles ->
       exists c', In c' result /\
                  sameValueZero (timestamp c') (timestamp c) = true).
Proof.
  unfold fetchAllMinuteCandles, bind, ret.
  destruct (collectCandles poolAddress stopBeforeTimestamp w)
    as [[candles|e] w'] eqn:E; simpl; [|discriminate].
  intros [= <-]. exists candles. split; [reflexivity|].
  apply dedupSorted_spec.
  assert (V : Forall (fun c => valid_candle c = true) candles).
  { apply (page_loop_valid poolAddress stopBeforeTimestamp maxPages None [] w).
    - constructor.
    - unfold collectCandles in E. rewrite E. reflexivity. }
  eapply Forall_impl; [|exact V]. apply valid_finite_timestamp.
Qed.

(** C9.  [fetchAllMinuteCandles] returns for every pool and every
    upstream, after at most 100 candle-page requests: the events it adds
    to the log are those of at most [maxPages = 100] calls of
    [fetchJsonWithRetry], hence at most 300 [fetch]es. *)
Theorem fetchAllMinuteCandles_page_cap
    (poolAddress : string) (stopBeforeTimestamp : number) (w : World) :
  exists (result : Exn (list Candle)) (w' : World)
         (requests : list (list Event)),
    fetchAllMinuteCandles poolAddress stopBeforeTimestamp w = (result, w') /\
    (List.length requests <= 100)%nat /\
    Forall (page_request poolAddress) requests /\
    log w' = concat requests ++ log w /\
    (served w' <= served w + 300)%nat.
Proof.
  destruct (page_loop_requests poolAddress stopBeforeTimestamp maxPages None [] w)
    as (requests & L & Fa & (EL & ES & _)).
  assert (Hf : (fetches (concat requests) <= List.length requests * 3)%nat).
  { apply fetches_concat_le. eapply Forall_impl; [|exact Fa].
    intros seg (_ & _ & H). exact H. }
  unfold maxPages in L.
  unfold fetchAllMinuteCandles, bind, ret, collectCandles.
  destruct (page_loop poolAddress stopBeforeTimestamp maxPages None [] w)
    as [[candles|e] w'] eqn:E; simpl in EL, ES;
    eexists; exists w', requests;
    (split; [reflexivity|]); repeat split; auto; lia.
Qed.

(* ================================================================== *)
(** ** The lifecycle engine *)
(* ================================================================== *)

Lemma or_else_zero_notNaN (x : number) : isNaN (or_else x zero) = false.
Proof. destruct x; reflexivity || (unfold or_else; simpl; destruct (negb _); reflexivity). Qed.

Lemma leb_zero_false_gtb (x : number) :
  isNaN x = false -> (x <=? zero)%js = negb (x >? zero)%js.
Proof.
  intros N. unfold JS.gtb, zero. destruct x; try reflexivity; try discriminate.
  simpl. rewrite negb_involutive. reflexivity.
Qed.

Lemma coinsToSell_In (env : PassEnv) (t : list Holding) (h : Holding) :
  In h (coinsToSell env t) <->
  In h t /\ sell_price h = None /\
  shouldSell (now env) (currentPricesOf env t) h = true.
Proof.
  unfold coinsToSell, activeHoldings. rewrite !filter_In.
  destruct (sell_price h); simpl; intuition discriminate.
Qed.

Lemma shouldSell_iff (now : number) (currentPrices : Prices) (h : Holding) :
  shouldSell now currentPrices h = true <->
  heldOver16Hours now h = true \/ profitTrigger currentPrices h.
Proof.
  unfold shouldSell, profitTrigger.
  rewrite (leb_zero_false_gtb (buyPriceOf h)) by apply or_else_zero_notNaN.
  destruct (heldOver16Hours now h); [intuition|].
  destruct (buyPriceOf h >? zero)%js; simpl; intuition discriminate.
Qed.

(** The spot price the exit rule reads for an open holding of the
    table, in terms of what the price service answers. *)
Lemma currentPriceOf_open (env : PassEnv) (t : list Holding) (h : Holding) :
  In h t -> sell_price h = None ->
  currentPriceOf (currentPricesOf env t) h =
  match jupiterAtSell env
          (firstn 100 (map mint_address
                         (filter (fun x => is_null (sell_price x)) t))) with
  | Some data =>
      match data (mint_address h) with
      | Some usd => or_else usd zero
      | None => zero
      end
  | None => zero
  end.
Proof.
  intros Hin Hopen.
  unfold currentPriceOf, currentPricesOf, fetchJupiterPrices, activeHoldings.
  assert (A : In h (filter (fun x => is_null (sell_price x)) t)).
  { apply filter_In. rewrite Hopen. auto. }
  destruct (filter (fun x => is_null (sell_price x)) t) as [|a l];
    [contradiction|].
  cbn [map]. destruct (jupiterAtSell env _) as [data|]; [|reflexivity].
  unfold usdPrice. destruct (data (mint_address h)); reflexivity.
Qed.


Lemma number_eq_dec (x y : number) : {x = y} + {x <> y}.
Proof.
  decide equality. decide equality; [apply Pos.eq_dec | apply Z.eq_dec].
Qed.

Lemma Holding_eq_dec (x y : Holding) : {x = y} + {x <> y}.
Proof.
  decide equality; try apply string_dec; try apply number_eq_dec.
  decide equality. apply number_eq_dec.
Qed.

Lemma update_sell_price_other (price : number) (mint : string)
    (t : list Holding) (i : nat) (h : Holding) :
  nth_error t i = Some h ->
  nth_error (update_sell_price price mint t) i <> Some h ->
  mint_address h = mint.
Proof.
  intros Hi Hch. unfold update_sell_price in Hch.
  rewrite nth_error_map, Hi in Hch. simpl in Hch.
  destruct (String.eqb_spec (mint_address h) mint) as [E|N]; [exact E|].
  simpl in Hch. contradiction.
Qed.

(** A row changes in the closing updates only through a selected
    holding with its mint address. *)
Lemma closing_updates_other (env : PassEnv) (prices : Prices)
    (selected : list Holding) :
  forall (t : list Holding) (i : nat) (h : Holding),
  nth_error t i = Some h ->
  nth_error (fold_left (closeOne env prices) selected t) i <> Some h ->
  exists x, In x selected /\ mint_address x = mint_address h.
Proof.
  induction selected as [|x selected IH]; intros t i h Hi Hch; simpl in Hch.
  - contradiction.
  - destruct (nth_error (closeOne env prices t x) i) as [h1|] eqn:E1.
    + destruct (Holding_eq_dec h1 h) as [->|N].
      * destruct (IH _ _ _ E1 Hch) as (y & Hy & My).
        exists y. split; [right; exact Hy|exact My].
      * exists x. split; [left; reflexivity|]. symmetry.
        unfold closeOne in E1. destruct (updateOk env (mint_address x)).
        -- eapply update_sell_price_other; [exact Hi|]. rewrite E1.
           intros [= ->]. contradiction.
        -- rewrite Hi in E1. injection E1 as ->. contradiction.
    + exfalso. unfold closeOne in E1.
      destruct (updateOk env (mint_address x)).
      * unfold update_sell_price in E1. rewrite nth_error_map, Hi in E1.
        discriminate.
      * congruence.
Qed.

(** C10 (amended).  An open holding whose [bought_at] does not parse
    never meets the sixteen-hour rule, whatever the clock says, and the
    exit evaluation selects it exactly on the profit trigger: its
    [buy_price] is above 0 and the spot price the price service answers
    for its mint address is strictly greater than [buy_price * 1.5].
    The closing update is keyed by the mint address: a pass changes the
    row of the holding only when the evaluation selected an open holding
    with that mint address, and, when no other open holding has it,
    only on the profit trigger of the holding itself. *)
Theorem unparseable_only_profit (env : PassEnv) (t : list Holding) (h : Holding) :
  In h t -> sell_price h = None ->
  isFinite (getTime (Date_parse (bought_at h))) = false ->
  let buyPrice := or_else (buy_price h) zero in
  let openMints :=
    map mint_address (filter (fun x => is_null (sell_price x)) t) in
  let currentPrice :=
    match jupiterAtSell env (firstn 100 openMints) with
    | Some data =>
        match data (mint_address h) with
        | Some usd => or_else usd zero
        | None => zero
        end
    | None => zero
    end in
  let profit :=
    (buyPrice >? zero)%js = true /\
    (currentPrice >? (buyPrice * Fin (3 # 2))%double)%js = true in
  (forall now : number, heldOver16Hours now h = false) /\
  (In h (coinsToSell env t) <-> profit) /\
  (forall i : nat,
     nth_error t i = Some h ->
     nth_error (fst (sellDue env t)) i <> Some h ->
     exists x, In x (coinsToSell env t) /\
               mint_address x = mint_address h) /\
  (forall i : nat,
     nth_error t i = Some h ->
     (forall h', In h' t -> sell_price h' = None ->
                 mint_address h' = mint_address h -> h' = h) ->
     nth_error (fst (sellDue env t)) i <> Some h ->
     profit).
Proof.
  clear formatISO Number_of_string.
  intros Hin Hopen Hparse buyPrice openMints currentPrice profit.
  assert (Held : forall now : number, heldOver16Hours now h = false).
  { intros n. unfold heldOver16Hours. rewrite Hparse. reflexivity. }
  assert (Iff : In h (coinsToSell env t) <-> profit).
  { rewrite coinsToSell_In, shouldSell_iff, Held. unfold profitTrigger.
    rewrite (currentPriceOf_open env t h Hin Hopen).
    unfold buyPriceOf. fold buyPrice. fold openMints. fold currentPrice.
    fold profit. intuition discriminate. }
  assert (Closed : forall i : nat,
            nth_error t i = Some h ->
            nth_error (fst (sellDue env t)) i <> Some h ->
            exists x, In x (coinsToSell env t) /\
                      mint_address x = mint_address h).
  { intros i Hi Hch. unfold sellDue in Hch.
    destruct (negb (activeSelectOk env)); [contradiction|].
    destruct (activeHoldings t); [contradiction|]. cbn [fst] in Hch.
    exact (closing_updates_other env _ _ t i h Hi Hch). }
  split; [exact Held|]. split; [exact Iff|]. split; [exact Closed|].
  intros i Hi Uniq Hch. apply Iff.
  destruct (Closed i Hi Hch) as (x & Hx & Mx).
  assert (x = h).
  { apply coinsToSell_In in Hx. destruct Hx as (Hxt & Hxo & _).
    apply Uniq; assumption. }
  subst x. exact Hx.
Qed.

(** *** Closed positions *)

Lemma activeHoldings_In (t : list Holding) (h : Holding) :
  In h (activeHoldings t) <-> In h t /\ sell_price h = None.
Proof.
  unfold activeHoldings. rewrite filter_In.
  destruct (sell_price h); simpl; intuition discriminate.
Qed.

Lemma update_sell_price_closed (price : number) (mint : string)
    (t : list Holding) (i : nat) (h : Holding) (sold : number) :
  nth_error t i = Some h -> sell_price h = Some sold ->
  nth_error (update_sell_price price mint t) i = Some h.
Proof.
  intros Hi Hs. unfold update_sell_price. rewrite nth_error_map, Hi. simpl.
  rewrite Hs. simpl. rewrite andb_false_r. reflexivity.
Qed.

Lemma closeOne_closed (env : PassEnv) (prices : Prices) (t : list Holding)
    (holding : Holding) (i : nat) (h : Holding) (sold : number) :
  nth_error t i = Some h -> sell_price h = Some sold ->
  nth_error (closeOne env prices t holding) i = Some h.
Proof.
  intros Hi Hs. unfold closeOne. destruct (updateOk env _); [|exact Hi].
  eapply update_sell_price_closed; eassumption.
Qed.

Lemma sellDue_closed (env : PassEnv) (t : list Holding) (i : nat)
    (h : Holding) (sold : number) :
  nth_error t i = Some h -> sell_price h = Some sold ->
  nth_error (fst (sellDue env t)) i = Some h.
Proof.
  intros Hi Hs. unfold sellDue.
  destruct (negb (activeSelectOk env)); [exact Hi|].
  destruct (activeHoldings t); [exact Hi|]. simpl.
  generalize (currentPricesOf env t) (coinsToSell env t).
  intros prices sel. revert t Hi.
  induction sel as [|x sel IH]; intros t Hi; simpl; [exact Hi|].
  apply IH. eapply closeOne_closed; eassumption.
Qed.

Lemma buyNew_keeps (env : PassEnv) (tokens : list Token) (db : Db)
    (i : nat) (h : Holding) :
  nth_error (holdings db) i = Some h ->
  nth_error (holdings (fst (buyNew env tokens db))) i = Some h.
Proof.
  intros Hi. unfold buyNew. destruct (filter _ tokens); [exact Hi|].
  destruct (holdingsInsertOk env); simpl; [|exact Hi].
  rewrite nth_error_app1; [exact Hi|].
  apply nth_error_Some. congruence.
Qed.

Lemma lifecyclePass_closed (env : PassEnv) (db : Db) (i : nat)
    (h : Holding) (sold : number) :
  nth_error (holdings db) i = Some h -> sell_price h = Some sold ->
  nth_error (holdings (fst (lifecyclePass env db))) i = Some h.
Proof.
  intros Hi Hs. unfold lifecyclePass.
  destruct (feed env) as [tokens|]; [|exact Hi].
  destruct (negb (memeSelectOk env)); [exact Hi|].
  pose proof (buyNew_keeps env tokens db i h Hi) as H1.
  destruct (buyNew env tokens db) as [db1 boughtCount]. simpl in H1.
  pose proof (sellDue_closed env (holdings db1) i h sold H1 Hs) as H2.
  destruct (sellDue env (holdings db1)) as [t2 soldCount]. exact H2.
Qed.

(** C6.  A closed position (a row whose [sell_price] is set) is not
    returned by the open-positions query, is not among the holdings the
    exit rule selects, is left as it is by any closing update, and is the
    same row after any sequence of later passes. *)
Theorem closed_position_stays_closed (db : Db) (i : nat) (h : Holding)
    (sold : number) :
  nth_error (holdings db) i = Some h -> sell_price h = Some sold ->
  (forall t, ~ In h (activeHoldings t)) /\
  (forall env t, ~ In h (coinsToSell env t)) /\
  (forall price mint,
     nth_error (update_sell_price price mint (holdings db)) i = Some h) /\
  (forall envs, nth_error (holdings (runPasses envs db)) i = Some h).
Proof.
  intros Hi Hs. split; [|split; [|split]].
  - intros t H. apply activeHoldings_In in H. destruct H as [_ H]. congruence.
  - intros env t H. apply coinsToSell_In in H. destruct H as (_ & H & _).
    congruence.
  - intros price mint. eapply update_sell_price_closed; eassumption.
  - intros envs. revert db Hi. unfold runPasses.
    induction envs as [|env envs IH]; intros db Hi; simpl; [exact Hi|].
    apply IH. eapply lifecyclePass_closed; eassumption.
Qed.

(* ================================================================== *)
(** ** The request handler *)
(* ================================================================== *)

Lemma computeBestSell_result (p : Purchase) (candles : list Candle)
    (r : BestSell) :
  computeBestSell p candles = Ok r -> r = nullBestSell \/ isPopulated r.
Proof.
  unfold computeBestSell.
  destruct (negb (isFinite (buyPrice p)) || (buyPrice p <=? zero)%js);
    [intros [= <-]; auto|].
  destruct (negb (isFinite (unixSeconds (boughtAt p))) || _);
    [intros [= <-]; auto|].
  destruct (filter _ candles) as [|first rest]; [intros [= <-]; auto|].
  destruct (toISOString _) as [iso|e]; [|discriminate].
  intros [= <-]. right. unfold isPopulated. eauto.
Qed.

(** The handler on a well-formed [GET] request. *)
Lemma handler_accepted (req : Request) (w : World) :
  method req = "GET"%string ->
  nonempty (String_or_empty (query_mintAddress req)) = true ->
  nonempty (String_or_empty (query_boughtAt req)) = true ->
  isFinite (Number_of_query (query_buyPrice req)) = true ->
  fst (handler req w) =
    match fst (tryBlock (String_or_empty (query_mintAddress req))
                        (String_or_empty (query_boughtAt req))
                        (Number_of_query (query_buyPrice req)) w) with
    | Ok result => respond 200 (ResultBody result None)
    | Throw error => respond 200 (ResultBody nullBestSell (Some error))
    end.
Proof.
  intros Hm Ha Hb Hp. unfold handler. rewrite Hm. simpl String.eqb.
  cbn [negb]. rewrite Ha, Hb, Hp. cbn [negb orb].
  unfold tryBlock.
  match goal with |- fst (match ?t with _ => _ end) = _ =>
    destruct t as [[result|e] w'] end; reflexivity.
Qed.


(* ================================================================== *)
(** ** The early exit of the pagination *)
(* ================================================================== *)

Lemma min2_spec (a x : number) :
  isNaN a = false -> isNaN x = false ->
  (min2 a x = a \/ min2 a x = x) /\
  (min2 a x <=? a)%js = true /\ (min2 a x <=? x)%js = true.
Proof.
  intros Na Nx. unfold min2.
  destruct a as [| | |qa], x as [| | |qx]; try discriminate; simpl;
    try (repeat split; auto; apply Qle_bool_iff; lra).
  destruct (negb (Qle_bool qa qx)) eqn:E; simpl.
  - apply negb_true_iff in E. split; [auto|].
    assert (qx < qa)%Q.
    { apply Qnot_le_lt. intros L. apply Qle_bool_iff in L. congruence. }
    split; apply Qle_bool_iff; lra.
  - apply negb_false_iff in E. apply Qle_bool_iff in E.
    split; [auto|]. split; apply Qle_bool_iff; lra.
Qed.

Lemma fold_min2_spec (l : list number) :
  forall a : number,
  isNaN a = false -> Forall (fun x => isFinite x = true) l ->
  (fold_left min2 l a = a \/ In (fold_left min2 l a) l) /\
  (fold_left min2 l a <=? a)%js = true /\
  Forall (fun x => (fold_left min2 l a <=? x)%js = true) l.
Proof.
  induction l as [|x l IH]; intros a Na Fl; simpl.
  - split; [auto|]. split; [apply leb_refl_notNaN; exact Na|constructor].
  - inversion Fl as [|? ? Fx Fl']; subst.
    assert (Nx : isNaN x = false) by (destruct x; try discriminate; reflexivity).
    destruct (min2_spec a x Na Nx) as (M1 & M2 & M3).
    assert (Nm : isNaN (min2 a x) = false) by (destruct M1 as [-> | ->]; assumption).
    destruct (IH (min2 a x) Nm Fl') as (I1 & I2 & I3).
    split; [|split].
    + destruct I1 as [I1|I1]; [|auto].
      rewrite I1. destruct M1 as [-> | ->]; auto.
    + eapply leb_trans; eassumption.
    + constructor; [eapply leb_trans; eassumption | exact I3].
Qed.

(** On a non-empty list of finite numbers [Math.min] is a member of the
    list below every other. *)
Lemma Math_min_spec (l : list number) :
  l <> [] -> Forall (fun x => isFinite x = true) l ->
  In (Math_min l) l /\ isFinite (Math_min l) = true /\
  Forall (fun x => (Math_min l <=? x)%js = true) l.
Proof.
  intros Hne Fl. unfold Math_min.
  destruct (fold_min2_spec l PInf eq_refl Fl) as (I1 & _ & I3).
  assert (In (fold_left min2 l PInf) l).
  { destruct I1 as [I1|I1]; [|exact I1]. exfalso. rewrite I1 in I3.
    destruct l as [|x l]; [congruence|]. inversion I3 as [|? ? H _]; subst.
    inversion Fl as [|? ? Fx _]; subst. destruct x; discriminate. }
  split; [assumption|]. split; [|exact I3].
  rewrite Forall_forall in Fl. apply Fl. assumption.
Qed.

Lemma nth_hd {A} (l : list A) (d : A) : nth 0 l d = hd d l.
Proof. destruct l; reflexivity. Qed.

Lemma nth_tl {A} (l : list A) (d : A) (k : nat) : nth (S k) l d = nth k (tl l) d.
Proof. destruct l; [destruct k|]; reflexivity. Qed.

Lemma fetch_serves (u : Url) (w : World) (pages : list (list RawRow)) :
  serves w pages ->
  fst (fetch u w) = Ok (200%Z, Some (JOhlcv (hd [] pages))) /\
  serves (snd (fetch u w)) (tl pages).
Proof.
  intros S. pose proof (S 0%nat) as S0. rewrite Nat.add_0_r in S0.
  unfold fetch. rewrite S0. unfold pageOutcome. rewrite nth_hd. simpl.
  split; [reflexivity|]. intros k. simpl.
  rewrite <- Nat.add_succ_r, S. unfold pageOutcome. rewrite nth_tl. reflexivity.
Qed.

Lemma attempt_body_ok (u : Url) (attempts attempt : nat)
    (lastError : option Error) (w w1 : World) (st : Z) (j : json) :
  fetch u w = (Ok (st, Some j), w1) -> ok st = true ->
  attempt_body u attempts attempt lastError w = (Ok (inl j), w1).
Proof.
  intros F Hok. unfold attempt_body, try_catch, bind. rewrite F, Hok.
  reflexivity.
Qed.

Lemma fetchJsonWithRetry_serves (u : Url) (w : World)
    (pages : list (list RawRow)) :
  serves w pages ->
  fst (fetchJsonWithRetry u 3 w) = Ok (JOhlcv (hd [] pages)) /\
  serves (snd (fetchJsonWithRetry u 3 w)) (tl pages).
Proof.
  intros S. destruct (fetch_serves u w pages S) as (F1 & F2).
  destruct (fetch u w) as [r w1] eqn:F. simpl in F1, F2. subst r.
  assert (E : fetchJsonWithRetry u 3 w = (Ok (JOhlcv (hd [] pages)), w1)).
  { unfold fetchJsonWithRetry. cbn [retry_loop]. unfold bind at 1.
    rewrite (attempt_body_ok u 3 1 None w w1 200 _ F eq_refl). reflexivity. }
  rewrite E. split; [reflexivity | exact F2].
Qed.

Lemma page_loop_serves (poolAddress : string) (stop : number) (remaining : nat) :
  forall (beforeTimestamp : option number) (candles : list Candle)
         (w : World) (pages : list (list RawRow)),
  serves w pages ->
  fst (page_loop poolAddress stop remaining beforeTimestamp candles w)
    = Ok (pure_loop stop remaining pages candles).
Proof.
  induction remaining as [|remaining IH];
    intros beforeTimestamp candles w pages S; [reflexivity|].
  cbn [page_loop pure_loop]. unfold bind at 1.
  destruct (fetchJsonWithRetry_serves (OhlcvUrl poolAddress beforeTimestamp)
              w pages S) as (F1 & F2).
  destruct (fetchJsonWithRetry _ 3 w) as [r w1]. simpl in F1, F2. subst r.
  cbn [ohlcv_list].
  destruct (List.length (hd [] pages) =? 0)%nat; [reflexivity|].
  destruct (List.length (page_candles (hd [] pages)) =? 0)%nat; [reflexivity|].
  destruct (isFinite stop && _); [reflexivity|].
  destruct (List.length (hd [] pages) <? 1000)%nat; [reflexivity|].
  apply IH. exact F2.
Qed.

Lemma Plain_page_loop_serves (poolAddress : string) (remaining : nat) :
  forall (beforeTimestamp : option number) (candles : list Candle)
         (w : World) (pages : list (list RawRow)),
  serves w pages ->
  fst (Plain.page_loop poolAddress remaining beforeTimestamp candles w)
    = Ok (pure_loop NaN remaining pages candles).
Proof.
  induction remaining as [|remaining IH];
    intros beforeTimestamp candles w pages S; [reflexivity|].
  cbn [Plain.page_loop pure_loop]. unfold bind at 1.
  destruct (fetch_serves (OhlcvUrl poolAddress beforeTimestamp) w pages S)
    as (F1 & F2).
  destruct (fetch _ w) as [r w1]. simpl in F1, F2. subst r.
  cbn [ok Z.leb Z.compare andb negb response_json]. unfold bind at 1, ret at 1.
  cbn [ohlcv_list isFinite andb].
  destruct (List.length (hd [] pages) =? 0)%nat; [reflexivity|].
  destruct (List.length (page_candles (hd [] pages)) =? 0)%nat; [reflexivity|].
  destruct (List.length (hd [] pages) <? 1000)%nat; [reflexivity|].
  apply IH. exact F2.
Qed.

Lemma honorsCursor_tl (pages : list (list RawRow)) :
  honorsCursor pages = true -> honorsCursor (tl pages) = true.
Proof.
  destruct pages as [|page later]; [auto|]. simpl. intros H.
  apply andb_true_iff in H. tauto.
Qed.

(** The oldest timestamp of a page with valid candles. *)
Lemma oldest_spec (pageCandles : list Candle) :
  (List.length pageCandles =? 0)%nat = false ->
  Forall (fun c => valid_candle c = true) pageCandles ->
  isFinite (Math_min (map timestamp pageCandles)) = true /\
  exists c, In c pageCandles /\
            timestamp c = Math_min (map timestamp pageCandles).
Proof.
  intros Hne V.
  assert (Fl : Forall (fun x => isFinite x = true) (map timestamp pageCandles)).
  { apply Forall_forall. intros x Hx. apply in_map_iff in Hx.
    destruct Hx as (c & <- & Hc). rewrite Forall_forall in V.
    apply valid_finite_timestamp. apply V. exact Hc. }
  destruct (Math_min_spec (map timestamp pageCandles)) as (I & F & _).
  - destruct pageCandles; [discriminate|]. discriminate.
  - exact Fl.
  - split; [exact F|]. apply in_map_iff in I. destruct I as (c & E & Hc).
    exists c. auto.
Qed.

Lemma honorsCursor_next (pages : list (list RawRow)) :
  honorsCursor pages = true ->
  (List.length (page_candles (hd [] pages)) =? 0)%nat = false ->
  Forall (fun c =>
            (timestamp c <=?
             Math_min (map timestamp (page_candles (hd [] pages))) - Fin 60)%js
            = true)
         (page_candles (hd [] (tl pages))).
Proof.
  destruct pages as [|page later]; [discriminate|]. simpl. intros H Hne.
  apply andb_true_iff in H. destruct H as [H _].
  destruct (page_candles page) as [|c pc]; [discriminate|].
  apply Forall_forall. exact (proj1 (forallb_forall _ _) H).
Qed.

Lemma leb_sub_60 (a b c : number) :
  isFinite b = true -> (a <=? b - Fin 60)%js = true -> (b <=? c)%js = true ->
  (a <=? c)%js = true.
Proof. num_solve. Qed.

Lemma ltb_sub_60 (a b c : number) :
  isFinite b = true -> (a <=? b - Fin 60)%js = true -> (b <=? c)%js = true ->
  (a <? c)%js = true.
Proof. num_solve. Qed.

(** Under an honoured cursor everything fetched from a page on stays at
    or below any bound on that page. *)
Lemma pure_loop_bounded (remaining : nat) :
  forall (pages : list (list RawRow)) (candles : list Candle) (bound : number),
  honorsCursor pages = true ->
  Forall (fun c => (timestamp c <=? bound)%js = true)
         (page_candles (hd [] pages)) ->
  exists later,
    pure_loop NaN remaining pages candles = candles ++ later /\
    Forall (fun c => (timestamp c <=? bound)%js = true) later.
Proof.
  induction remaining as [|remaining IH]; intros pages candles bound H B.
  - exists []. rewrite app_nil_r. split; [reflexivity|constructor].
  - cbn [pure_loop isFinite andb].
    destruct (List.length (hd [] pages) =? 0)%nat;
      [exists []; rewrite app_nil_r; split; [reflexivity|constructor]|].
    destruct (List.length (page_candles (hd [] pages)) =? 0)%nat eqn:Hne;
      [exists (page_candles (hd [] pages)); split; [reflexivity|exact B]|].
    destruct (List.length (hd [] pages) <? 1000)%nat;
      [exists (page_candles (hd [] pages)); split; [reflexivity|exact B]|].
    destruct (oldest_spec _ Hne (page_candles_valid _)) as (Fo & c & Hc & Ec).
    destruct (IH (tl pages) (candles ++ page_candles (hd [] pages)) bound)
      as (later & E & L).
    + apply honorsCursor_tl. exact H.
    + eapply Forall_impl; [|apply honorsCursor_next; assumption].
      intros d Hd. simpl in Hd. eapply leb_sub_60; [exact Fo | exact Hd |].
      rewrite <- Ec. rewrite Forall_forall in B. apply B. exact Hc.
    + exists (page_candles (hd [] pages) ++ later). split.
      * rewrite E, app_assoc. reflexivity.
      * apply Forall_app. split; assumption.
Qed.

(** Without the early exit the loop fetches what it fetches with it, and
    then only candles strictly older than the floor. *)
Lemma pure_loop_early_exit (stop : number) (remaining : nat) :
  forall (pages : list (list RawRow)) (candles : list Candle),
  honorsCursor pages = true ->
  exists later,
    pure_loop NaN remaining pages candles
      = pure_loop stop remaining pages candles ++ later /\
    Forall (fun c => (timestamp c <? stop)%js = true) later.
Proof.
  induction remaining as [|remaining IH]; intros pages candles H.
  - exists []. rewrite app_nil_r. split; [reflexivity|constructor].
  - cbn [pure_loop isFinite andb].
    destruct (List.length (hd [] pages) =? 0)%nat;
      [exists []; rewrite app_nil_r; split; [reflexivity|constructor]|].
    destruct (List.length (page_candles (hd [] pages)) =? 0)%nat eqn:Hne;
      [exists []; rewrite app_nil_r; split; [reflexivity|constructor]|].
    destruct (oldest_spec _ Hne (page_candles_valid _)) as (Fo & c & Hc & Ec).
    destruct (isFinite stop &&
              (Math_min (map timestamp (page_candles (hd [] pages))) <=? stop)%js)
      eqn:Exit.
    + apply andb_true_iff in Exit. destruct Exit as [_ Exit].
      destruct (List.length (hd [] pages) <? 1000)%nat;
        [exists []; rewrite app_nil_r; split; [reflexivity|constructor]|].
      destruct (pure_loop_bounded remaining (tl pages)
                  (candles ++ page_candles (hd [] pages))
                  (Math_min (map timestamp (page_candles (hd [] pages)))
                   - Fin 60)%js) as (later & E & L).
      * apply honorsCursor_tl. exact H.
      * apply honorsCursor_next; assumption.
      * exists later. split; [exact E|].
        eapply Forall_impl; [|exact L]. intros d Hd. simpl in Hd.
        eapply ltb_sub_60; [exact Fo | exact Hd | exact Exit].
    + destruct (List.length (hd [] pages) <? 1000)%nat;
        [exists []; rewrite app_nil_r; split; [reflexivity|constructor]|].
      apply IH. apply honorsCursor_tl. exact H.
Qed.

(** *** The filter on the purchase instant commutes with [dedupSorted] *)

Lemma atOrAfter_sameValueZero (seconds a b : number) :
  sameValueZero a b = true -> atOrAfter seconds a = atOrAfter seconds b.
Proof. intros H. unfold atOrAfter, JS.geb. apply leb_sameValueZero_r. exact H. Qed.

Lemma filterKeys_Map_set {V} (seconds k : number) (v : V)
    (m : list (number * V)) :
  filterKeys seconds (Map_set k v m) =
    if atOrAfter seconds k then Map_set k v (filterKeys seconds m)
    else filterKeys seconds m.
Proof.
  induction m as [|[k1 v1] m IH]; simpl.
  - destruct (atOrAfter seconds k); reflexivity.
  - destruct (sameValueZero k1 k) eqn:E; simpl.
    + rewrite (atOrAfter_sameValueZero seconds k1 k E).
      destruct (atOrAfter seconds k); simpl; [rewrite E|]; reflexivity.
    + rewrite IH.
      destruct (atOrAfter seconds k1), (atOrAfter seconds k); simpl;
        rewrite ?E; reflexivity.
Qed.

Lemma filterKeys_fold (seconds : number) (l : list Candle) :
  forall m : list (number * Candle),
  filterKeys seconds
    (fold_left (fun m c => Map_set (timestamp c) c m) l m) =
  fold_left (fun m c => Map_set (timestamp c) c m)
    (afterBuy seconds l) (filterKeys seconds m).
Proof.
  induction l as [|c l IH]; intros m; [reflexivity|].
  simpl. rewrite IH, filterKeys_Map_set. fold (atOrAfter seconds (timestamp c)).
  destruct (atOrAfter seconds (timestamp c)); reflexivity.
Qed.

Lemma afterBuy_values (seconds : number) (m : list (number * Candle)) :
  (forall k v, In (k, v) m -> sameValueZero k (timestamp v) = true) ->
  afterBuy seconds (Map_values m) = Map_values (filterKeys seconds m).
Proof.
  induction m as [|[k v] m IH]; intros B; [reflexivity|].
  simpl. fold (atOrAfter seconds (timestamp v)).
  rewrite <- (atOrAfter_sameValueZero seconds k (timestamp v))
    by (apply B; left; reflexivity).
  fold (afterBuy seconds (Map_values m)).
  rewrite IH by (intros; apply B; right; assumption).
  destruct (atOrAfter seconds k); reflexivity.
Qed.

Lemma afterBuy_sort_insert (seconds : number) (x : Candle) (s : list Candle) :
  finite_timestamp x -> Forall finite_timestamp s ->
  afterBuy seconds (sort_insert byTimestamp x s) =
    if atOrAfter seconds (timestamp x)
    then sort_insert byTimestamp x (afterBuy seconds s)
    else afterBuy seconds s.
Proof.
  intros Fx Fs. induction Fs as [|y s Fy Fs IH]; simpl.
  - fold (atOrAfter seconds (timestamp x)).
    destruct (atOrAfter seconds (timestamp x)); reflexivity.
  - rewrite byTimestamp_neg by assumption.
    fold (atOrAfter seconds (timestamp y)).
    fold (afterBuy seconds s).
    destruct (timestamp y <? timestamp x)%js eqn:E; simpl.
    + fold (atOrAfter seconds (timestamp y)).
      fold (afterBuy seconds (sort_insert byTimestamp x s)). rewrite IH.
      destruct (atOrAfter seconds (timestamp y)),
               (atOrAfter seconds (timestamp x)); simpl;
        rewrite ?byTimestamp_neg, ?E by assumption; reflexivity.
    + fold (atOrAfter seconds (timestamp x)) (atOrAfter seconds (timestamp y)).
      fold (afterBuy seconds s).
      destruct (atOrAfter seconds (timestamp x)) eqn:Px; [|reflexivity].
      assert (Py : atOrAfter seconds (timestamp y) = true).
      { unfold atOrAfter, JS.geb in *. unfold finite_timestamp in Fx, Fy.
        eapply leb_trans; [exact Px|].
        apply ltb_false_leb; try assumption;
          [destruct (timestamp y) | destruct (timestamp x)];
          try discriminate; reflexivity. }
      rewrite Py. simpl. rewrite byTimestamp_neg, E by assumption. reflexivity.
Qed.

Lemma afterBuy_Array_sort (seconds : number) (l : list Candle) :
  Forall finite_timestamp l ->
  afterBuy seconds (Array_sort byTimestamp l) =
  Array_sort byTimestamp (afterBuy seconds l).
Proof.
  induction 1 as [|x l Fx Fl IH]; [reflexivity|]. simpl.
  rewrite afterBuy_sort_insert.
  - fold (atOrAfter seconds (timestamp x)). fold (afterBuy seconds l).
    rewrite IH. destruct (atOrAfter seconds (timestamp x)); reflexivity.
  - exact Fx.
  - apply Forall_forall. intros y Hy. apply Array_sort_In in Hy.
    rewrite Forall_forall in Fl. apply Fl. exact Hy.
Qed.

Lemma afterBuy_dedupSorted (seconds : number) (l : list Candle) :
  Forall finite_timestamp l ->
  afterBuy seconds (dedupSorted l) = dedupSorted (afterBuy seconds l).
Proof.
  intros Fl. destruct (uniqueByTimestamp_spec l) as (_ & B & _).
  unfold dedupSorted. rewrite afterBuy_Array_sort.
  - rewrite afterBuy_values by (intros k v H; apply (B _ _ H)).
    unfold uniqueByTimestamp. rewrite filterKeys_fold. reflexivity.
  - apply Forall_forall. intros c Hc. unfold Map_values in Hc.
    apply in_map_iff in Hc. destruct Hc as ([k v] & <- & Hin). simpl.
    destruct (B _ _ Hin) as (_ & l1 & l2 & -> & _).
    rewrite Forall_forall in Fl. apply Fl. apply in_elt.
Qed.

Lemma afterBuy_app_older (seconds : number) (l later : list Candle) :
  Forall (fun c => (timestamp c <? seconds)%js = true) later ->
  afterBuy seconds (l ++ later) = afterBuy seconds l.
Proof.
  intros H. unfold afterBuy. rewrite filter_app.
  replace (filter _ later) with (@nil Candle); [apply app_nil_r|].
  symmetry. induction H as [|c later Hc _ IH]; [reflexivity|]. simpl.
  unfold JS.geb. rewrite (ltb_not_leb _ _ Hc). exact IH.
Qed.

Lemma pure_loop_valid (stop : number) (remaining : nat) :
  forall pages candles,
  Forall (fun c => valid_candle c = true) candles ->
  Forall (fun c => valid_candle c = true)
         (pure_loop stop remaining pages candles).
Proof.
  induction remaining as [|remaining IH]; intros pages candles V; [exact V|].
  cbn [pure_loop].
  assert (V' : Forall (fun c => valid_candle c = true)
                 (candles ++ page_candles (hd [] pages))).
  { apply Forall_app. split; [exact V|apply page_candles_valid]. }
  destruct (List.length (hd [] pages) =? 0)%nat; [exact V|].
  destruct (List.length (page_candles (hd [] pages)) =? 0)%nat; [exact V'|].
  destruct (isFinite stop && _); [exact V'|].
  destruct (List.length (hd [] pages) <? 1000)%nat; [exact V'|].
  apply IH. exact V'.
Qed.

(** The filtered result does not depend on the early exit. *)
Lemma afterBuy_early_exit (stop : number) (pages : list (list RawRow)) :
  honorsCursor pages = true ->
  afterBuy stop (dedupSorted (pure_loop stop maxPages pages [])) =
  afterBuy stop (dedupSorted (pure_loop NaN maxPages pages [])).
Proof.
  intros H.
  destruct (pure_loop_early_exit stop maxPages pages [] H) as (later & E & L).
  assert (V : Forall finite_timestamp (pure_loop NaN maxPages pages [])).
  { eapply Forall_impl; [apply valid_finite_timestamp|].
    apply pure_loop_valid. constructor. }
  rewrite (afterBuy_dedupSorted stop (pure_loop NaN maxPages pages [])) by exact V.
  rewrite E, afterBuy_app_older by exact L.
  rewrite afterBuy_dedupSorted; [reflexivity|].
  eapply Forall_impl; [apply valid_finite_timestamp|].
  apply pure_loop_valid. constructor.
Qed.

(** C8.  When the upstream serves a page sequence that honours the
    cursor, the best-exit result computed from the candles fetched with
    [stopBeforeTimestamp] set to the purchase instant is the one computed
    from the candles fetched without the early exit, by the plain variant
    as well as by the same function with no floor. *)
Theorem early_exit_is_an_optimization (poolAddress : string) (p : Purchase)
    (pages : list (list RawRow)) (w : World) :
  serves w pages ->
  honorsCursor pages = true ->
  exists withExit plain noFloor : list Candle,
    fst (fetchAllMinuteCandles poolAddress (unixSeconds (boughtAt p)) w)
      = Ok withExit /\
    fst (Plain.fetchAllMinuteCandles poolAddress w) = Ok plain /\
    fst (fetchAllMinuteCandles poolAddress NaN w) = Ok noFloor /\
    computeBestSell p withExit = computeBestSell p plain /\
    computeBestSell p withExit = computeBestSell p noFloor.
Proof.
  intros S H.
  exists (dedupSorted (pure_loop (unixSeconds (boughtAt p)) maxPages pages [])),
         (dedupSorted (pure_loop NaN maxPages pages [])),
         (dedupSorted (pure_loop NaN maxPages pages [])).
  assert (R : forall stop,
            fst (fetchAllMinuteCandles poolAddress stop w)
              = Ok (dedupSorted (pure_loop stop maxPages pages []))).
  { intros stop. unfold fetchAllMinuteCandles, collectCandles, bind, ret.
    pose proof (page_loop_serves poolAddress stop maxPages None [] w pages S) as E.
    destruct (page_loop poolAddress stop maxPages None [] w) as [r w1].
    cbn [fst] in E. subst r. reflexivity. }
  assert (P : fst (Plain.fetchAllMinuteCandles poolAddress w)
                = Ok (dedupSorted (pure_loop NaN maxPages pages []))).
  { unfold Plain.fetchAllMinuteCandles, bind, ret.
    pose proof (Plain_page_loop_serves poolAddress maxPages None [] w pages S) as E.
    destruct (Plain.page_loop poolAddress maxPages None [] w) as [r w1].
    cbn [fst] in E. subst r. reflexivity. }
  assert (C : computeBestSell p
                (dedupSorted (pure_loop (unixSeconds (boughtAt p)) maxPages pages []))
              = computeBestSell p (dedupSorted (pure_loop NaN maxPages pages []))).
  { apply computeBestSell_afterBuy. apply afterBuy_early_exit. exact H. }
  split; [apply R|]. split; [exact P|]. split; [apply R|].
  split; exact C.
Qed.

(* ================================================================== *)
(** ** Further properties: requests and retries *)
(* ================================================================== *)

Ltac run_retry :=
  unfold fetchJsonWithRetry; cbn [retry_loop];
  unfold bind, attempt_body, try_catch, bind, on_catch, bind, fetch, sleep,
    response_json, ret, throw, record;
  cbn -[Z.mul ok retryable].

(** X1.  When all three attempts fail, [fetchJsonWithRetry] throws the
    error of the third attempt, after three requests and pauses of 250
    and 500 ms. *)
Theorem fetchJsonWithRetry_exhausted (url : Url) (w : World)
    (e1 e2 e3 : Error) :
  attempt_error url (upstream w (served w)) = Some e1 ->
  attempt_error url (upstream w (S (served w))) = Some e2 ->
  attempt_error url (upstream w (S (S (served w)))) = Some e3 ->
  fst (fetchJsonWithRetry url 3 w) = Throw e3 /\
  served (snd (fetchJsonWithRetry url 3 w)) = (served w + 3)%nat /\
  log (snd (fetchJsonWithRetry url 3 w)) =
    EvFetch url :: EvSleep 500 :: EvFetch url
      :: EvSleep 250 :: EvFetch url :: log w.
Proof.
  unfold attempt_error. intros E1 E2 E3. run_retry.
  destruct (upstream w (served w)) as [|st1 [j1|]];
    try destruct (ok st1); try discriminate;
    try destruct (retryable st1); cbn -[Z.mul ok retryable];
    destruct (upstream w (S (served w))) as [|st2 [j2|]];
    try destruct (ok st2); try discriminate;
    try destruct (retryable st2); cbn -[Z.mul ok retryable];
    destruct (upstream w (S (S (served w)))) as [|st3 [j3|]];
    try destruct (ok st3); try discriminate;
    try destruct (retryable st3); cbn -[Z.mul ok retryable];
    injection E3 as <-; repeat split; lia.
Qed.

(** One attempt makes one request; it returns the body of a 2xx response
    with a JSON body, and otherwise goes on with the loop: nothing
    escapes the [catch] clause. *)
Lemma attempt_body_spec (url : Url) (attempts attempt : nat)
    (lastError : option Error) (w : World) :
  served (snd (attempt_body url attempts attempt lastError w)) = S (served w) /\
  upstream (snd (attempt_body url attempts attempt lastError w)) = upstream w /\
  match fst (attempt_body url attempts attempt lastError w) with
  | Ok (inl j) => attempt_value (upstream w (served w)) = Some j
  | Ok (inr _) => attempt_error url (upstream w (served w)) <> None
  | Throw _ => False
  end.
Proof.
  unfold attempt_body, try_catch, bind, fetch, on_catch, bind, sleep, ret,
    throw, response_json, record, attempt_value, attempt_error.
  destruct (attempt <? attempts)%nat;
    destruct (upstream w (served w)) as [|st [j|]];
    try destruct (ok st);
    try destruct (negb (retryable st) || (attempt =? attempts)%nat);
    cbn -[Z.mul]; repeat split; congruence.
Qed.

Lemma retry_loop_returns (url : Url) (attempts todo : nat) :
  forall (attempt : nat) (lastError : option Error) (w : World) (j : json),
  fst (retry_loop url attempts todo attempt lastError w) = Ok j ->
  exists k : nat,
    (k < todo)%nat /\
    attempt_value (upstream w (served w + k)%nat) = Some j /\
    (forall i, (i < k)%nat ->
       attempt_error url (upstream w (served w + i)%nat) <> None) /\
    served (snd (retry_loop url attempts todo attempt lastError w))
      = (served w + S k)%nat.
Proof.
  induction todo as [|todo IH]; intros attempt lastError w j; [discriminate|].
  cbn [retry_loop]. unfold bind.
  destruct (attempt_body_spec url attempts attempt lastError w) as (S1 & U1 & R1).
  destruct (attempt_body url attempts attempt lastError w) as [[[j1|last1]|e] w1];
    cbn [fst snd] in *; [| |contradiction].
  - intros [= <-]. exists 0%nat. rewrite Nat.add_0_r.
    split; [lia|]. split; [exact R1|]. split; [intros i Hi; lia | cbn; lia].
  - intros H. destruct (IH _ _ _ _ H) as (k & Hk & V & F & Sv).
    exists (S k). rewrite S1, U1 in *. split; [lia|].
    split; [rewrite Nat.add_succ_r; exact V|]. split.
    + intros [|i] Hi.
      * rewrite Nat.add_0_r. exact R1.
      * rewrite Nat.add_succ_r. apply F. lia.
    + rewrite Sv. lia.
Qed.

(** X2.  A body [fetchJsonWithRetry] returns is the body of the first
    attempt, among at most [attempts], that met a 2xx response with a
    JSON body; every earlier attempt failed, and no request is made
    after it. *)
Theorem fetchJsonWithRetry_returns_first_success (url : Url) (attempts : nat)
    (w : World) (j : json) :
  fst (fetchJsonWithRetry url attempts w) = Ok j ->
  exists k : nat,
    (k < attempts)%nat /\
    attempt_value (upstream w (served w + k)%nat) = Some j /\
    (forall i, (i < k)%nat ->
       attempt_error url (upstream w (served w + i)%nat) <> None) /\
    served (snd (fetchJsonWithRetry url attempts w)) = (served w + S k)%nat.
Proof. apply retry_loop_returns. Qed.

(** X3.  [fetchTopSolanaPoolAddress] returns a pool address exactly when
    the listing it fetched names a non-empty first address, which is the
    one it returns; a listing without one is the error
    [No pool found]. *)
Theorem fetchTopSolanaPoolAddress_result (tokenAddress : string) (w : World) :
  (forall p,
     fst (fetchTopSolanaPoolAddress tokenAddress w) = Ok p <->
     nonempty p = true /\
     exists j, fst (fetchJsonWithRetry (PoolsUrl tokenAddress) 3 w) = Ok j /\
               top_pool_address j = Some p) /\
  (forall j,
     fst (fetchJsonWithRetry (PoolsUrl tokenAddress) 3 w) = Ok j ->
     (forall p, top_pool_address j = Some p -> nonempty p = false) ->
     fst (fetchTopSolanaPoolAddress tokenAddress w)
       = Throw (NoPoolFound tokenAddress)) /\
  (forall e,
     fst (fetchJsonWithRetry (PoolsUrl tokenAddress) 3 w) = Throw e ->
     fst (fetchTopSolanaPoolAddress tokenAddress w) = Throw e).
Proof.
  unfold fetchTopSolanaPoolAddress, bind.
  destruct (fetchJsonWithRetry (PoolsUrl tokenAddress) 3 w) as [[j|e] w1];
    cbn [fst].
  - destruct (top_pool_address j) as [top|] eqn:T.
    + destruct (nonempty top) eqn:N; cbn.
      * split; [|split].
        -- intros p. split.
           ++ intros [= <-]. split; [exact N|]. exists j. auto.
           ++ intros (_ & j' & [= <-] & E). congruence.
        -- intros j' [= <-] H. rewrite (H _ T) in N. discriminate.
        -- intros e [=].
      * split; [|split].
        -- intros p. split; [discriminate|].
           intros (Np & j' & [= <-] & E). congruence.
        -- reflexivity.
        -- intros e [=].
    + cbn. split; [|split].
      * intros p. split; [discriminate|].
        intros (_ & j' & [= <-] & E). congruence.
      * reflexivity.
      * intros e [=].
  - split; [|split].
    + intros p. split; [discriminate|]. intros (_ & j' & [=] & _).
    + intros j [=].
    + intros e' [= <-]. reflexivity.
Qed.

(* ================================================================== *)
(** ** Further properties: the candle series *)
(* ================================================================== *)

Lemma fetchJsonWithRetry_throws (url : Url) (w : World) (e : Error) :
  fst (fetchJsonWithRetry url 3 w) = Throw e -> request_error url e.
Proof.
  unfold request_error. run_retry.
  destruct (upstream w (served w)) as [|st1 [j1|]];
    try destruct (ok st1) eqn:O1; try destruct (retryable st1);
    cbn -[Z.mul ok retryable]; try discriminate;
    destruct (upstream w (S (served w))) as [|st2 [j2|]];
    try destruct (ok st2) eqn:O2; try destruct (retryable st2);
    cbn -[Z.mul ok retryable]; try discriminate;
    destruct (upstream w (S (S (served w)))) as [|st3 [j3|]];
    try destruct (ok st3) eqn:O3; try destruct (retryable st3);
    cbn -[Z.mul ok retryable]; try discriminate;
    intros [= <-]; eauto.
Qed.

Lemma ohlcv_list_None (j : json) : ohlcv_list j = None -> j = JOhlcvUnmappable.
Proof. destruct j; try discriminate. reflexivity. Qed.

Lemma attempt_value_Some (o : Outcome) (j : json) :
  attempt_value o = Some j ->
  exists status, ok status = true /\ o = Response status (Some j).
Proof.
  destruct o as [|status [j'|]]; try discriminate. cbn.
  destruct (ok status) eqn:O; [|discriminate].
  intros [= <-]. exists status. auto.
Qed.

Lemma page_loop_throws (poolAddress : string) (stop : number) (remaining : nat) :
  forall (beforeTimestamp : option number) (candles : list Candle) (w : World)
         (e : Error),
  fst (page_loop poolAddress stop remaining beforeTimestamp candles w) = Throw e ->
  page_error poolAddress e /\ (e = TypeError -> unmappable_served w).
Proof.
  induction remaining as [|remaining IH]; intros beforeTimestamp candles w e;
    [discriminate|].
  cbn [page_loop]. unfold bind at 1.
  pose proof (fetchJsonWithRetry_throws (OhlcvUrl poolAddress beforeTimestamp) w)
    as T.
  pose proof (retry_loop_returns (OhlcvUrl poolAddress beforeTimestamp) 3 3 1
                None w) as R.
  destruct (fetchJsonWithRetry_extends (OhlcvUrl poolAddress beforeTimestamp) 3 w)
    as (s1 & (_ & Sv & Up) & _).
  fold (fetchJsonWithRetry (OhlcvUrl poolAddress beforeTimestamp) 3) in R.
  destruct (fetchJsonWithRetry _ 3 w) as [[ohlcvJson|e1] w1];
    cbn [fst snd] in *.
  - destruct (R ohlcvJson eq_refl) as (k & _ & V & _ & _).
    destruct (ohlcv_list ohlcvJson) as [ohlcvList|] eqn:L.
    + destruct (List.length ohlcvList =? 0)%nat; [discriminate|].
      destruct (List.length (page_candles ohlcvList) =? 0)%nat;
        [discriminate|].
      destruct (isFinite stop && _); [discriminate|].
      destruct (List.length ohlcvList <? 1000)%nat; [discriminate|].
      intros H. destruct (IH _ _ _ _ H) as (P & C). split; [exact P|].
      intros Te. destruct (C Te) as (n & status & Hn & O & U).
      exists n, status. rewrite Up in U. split; [lia|]. split; assumption.
    + intros [= <-]. split; [right; right; left; reflexivity|]. intros _.
      apply ohlcv_list_None in L. subst ohlcvJson.
      destruct (attempt_value_Some _ _ V) as (status & O & U).
      exists (served w + k)%nat, status. split; [lia|]. split; assumption.
  - intros [= <-]. destruct (T e1 eq_refl) as [H|[H|(st & O & H)]].
    + split; [left; exact H|]. intros Te. congruence.
    + split; [right; left; exact H|]. intros Te. congruence.
    + split; [|intros Te; congruence].
      right. right. right. exists st, beforeTimestamp. auto.
Qed.

(** X4.  The only errors [fetchAllMinuteCandles] ends with are those of
    a candle-page request (a rejected [fetch], a body that is not JSON,
    a non-2xx status of the candle URL of this pool) and the [TypeError]
    of [ohlcvList.map]; the latter only when the upstream answered a
    request with a body whose [ohlcv_list] cannot be mapped. *)
Theorem fetchAllMinuteCandles_errors (poolAddress : string)
    (stopBeforeTimestamp : number) (w : World) (e : Error) :
  fst (fetchAllMinuteCandles poolAddress stopBeforeTimestamp w) = Throw e ->
  page_error poolAddress e /\ (e = TypeError -> unmappable_served w).
Proof.
  unfold fetchAllMinuteCandles, collectCandles, bind.
  pose proof (page_loop_throws poolAddress stopBeforeTimestamp maxPages None [] w)
    as T.
  destruct (page_loop poolAddress stopBeforeTimestamp maxPages None [] w)
    as [[candles|e1] w1]; cbn [fst] in *; [discriminate|].
  intros [= <-]. apply T. reflexivity.
Qed.

(** X5.  Every candle [fetchAllMinuteCandles] returns passed the row
    filter: a finite timestamp and a finite [high > 0]. *)
Theorem fetchAllMinuteCandles_valid (poolAddress : string)
    (stopBeforeTimestamp : number) (w : World) (result : list Candle) :
  fst (fetchAllMinuteCandles poolAddress stopBeforeTimestamp w) = Ok result ->
  Forall (fun c => isFinite (timestamp c) = true /\
                   isFinite (high c) = true /\
                   (high c >? zero)%js = true) result.
Proof.
  clear Number_of_string Date_parse.
  unfold fetchAllMinuteCandles, collectCandles, bind, ret.
  pose proof (page_loop_valid poolAddress stopBeforeTimestamp maxPages None [] w)
    as V.
  destruct (page_loop poolAddress stopBeforeTimestamp maxPages None [] w)
    as [[candles|e1] w1]; cbn [fst] in *; [|discriminate].
  intros [= <-]. specialize (V candles (Forall_nil _) eq_refl).
  apply Forall_forall. intros c Hc. apply In_dedupSorted in Hc.
  destruct Hc as (k & Hk).
  destruct (uniqueByTimestamp_spec candles) as (_ & B & _).
  destruct (B _ _ Hk) as (_ & l1 & l2 & E & _).
  rewrite Forall_forall in V. assert (Vc : valid_candle c = true).
  { apply V. rewrite E. apply in_elt. }
  unfold valid_candle in Vc. apply andb_true_iff in Vc.
  destruct Vc as [Vc H3]. apply andb_true_iff in Vc. tauto.
Qed.

Lemma unmappable_served_later (w w1 : World) :
  upstream w1 = upstream w -> (served w <= served w1)%nat ->
  unmappable_served w1 -> unmappable_served w.
Proof.
  intros U S1 (n & status & Hn & O & E).
  exists n, status. rewrite U in E. split; [lia|]. split; assumption.
Qed.

Lemma Plain_page_loop_spec (poolAddress : string) (remaining : nat) :
  forall (beforeTimestamp : option number) (candles : list Candle) (w : World),
  Forall (fun c => valid_candle c = true) candles ->
  exists seg,
    log (snd (Plain.page_loop poolAddress remaining beforeTimestamp candles w))
      = seg ++ log w /\
    only_fetches seg /\
    (List.length seg <= remaining)%nat /\
    served (snd (Plain.page_loop poolAddress remaining beforeTimestamp candles w))
      = (served w + List.length seg)%nat /\
    match fst (Plain.page_loop poolAddress remaining beforeTimestamp candles w) with
    | Ok result => Forall (fun c => valid_candle c = true) result
    | Throw e => plain_page_error poolAddress e /\
                 (e = TypeError -> unmappable_served w)
    end.
Proof.
  induction remaining as [|remaining IH]; intros beforeTimestamp candles w V.
  - exists []. cbn. repeat split; auto; constructor.
  - cbn [Plain.page_loop]. unfold bind at 1 2 3 4 5.
    assert (One : forall (r : Exn (list Candle)),
              match r with
              | Ok result => Forall (fun c => valid_candle c = true) result
              | Throw e => plain_page_error poolAddress e /\
                           (e = TypeError -> unmappable_served w)
              end ->
              exists seg,
                EvFetch (OhlcvUrl poolAddress beforeTimestamp) :: log w
                  = seg ++ log w /\
                only_fetches seg /\
                (List.length seg <= S remaining)%nat /\
                S (served w) = (served w + List.length seg)%nat /\
                match r with
                | Ok result => Forall (fun c => valid_candle c = true) result
                | Throw e => plain_page_error poolAddress e /\
                             (e = TypeError -> unmappable_served w)
                end).
    { intros r Hr. exists [EvFetch (OhlcvUrl poolAddress beforeTimestamp)].
      cbn. split; [reflexivity|]. split; [repeat constructor|].
      split; [lia|]. split; [lia|exact Hr]. }
    unfold fetch.
    destruct (upstream w (served w)) as [|st [ohlcvJson|]] eqn:U;
      cbn [fst snd log served].
    + apply (One (Throw FetchRejected)).
      split; [left; reflexivity|discriminate].
    + destruct (ok st) eqn:O; cbn [negb];
        [|apply (One (Throw (FailedToLoadCandles poolAddress)));
          split; [right; right; right; reflexivity|discriminate]].
      unfold response_json, bind, ret. cbn [fst snd].
      destruct (ohlcv_list ohlcvJson) as [ohlcvList|] eqn:L0.
      2:{ apply (One (Throw TypeError)).
          split; [right; right; left; reflexivity|]. intros _.
          apply ohlcv_list_None in L0. subst ohlcvJson.
          exists (served w), st. split; [lia|]. split; assumption. }
      assert (V' : Forall (fun c => valid_candle c = true)
                     (candles ++ page_candles ohlcvList)).
      { apply Forall_app. split; [exact V|apply page_candles_valid]. }
      destruct (List.length ohlcvList =? 0)%nat;
        [apply (One (Ok candles)); exact V|].
      destruct (List.length (page_candles ohlcvList) =? 0)%nat;
        [apply (One (Ok _)); exact V'|].
      destruct (List.length ohlcvList <? 1000)%nat;
        [apply (One (Ok _)); exact V'|].
      match goal with
      | |- context [Plain.page_loop _ _ ?b ?c ?w1] =>
          destruct (IH b c w1 V') as (seg & L & F & N & Sv & R)
      end.
      exists (seg ++ [EvFetch (OhlcvUrl poolAddress beforeTimestamp)]).
      rewrite L, Sv, length_app. cbn [log served List.length].
      rewrite <- app_assoc. split; [reflexivity|]. split.
      { apply Forall_app. split; [exact F|repeat constructor]. }
      split; [lia|]. split; [lia|].
      match goal with
      | |- match fst ?t with _ => _ end => destruct (fst t) as [result|e]
      end; [exact R|].
      destruct R as (P & C). split; [exact P|]. intros Te.
      refine (unmappable_served_later w _ _ _ (C Te)); cbn; [reflexivity|lia].
    + destruct (ok st); cbn [negb].
      * apply (One (Throw BodyNotJson)).
        split; [right; left; reflexivity|discriminate].
      * apply (One (Throw (FailedToLoadCandles poolAddress))).
        split; [right; right; right; reflexivity|discriminate].
Qed.

(** X6.  The plain variant keeps the same order: the list
    [Plain.fetchAllMinuteCandles] returns is strictly ascending by
    timestamp without a repeated timestamp, holds valid candles only, and
    for a timestamp fetched more than once keeps the candle fetched
    last. *)
Theorem Plain_fetchAllMinuteCandles_ascending_unique (poolAddress : string)
    (w : World) (result : list Candle) :
  fst (Plain.fetchAllMinuteCandles poolAddress w) = Ok result ->
  exists candles : list Candle,
    fst (Plain.page_loop poolAddress maxPages None [] w) = Ok candles /\
    ascending result /\
    distinct_timestamps result /\
    Forall (fun c => valid_candle c = true) result /\
    (forall c, In c result -> last_with_timestamp candles c) /\
    (forall c, In c candles ->
       exists c', In c' result /\
                  sameValueZero (timestamp c') (timestamp c) = true).
Proof.
  unfold Plain.fetchAllMinuteCandles, bind, ret.
  destruct (Plain_page_loop_spec poolAddress maxPages None [] w (Forall_nil _))
    as (seg & _ & _ & _ & _ & V).
  destruct (Plain.page_loop poolAddress maxPages None [] w)
    as [[candles|e1] w1]; cbn [fst] in *; [|discriminate].
  intros [= <-]. exists candles. split; [reflexivity|].
  assert (Fc : Forall finite_timestamp candles).
  { eapply Forall_impl; [|exact V]. apply valid_finite_timestamp. }
  destruct (dedupSorted_spec candles Fc) as (A & D & L & C).
  split; [exact A|]. split; [exact D|]. split; [|split; assumption].
  apply Forall_forall. intros c Hc. destruct (L c Hc) as (l1 & l2 & E & _).
  rewrite Forall_forall in V. apply V. rewrite E. apply in_elt.
Qed.

(** X7.  The plain variant makes one request per page and never pauses:
    at most 100 requests in all; the only errors it ends with are a
    rejected [fetch], a body that is not JSON, [Failed to load candles]
    for this pool on a non-2xx status, and the [TypeError] of
    [ohlcvList.map]; the latter only when the upstream answered a request
    with a body whose [ohlcv_list] cannot be mapped. *)
Theorem Plain_fetchAllMinuteCandles_requests (poolAddress : string) (w : World) :
  exists seg : list Event,
    log (snd (Plain.fetchAllMinuteCandles poolAddress w)) = seg ++ log w /\
    only_fetches seg /\
    (List.length seg <= 100)%nat /\
    served (snd (Plain.fetchAllMinuteCandles poolAddress w))
      = (served w + List.length seg)%nat /\
    (forall e, fst (Plain.fetchAllMinuteCandles poolAddress w) = Throw e ->
               plain_page_error poolAddress e /\
               (e = TypeError -> unmappable_served w)).
Proof.
  unfold Plain.fetchAllMinuteCandles, bind, ret.
  destruct (Plain_page_loop_spec poolAddress maxPages None [] w (Forall_nil _))
    as (seg & L & F & N & Sv & R).
  exists seg.
  destruct (Plain.page_loop poolAddress maxPages None [] w)
    as [[candles|e1] w1]; cbn [fst snd] in *.
  - split; [exact L|]. split; [exact F|]. split; [exact N|].
    split; [exact Sv|]. intros e [=].
  - split; [exact L|]. split; [exact F|]. split; [exact N|].
    split; [exact Sv|]. intros e [= <-]. exact R.
Qed.

(* ================================================================== *)
(** ** Further properties: [computeBestSell] *)
(* ================================================================== *)

(** X8.  [computeBestSell] throws nothing but a range error, and only
    when a candle at or after the purchase instant has a timestamp that
    is not a valid date. *)
Theorem computeBestSell_throws (p : Purchase) (candles : list Candle)
    (e : Error) :
  computeBestSell p candles = Throw e ->
  e = RangeError /\
  exists c, In c candles /\
            (timestamp c >=? unixSeconds (boughtAt p))%js = true /\
            Date_of_number (timestamp c * Fin 1000)%js = None.
Proof.
  destruct (validBuyPrice (buyPrice p)) eqn:Hb;
    [|rewrite computeBestSell_invalid_buyPrice by exact Hb; discriminate].
  destruct (validInstant (unixSeconds (boughtAt p))) eqn:Hi;
    [|rewrite computeBestSell_invalid_instant by exact Hi; discriminate].
  rewrite computeBestSell_guards_passed by assumption.
  destruct (afterBuy (unixSeconds (boughtAt p)) candles) as [|first rest] eqn:EA;
    [discriminate|].
  pose proof (reduce_best_In first rest) as HB. rewrite <- EA in HB.
  apply afterBuy_In in HB. destruct HB as (HB1 & HB2).
  destruct (Date_of_number _) eqn:ED; [discriminate|].
  intros [= <-]. split; [reflexivity|].
  exists (reduce_best first rest). auto.
Qed.

(** X9.  The three fields of a result are present together or absent
    together. *)
Theorem computeBestSell_all_or_nothing (p : Purchase) (candles : list Candle)
    (r : BestSell) :
  computeBestSell p candles = Ok r ->
  (bestSellAt r = None /\ bestSellPrice r = None /\ bestPlPercent r = None) \/
  (exists iso price pl,
     bestSellAt r = Some iso /\ bestSellPrice r = Some price /\
     bestPlPercent r = Some pl).
Proof.
  intros H. destruct (computeBestSell_result p candles r H) as [->|(i & pr & pl & ->)].
  - left. auto.
  - right. exists i, pr, pl. auto.
Qed.

Lemma sgn_pos (q : Q) : (0 < q)%Q -> JS.sgn q = Gt.
Proof. intros H. unfold JS.sgn. apply Qgt_alt. exact H. Qed.

Lemma scale2_sign (n d e : Z) :
  (0 <= n)%Z -> (0 < d)%Z ->
  (0 <= fst (scale2 n d e))%Z /\ (0 < snd (scale2 n d e))%Z.
Proof.
  intros Hn Hd. unfold scale2. destruct (Z.leb_spec 0 e) as [He|He]; cbn [fst snd].
  - split; [exact Hn|]. apply Z.mul_pos_pos; [exact Hd|].
    apply Z.pow_pos_nonneg; lia.
  - split; [|exact Hd]. apply Z.mul_nonneg_nonneg; [exact Hn|].
    apply Z.pow_nonneg. lia.
Qed.

Lemma nearest_even_nonneg (n d : Z) :
  (0 <= n)%Z -> (0 < d)%Z -> (0 <= nearest_even n d)%Z.
Proof.
  intros Hn Hd. unfold nearest_even.
  pose proof (Z.div_pos n d Hn Hd) as F.
  destruct (2 * (n mod d) ?= d)%Z; [destruct (Z.even (n / d))| |]; lia.
Qed.

(** Rounding keeps the sign: a double nearest to a positive rational is
    not negative. *)
Lemma binary64_pos_nonneg (n d : positive) :
  (zero <=? binary64_pos n d)%js = true.
Proof.
  unfold binary64_pos.
  set (e := Z.max (floor_log2 n d - 52) (-1074)).
  destruct (scale2_sign (Z.pos n) (Z.pos d) e) as (Hn & Hd); [lia|lia|].
  destruct (scale2 (Z.pos n) (Z.pos d) e) as [n' d']. cbn [fst snd] in *.
  pose proof (nearest_even_nonneg n' d' Hn Hd) as M.
  destruct (Z.leb_spec 0 e) as [He|He].
  - destruct (2 ^ 1024 <=? nearest_even n' d' * 2 ^ e)%Z; [reflexivity|].
    unfold zero. apply leb_Fin. change 0%Q with (inject_Z 0).
    rewrite <- Zle_Qle. apply Z.mul_nonneg_nonneg; [exact M|].
    apply Z.pow_nonneg. lia.
  - unfold zero. apply leb_Fin. rewrite Qred_correct.
    unfold Qle. cbn [Qnum Qden]. lia.
Qed.

Lemma round_nonneg (x : number) :
  (zero <=? x)%js = true -> (zero <=? round x)%js = true.
Proof.
  destruct x as [| | |q]; try discriminate; [reflexivity|].
  intros H. unfold zero in H. apply leb_Fin in H.
  unfold round, binary64. destruct q as [[|n|n] d]; cbn [Qnum Qden].
  - reflexivity.
  - apply binary64_pos_nonneg.
  - exfalso. unfold Qle in H. cbn in H. lia.
Qed.

Lemma round_nonpos (x : number) :
  (x <=? zero)%js = true -> (round x <=? zero)%js = true.
Proof.
  destruct x as [| | |q]; try discriminate; [reflexivity|].
  intros H. unfold zero in H. apply leb_Fin in H.
  unfold round, binary64. destruct q as [[|n|n] d]; cbn [Qnum Qden].
  - reflexivity.
  - exfalso. unfold Qle in H. cbn in H. lia.
  - pose proof (binary64_pos_nonneg n d) as P.
    destruct (binary64_pos n d) as [| | |r]; try discriminate; [reflexivity|].
    unfold zero in *. apply leb_Fin in P. cbn [neg]. apply leb_Fin. lra.
Qed.

Lemma div_pos_sign (x : number) (b : Q) :
  (0 < b)%Q ->
  ((zero <=? x)%js = true -> (zero <=? x / Fin b)%js = true) /\
  ((x <=? zero)%js = true -> (x / Fin b <=? zero)%js = true).
Proof.
  intros Hb. assert (Nz : ~ (b == 0)%Q) by lra.
  destruct x as [| | |q]; cbn [JS.div]; rewrite ?(sgn_pos _ Hb);
    split; intros H; try discriminate H; try reflexivity;
    unfold zero in *; apply leb_Fin in H; apply leb_Fin;
    pose proof (Qmult_div_r q b Nz) as E; revert E;
    generalize (q / b)%Q; intros y E; nra.
Qed.

Lemma mul_100_sign (x : number) :
  ((zero <=? x)%js = true -> (zero <=? x * Fin 100)%js = true) /\
  ((x <=? zero)%js = true -> (x * Fin 100 <=? zero)%js = true).
Proof.
  destruct x as [| | |q]; split; intros H; try discriminate;
    try reflexivity; unfold zero in *; apply leb_Fin in H; cbn [JS.mul];
    apply leb_Fin; lra.
Qed.

(** The sign of the percentage [((h - b) / b) * 100] computed in
    doubles, for a positive [b]. *)
Lemma percent_sign (h b : Q) :
  (0 < b)%Q ->
  ((b <= h)%Q ->
   (zero <=? (((Fin h - Fin b) / Fin b) * Fin 100)%double)%js = true) /\
  ((h <= b)%Q ->
   ((((Fin h - Fin b) / Fin b) * Fin 100)%double <=? zero)%js = true).
Proof.
  intros Hb. split; intros H.
  - apply round_nonneg, mul_100_sign, round_nonneg.
    apply (div_pos_sign _ b Hb). apply round_nonneg.
    cbn [JS.sub]. unfold zero. apply leb_Fin. lra.
  - apply round_nonpos, mul_100_sign, round_nonpos.
    apply (div_pos_sign _ b Hb). apply round_nonpos.
    cbn [JS.sub]. unfold zero. apply leb_Fin. lra.
Qed.

(** X10.  With a finite best price [h] and buy price [b] the reported
    return is [((h - b) / b) * 100] computed in doubles: every operation
    rounded.  Its sign follows the prices: it is not negative when the
    best price is at least the buy price and not positive when it is at
    most the buy price, so a positive return means a best price above
    the buy price and a negative one a best price below it. *)
Theorem computeBestSell_return_sign (p : Purchase) (candles : list Candle)
    (r : BestSell) (h b : Q) :
  computeBestSell p candles = Ok r ->
  bestSellPrice r = Some (Fin h) -> buyPrice p = Fin b ->
  bestPlPercent r = Some (((Fin h - Fin b) / Fin b) * Fin 100)%double /\
  ((b <= h)%Q ->
   (zero <=? (((Fin h - Fin b) / Fin b) * Fin 100)%double)%js = true) /\
  ((h <= b)%Q ->
   ((((Fin h - Fin b) / Fin b) * Fin 100)%double <=? zero)%js = true) /\
  ((zero <? (((Fin h - Fin b) / Fin b) * Fin 100)%double)%js = true -> (b < h)%Q) /\
  (((((Fin h - Fin b) / Fin b) * Fin 100)%double <? zero)%js = true -> (h < b)%Q).
Proof.
  intros H Hp Hbuy.
  destruct (validBuyPrice (buyPrice p)) eqn:Hb.
  2:{ rewrite computeBestSell_invalid_buyPrice in H by exact Hb.
      injection H as <-. discriminate. }
  assert (Pos : (0 < b)%Q).
  { rewrite Hbuy in Hb. unfold validBuyPrice, JS.gtb, zero in Hb.
    cbn [isFinite andb] in Hb. num_reflect. exact Hb. }
  destruct (validInstant (unixSeconds (boughtAt p))) eqn:Hi.
  2:{ rewrite computeBestSell_invalid_instant in H by exact Hi.
      injection H as <-. discriminate. }
  rewrite computeBestSell_guards_passed in H by assumption.
  destruct (afterBuy (unixSeconds (boughtAt p)) candles) as [|first rest];
    [injection H as <-; discriminate|].
  destruct (Date_of_number _) as [ms|]; [|discriminate].
  injection H as <-. unfold populated in *. cbn [bestSellPrice bestPlPercent] in *.
  injection Hp as Hh. rewrite Hh, Hbuy.
  destruct (percent_sign h b Pos) as (Up & Down).
  split; [reflexivity|]. split; [exact Up|]. split; [exact Down|].
  split; intros S.
  - destruct (Qlt_le_dec b h) as [L|G]; [exact L|].
    apply Down in G. apply ltb_not_leb in S. congruence.
  - destruct (Qlt_le_dec h b) as [L|G]; [exact L|].
    apply Up in G. apply ltb_not_leb in S. congruence.
Qed.

Lemma afterBuy_idempotent (seconds : number) (candles : list Candle) :
  afterBuy seconds (afterBuy seconds candles) = afterBuy seconds candles.
Proof.
  unfold afterBuy. induction candles as [|c cs IH]; [reflexivity|]. simpl.
  destruct (timestamp c >=? seconds)%js eqn:E; [|exact IH].
  simpl. rewrite E, IH. reflexivity.
Qed.

(** X11.  Candles that are not at or after the purchase instant, older
    ones and those with a [NaN] timestamp alike, never weigh on the
    result, wherever they stand in the list: dropping them beforehand
    gives the same answer. *)
Theorem computeBestSell_ignores_earlier (p : Purchase) (candles : list Candle) :
  computeBestSell p candles =
  computeBestSell p
    (filter (fun c => (timestamp c >=? unixSeconds (boughtAt p))%js) candles).
Proof.
  apply computeBestSell_afterBuy. symmetry. apply afterBuy_idempotent.
Qed.

(* ================================================================== *)
(** ** Further properties: the handlers *)
(* ================================================================== *)

(** X12.  A request the handler rejects, with 405 or 400, costs no
    upstream request: the world is left as it was. *)
Theorem handler_rejects_without_fetch (req : Request) (w : World) :
  status (fst (handler req w)) <> 200%Z ->
  snd (handler req w) = w.
Proof.
  unfold handler.
  destruct (negb (String.eqb (method req) "GET")); [reflexivity|].
  destruct (negb (nonempty (String_or_empty (query_mintAddress req)))
            || negb (nonempty (String_or_empty (query_boughtAt req)))
            || negb (isFinite (Number_of_query (query_buyPrice req))));
    [reflexivity|].
  destruct (tryBlock _ _ _ w) as [[result|e] w']; cbn; congruence.
Qed.

Lemma fetchTopSolanaPoolAddress_extends (tokenAddress : string) (w : World) :
  exists seg,
    extends_by w (snd (fetchTopSolanaPoolAddress tokenAddress w)) seg /\
    (fetches seg <= 3)%nat.
Proof.
  unfold fetchTopSolanaPoolAddress, bind.
  destruct (fetchJsonWithRetry_extends (PoolsUrl tokenAddress) 3 w)
    as (seg & E & F).
  exists seg. split; [|exact F].
  destruct (fetchJsonWithRetry (PoolsUrl tokenAddress) 3 w) as [[j|e] w1];
    cbn [snd] in *; [|exact E].
  destruct (top_pool_address j) as [top|]; [destruct (nonempty top)|];
    exact E.
Qed.

Lemma fetchAllMinuteCandles_extends (poolAddress : string) (stop : number)
    (w : World) :
  exists seg,
    extends_by w (snd (fetchAllMinuteCandles poolAddress stop w)) seg /\
    (fetches seg <= 300)%nat.
Proof.
  destruct (page_loop_requests poolAddress stop maxPages None [] w)
    as (requests & L & Fa & E).
  assert (Hf : (fetches (concat requests) <= List.length requests * 3)%nat).
  { apply fetches_concat_le. eapply Forall_impl; [|exact Fa].
    intros seg (_ & _ & H). exact H. }
  unfold maxPages in L. exists (concat requests). split; [|lia].
  unfold fetchAllMinuteCandles, collectCandles, bind, ret.
  destruct (page_loop poolAddress stop maxPages None [] w) as [[cs|e] w1];
    exact E.
Qed.

(** X13.  One request to the handler costs at most 303 upstream
    requests: three for the pool listing, three for each of at most 100
    candle pages. *)
Theorem handler_fetch_budget (req : Request) (w : World) :
  (served (snd (handler req w)) <= served w + 303)%nat /\
  upstream (snd (handler req w)) = upstream w.
Proof.
  unfold handler.
  destruct (negb (String.eqb (method req) "GET")); [cbn; split; [lia|reflexivity]|].
  destruct (negb (nonempty (String_or_empty (query_mintAddress req)))
            || negb (nonempty (String_or_empty (query_boughtAt req)))
            || negb (isFinite (Number_of_query (query_buyPrice req))));
    [cbn; split; [lia|reflexivity]|].
  assert (T : forall m b p,
            (served (snd (tryBlock m b p w)) <= served w + 303)%nat /\
            upstream (snd (tryBlock m b p w)) = upstream w).
  { intros m b p. unfold tryBlock, bind.
    destruct (fetchTopSolanaPoolAddress_extends m w) as (s1 & (_ & S1 & U1) & F1).
    destruct (fetchTopSolanaPoolAddress m w) as [[pool|e] w1]; cbn [snd] in *;
      [|split; [lia|exact U1]].
    destruct (fetchAllMinuteCandles_extends pool (unixSeconds b) w1)
      as (s2 & (_ & S2 & U2) & F2).
    destruct (fetchAllMinuteCandles pool (unixSeconds b) w1) as [[cs|e] w2];
      cbn [snd] in *; (split; [lia|congruence]). }
  match goal with |- context [tryBlock ?m ?b ?p w] =>
    specialize (T m b p); destruct (tryBlock m b p w) as [[result|e] w']
  end; exact T.
Qed.

(** X14.  The plain handler answers 405 to a method other than [GET],
    400 to a request with an empty [mintAddress] or [boughtAt] or a
    [buyPrice] that is not finite, 200 with the result when its [try]
    block returns one, and 502 with the error when the block throws;
    rejected requests cost no upstream request. *)
Theorem plainHandler_responses (req : Request) (w : World) :
  let r := fst (plainHandler req w) in
  (method req <> "GET"%string ->
   plain_status r = 405%Z /\ snd (plainHandler req w) = w) /\
  (method req = "GET"%string -> ~ accepted req ->
   plain_status r = 400%Z /\ snd (plainHandler req w) = w) /\
  (accepted req ->
   (forall result,
      fst (plainTryBlock (String_or_empty (query_mintAddress req))
             (String_or_empty (query_boughtAt req))
             (Number_of_query (query_buyPrice req)) w) = Ok result <->
      r = {| plain_status := 200; plain_body := PlainResult result |}) /\
   (forall error,
      fst (plainTryBlock (String_or_empty (query_mintAddress req))
             (String_or_empty (query_boughtAt req))
             (Number_of_query (query_buyPrice req)) w) = Throw error <->
      r = {| plain_status := 502; plain_body := PlainFailure error |})).
Proof.
  cbv zeta. unfold accepted, plainHandler.
  destruct (String.eqb_spec (method req) "GET") as [Hm|Hm]; cbn [negb].
  - destruct (nonempty (String_or_empty (query_mintAddress req)));
      destruct (nonempty (String_or_empty (query_boughtAt req)));
      destruct (isFinite (Number_of_query (query_buyPrice req)));
      cbn [negb orb];
      try (split; [intros N; contradiction|];
           split; [intros _ _; cbn; auto|];
           intros (_ & A & B & C); discriminate).
    split; [intros N; contradiction|].
    split; [intros _ N; exfalso; apply N; auto|]. intros _.
    destruct (plainTryBlock _ _ _ w) as [[result|e] w']; cbn [fst];
      split; intros x; split; intros H; congruence.
  - split; [intros _; cbn; auto|].
    split; [intros E; contradiction|]. intros (E & _). contradiction.
Qed.

Lemma fetch_pool_healthy (u : Url) (w : World) (poolAddress : string)
    (pages : list (list RawRow)) :
  healthy w poolAddress pages ->
  fetch u w = (Ok (200%Z, Some (JPools (Some poolAddress))),
               {| upstream := upstream w; served := S (served w);
                  log := EvFetch u :: log w |}) /\
  serves {| upstream := upstream w; served := S (served w);
            log := EvFetch u :: log w |} pages.
Proof.
  intros (U & _ & P). unfold fetch. rewrite U. split; [reflexivity|].
  intros k. cbn. apply P.
Qed.

Lemma pool_resolved_healthy (mintAddress : string) (w : World)
    (poolAddress : string) (pages : list (list RawRow)) :
  healthy w poolAddress pages ->
  exists w1,
    serves w1 pages /\
    fetchTopSolanaPoolAddress mintAddress w = (Ok poolAddress, w1) /\
    Plain.fetchTopSolanaPoolAddress mintAddress w = (Ok poolAddress, w1).
Proof.
  intros H. destruct (fetch_pool_healthy (PoolsUrl mintAddress) w _ _ H)
    as (F & S).
  destruct H as (_ & N & _). eexists. split; [exact S|]. split.
  - unfold fetchTopSolanaPoolAddress, fetchJsonWithRetry. cbn [retry_loop].
    unfold bind at 1 2.
    rewrite (attempt_body_ok _ 3 1 None _ _ 200 _ F eq_refl).
    unfold ret. cbn [top_pool_address]. rewrite N. reflexivity.
  - unfold Plain.fetchTopSolanaPoolAddress, bind. rewrite F.
    cbn [ok Z.leb Z.compare andb negb response_json ret top_pool_address].
    rewrite N. reflexivity.
Qed.

(** X15.  On a healthy upstream that honours the cursor the two
    variants of the endpoint compute the same thing: their [try] blocks
    end alike, the serverless handler sends a result without warning
    exactly when the plain handler sends the same result, and a warning
    exactly when the plain handler sends that error with 502. *)
Theorem handlers_agree (req : Request) (w : World) (poolAddress : string)
    (pages : list (list RawRow)) :
  accepted req ->
  healthy w poolAddress pages ->
  honorsCursor pages = true ->
  fst (tryBlock (String_or_empty (query_mintAddress req))
         (String_or_empty (query_boughtAt req))
         (Number_of_query (query_buyPrice req)) w)
  = fst (plainTryBlock (String_or_empty (query_mintAddress req))
           (String_or_empty (query_boughtAt req))
           (Number_of_query (query_buyPrice req)) w) /\
  (forall result,
     body (fst (handler req w)) = ResultBody result None <->
     fst (plainHandler req w)
       = {| plain_status := 200; plain_body := PlainResult result |}) /\
  (forall error,
     body (fst (handler req w)) = ResultBody nullBestSell (Some error) <->
     fst (plainHandler req w)
       = {| plain_status := 502; plain_body := PlainFailure error |}).
Proof.
  intros (Hm & Ha & Hb & Hp) H Hc.
  set (m := String_or_empty (query_mintAddress req)) in *.
  set (b := String_or_empty (query_boughtAt req)) in *.
  set (price := Number_of_query (query_buyPrice req)) in *.
  assert (T : fst (tryBlock m b price w) = fst (plainTryBlock m b price w)).
  { destruct (pool_resolved_healthy m w poolAddress pages H)
      as (w1 & S & E1 & E2).
    unfold tryBlock, plainTryBlock, bind. rewrite E1, E2.
    unfold fetchAllMinuteCandles, collectCandles, Plain.fetchAllMinuteCandles,
      bind, ret.
    pose proof (page_loop_serves poolAddress (unixSeconds b) maxPages None []
                  w1 pages S) as P1.
    pose proof (Plain_page_loop_serves poolAddress maxPages None [] w1 pages S)
      as P2.
    destruct (page_loop poolAddress (unixSeconds b) maxPages None [] w1)
      as [r1 w2].
    destruct (Plain.page_loop poolAddress maxPages None [] w1) as [r2 w3].
    cbn [fst] in P1, P2. subst r1 r2. cbn [fst].
    apply (computeBestSell_afterBuy {| buyPrice := price; boughtAt := b |}).
    apply afterBuy_early_exit. exact Hc. }
  split; [exact T|].
  rewrite (handler_accepted req w Hm Ha Hb Hp). fold m b price.
  unfold plainHandler. rewrite Hm. cbn [String.eqb Ascii.eqb Bool.eqb negb].
  fold m b price. rewrite Ha, Hb, Hp. cbn [negb orb].
  rewrite T. destruct (plainTryBlock m b price w) as [[result|e] w']; cbn.
  - split; intros x; split; intros E; congruence.
  - split; intros x; split; intros E; congruence.
Qed.

(* ================================================================== *)
(** ** Further properties: the lifecycle engine *)
(* ================================================================== *)

Lemma same_position_refl (h : Holding) : same_position h h.
Proof. unfold same_position. auto 10. Qed.

Lemma same_position_trans (h1 h2 h3 : Holding) :
  same_position h1 h2 -> same_position h2 h3 -> same_position h1 h3.
Proof.
  unfold same_position.
  intros (A1 & A2 & A3 & A4 & A5) (B1 & B2 & B3 & B4 & B5).
  repeat split; try congruence.
  destruct A5 as [A5|(A5 & s & A6)], B5 as [B5|(B5 & t & B6)].
  - left. congruence.
  - right. split; [congruence|]. eauto.
  - right. split; [exact A5|]. exists s. congruence.
  - congruence.
Qed.

Lemma update_sell_price_frame (price : number) (mint : string)
    (t : list Holding) :
  List.length (update_sell_price price mint t) = List.length t /\
  forall i h, nth_error t i = Some h ->
    exists h', nth_error (update_sell_price price mint t) i = Some h' /\
               same_position h h'.
Proof.
  unfold update_sell_price. split; [apply length_map|].
  intros i h Hi. rewrite nth_error_map, Hi. cbn [option_map].
  eexists. split; [reflexivity|].
  destruct (String.eqb (mint_address h) mint && is_null (sell_price h)) eqn:E.
  - apply andb_true_iff in E. destruct E as [_ E].
    destruct (sell_price h) eqn:S; [discriminate|].
    unfold same_position. cbn. rewrite S. repeat split; auto. right. eauto.
  - apply same_position_refl.
Qed.

Lemma sellDue_frame (env : PassEnv) (t : list Holding) :
  List.length (fst (sellDue env t)) = List.length t /\
  forall i h, nth_error t i = Some h ->
    exists h', nth_error (fst (sellDue env t)) i = Some h' /\
               same_position h h'.
Proof.
  assert (Id : List.length t = List.length t /\
               forall i h, nth_error t i = Some h ->
                 exists h', nth_error t i = Some h' /\ same_position h h').
  { split; [reflexivity|]. intros i h Hi. exists h.
    split; [exact Hi|apply same_position_refl]. }
  unfold sellDue. destruct (negb (activeSelectOk env)); [exact Id|].
  destruct (activeHoldings t) as [|a0 l0]; [exact Id|]. cbn [fst].
  generalize (currentPricesOf env t) (coinsToSell env t). intros prices sel.
  clear Id. revert t. induction sel as [|x sel IH]; intros t; cbn [fold_left].
  - split; [reflexivity|]. intros i h Hi. exists h.
    split; [exact Hi|apply same_position_refl].
  - destruct (IH (closeOne env prices t x)) as (L & F).
    assert (C : List.length (closeOne env prices t x) = List.length t /\
                forall i h, nth_error t i = Some h ->
                  exists h', nth_error (closeOne env prices t x) i = Some h' /\
                             same_position h h').
    { unfold closeOne. destruct (updateOk env (mint_address x)).
      - apply update_sell_price_frame.
      - split; [reflexivity|]. intros i h Hi. exists h.
        split; [exact Hi|apply same_position_refl]. }
    destruct C as (L1 & F1). split; [congruence|].
    intros i h Hi. destruct (F1 i h Hi) as (h1 & H1 & P1).
    destruct (F i h1 H1) as (h2 & H2 & P2). exists h2.
    split; [exact H2|]. eapply same_position_trans; eassumption.
Qed.

Lemma lifecyclePass_frame (env : PassEnv) (db : Db) :
  (List.length (holdings db)
     <= List.length (holdings (fst (lifecyclePass env db))))%nat /\
  (forall i h, nth_error (holdings db) i = Some h ->
     exists h', nth_error (holdings (fst (lifecyclePass env db))) i = Some h' /\
                same_position h h') /\
  (forall m, In m (memeList db) ->
             In m (memeList (fst (lifecyclePass env db)))).
Proof.
  assert (Id : (List.length (holdings db) <= List.length (holdings db))%nat /\
               (forall i h, nth_error (holdings db) i = Some h ->
                  exists h', nth_error (holdings db) i = Some h' /\
                             same_position h h') /\
               (forall m, In m (memeList db) -> In m (memeList db))).
  { split; [lia|]. split; [|auto]. intros i h Hi. exists h.
    split; [exact Hi|apply same_position_refl]. }
  unfold lifecyclePass. destruct (feed env) as [tokens|]; [|exact Id].
  destruct (negb (memeSelectOk env)); [exact Id|]. clear Id.
  assert (B : (List.length (holdings db)
                 <= List.length (holdings (fst (buyNew env tokens db))))%nat /\
              (forall i h, nth_error (holdings db) i = Some h ->
                 nth_error (holdings (fst (buyNew env tokens db))) i = Some h) /\
              (forall m, In m (memeList db) ->
                 In m (memeList (fst (buyNew env tokens db))))).
  { split; [|split].
    - unfold buyNew. destruct (filter _ tokens); [cbn; lia|].
      destruct (holdingsInsertOk env); cbn; [rewrite length_app|]; lia.
    - intros i h. apply buyNew_keeps.
    - intros m Hm. unfold buyNew. destruct (filter _ tokens); [exact Hm|].
      destruct (holdingsInsertOk env), (memeInsertOk env); cbn;
        try apply in_or_app; auto. }
  destruct (buyNew env tokens db) as [db1 boughtCount]. cbn [fst] in B.
  destruct B as (B1 & B2 & B3).
  destruct (sellDue_frame env (holdings db1)) as (S1 & S2).
  destruct (sellDue env (holdings db1)) as [t2 soldCount].
  cbn [fst holdings memeList] in *.
  split; [lia|]. split; [|exact B3].
  intros i h Hi. apply S2. apply B2. exact Hi.
Qed.

(** X16.  Passes never delete, reorder or rewrite a position: after any
    sequence of passes every row is still at its place with the same
    symbol, mint address, purchase time and buy price, and with its
    [sell_price] unchanged or set for the first time; rows and known
    memes are only ever added. *)
Theorem passes_keep_positions (envs : list PassEnv) (db : Db) :
  (List.length (holdings db)
     <= List.length (holdings (runPasses envs db)))%nat /\
  (forall i h, nth_error (holdings db) i = Some h ->
     exists h', nth_error (holdings (runPasses envs db)) i = Some h' /\
                same_position h h') /\
  (forall m, In m (memeList db) -> In m (memeList (runPasses envs db))).
Proof.
  unfold runPasses. revert db. induction envs as [|env envs IH]; intros db.
  - cbn. split; [lia|]. split; [|auto]. intros i h Hi. exists h.
    split; [exact Hi|apply same_position_refl].
  - cbn [fold_left]. destruct (lifecyclePass_frame env db) as (L1 & F1 & M1).
    destruct (IH (fst (lifecyclePass env db))) as (L2 & F2 & M2).
    split; [lia|]. split; [|auto].
    intros i h Hi. destruct (F1 i h Hi) as (h1 & H1 & P1).
    destruct (F2 i h1 H1) as (h2 & H2 & P2). exists h2.
    split; [exact H2|]. eapply same_position_trans; eassumption.
Qed.




Lemma known_symbol (sym : string) (memes : list Meme) :
  existsb (String.eqb sym) (map meme_symbol memes) = true <->
  In sym (map meme_symbol memes).
Proof.
  rewrite existsb_exists. split.
  - intros (x & Hx & E). apply String.eqb_eq in E. subst x. exact Hx.
  - intros H. exists sym. split; [exact H|apply String.eqb_refl].
Qed.

Lemma buyNew_knows (env : PassEnv) (tokens : list Token) (db : Db) :
  memeInsertOk env = true ->
  forall token, In token tokens ->
  In (token_symbol token) (map meme_symbol (memeList (fst (buyNew env tokens db)))).
Proof.
  intros Ins token Hin.
  destruct (existsb (String.eqb (token_symbol token))
              (map meme_symbol (memeList db))) eqn:K.
  - apply known_symbol in K. unfold buyNew.
    destruct (filter _ tokens); [exact K|].
    rewrite Ins. destruct (holdingsInsertOk env); cbn [fst memeList];
      rewrite map_app; apply in_or_app; left; exact K.
  - assert (New : In token
              (filter (fun token =>
                         negb (existsb (String.eqb (token_symbol token))
                                 (map meme_symbol (memeList db)))) tokens)).
    { apply filter_In. split; [exact Hin|]. rewrite K. reflexivity. }
    unfold buyNew. destruct (filter _ tokens) as [|n ns] eqn:F; [contradiction|].
    rewrite Ins. destruct (holdingsInsertOk env); cbn [fst memeList];
      rewrite map_app; apply in_or_app; right;
      rewrite map_map; cbn [meme_symbol];
      apply (in_map token_symbol) in New; exact New.
Qed.

Lemma buyNew_nothing_new (env : PassEnv) (tokens : list Token) (db : Db) :
  (forall token, In token tokens ->
     In (token_symbol token) (map meme_symbol (memeList db))) ->
  buyNew env tokens db = (db, O).
Proof.
  intros K. unfold buyNew.
  replace (filter _ tokens) with (@nil Token); [reflexivity|].
  symmetry. induction tokens as [|token tokens IH]; [reflexivity|].
  cbn [filter]. rewrite (proj2 (known_symbol _ _) (K token (or_introl eq_refl))).
  cbn [negb]. apply IH. intros t Ht. apply K. right. exact Ht.
Qed.

(** X18.  Discovery is idempotent: once a pass has recorded the tokens
    of a feed in [Meme List], every token of the feed is known, and a
    later pass over the same feed buys nothing, whatever else its
    environment is: it adds no holding and no meme. *)
Theorem discovery_is_idempotent (env : PassEnv) (db : Db)
    (tokens : list Token) :
  feed env = Some tokens ->
  memeSelectOk env = true -> memeInsertOk env = true ->
  (forall token, In token tokens ->
     In (token_symbol token)
        (map meme_symbol (memeList (fst (lifecyclePass env db))))) /\
  (forall env2, feed env2 = Some tokens ->
     buyNew env2 tokens (fst (lifecyclePass env db))
       = (fst (lifecyclePass env db), O) /\
     List.length (holdings (fst (lifecyclePass env2 (fst (lifecyclePass env db)))))
       = List.length (holdings (fst (lifecyclePass env db))) /\
     memeList (fst (lifecyclePass env2 (fst (lifecyclePass env db))))
       = memeList (fst (lifecyclePass env db))).
Proof.
  intros F S Ins.
  assert (K : forall token, In token tokens ->
            In (token_symbol token)
               (map meme_symbol (memeList (fst (lifecyclePass env db))))).
  { unfold lifecyclePass. rewrite F, S. cbn [negb].
    pose proof (buyNew_knows env tokens db Ins) as B.
    destruct (buyNew env tokens db) as [db1 boughtCount]. cbn [fst] in B.
    destruct (sellDue env (holdings db1)) as [t2 soldCount].
    cbn [fst memeList]. exact B. }
  split; [exact K|]. intros env2 F2.
  pose proof (buyNew_nothing_new env2 tokens _ K) as N.
  split; [exact N|].
  generalize dependent (fst (lifecyclePass env db)). intros db1 _ N.
  unfold lifecyclePass. rewrite F2.
  destruct (negb (memeSelectOk env2)); [auto|]. rewrite N.
  destruct (sellDue_frame env2 (holdings db1)) as (L & _).
  destruct (sellDue env2 (holdings db1)) as [t2 soldCount].
  cbn [fst holdings memeList] in *. auto.
Qed.

(** X19.  A position opened while the price oracle was down is recorded
    open at buy price [0], and the profit trigger never applies to it:
    whenever a later evaluation selects it, it is for having been held
    more than sixteen hours. *)
Theorem unpriced_buys_only_time_out (env : PassEnv) (tokens : list Token)
    (db : Db) (h : Holding) :
  (forall ids, jupiterAtBuy env ids = None) ->
  In h (holdings (fst (buyNew env tokens db))) ->
  In h (holdings db) \/
  (buy_price h = zero /\ sell_price h = None /\
   forall env' t', In h (coinsToSell env' t') ->
                   heldOver16Hours (now env') h = true).
Proof.
  clear formatISO Number_of_string.
  intros Down Hin. unfold buyNew in Hin.
  destruct (filter _ tokens) as [|n ns]; [left; exact Hin|].
  destruct (holdingsInsertOk env); cbn [fst holdings] in Hin; [|left; exact Hin].
  apply in_app_or in Hin. destruct Hin as [Hin|Hin]; [left; exact Hin|].
  right. apply in_map_iff in Hin. destruct Hin as (token & <- & _).
  cbn [buy_price sell_price].
  assert (P : fetchJupiterPrices (jupiterAtBuy env) (map tokenMint (n :: ns))
                (tokenMint token) = None).
  { unfold fetchJupiterPrices. cbn [map]. rewrite Down. reflexivity. }
  rewrite P. split; [reflexivity|]. split; [reflexivity|].
  intros env' t' Sel. apply coinsToSell_In in Sel. destruct Sel as (_ & _ & Sel).
  apply shouldSell_iff in Sel. destruct Sel as [Sel|(Sel & _)]; [exact Sel|].
  unfold buyPriceOf in Sel. cbn in Sel. discriminate.
Qed.

(* ================================================================== *)
(** ** Further properties: the client *)
(* ================================================================== *)

Lemma Client_page_candles_finite (rows : list RawRow) :
  Forall (fun row => isFinite (row0 row) = true) rows ->
  Client.page_candles rows = page_candles rows.
Proof.
  unfold Client.page_candles, page_candles.
  induction 1 as [|row rows Hr _ IH]; [reflexivity|]. cbn [map filter].
  rewrite IH. unfold valid_candle, Client.valid_high.
  cbn [candle_of_row timestamp high]. rewrite Hr. reflexivity.
Qed.

Lemma Client_page_loop_agrees (poolAddress : string) (remaining : nat) :
  forall (beforeTimestamp : option number) (candles : list Candle) (w : World),
  well_formed_pages (upstream w) ->
  Client.page_loop poolAddress remaining beforeTimestamp candles w
    = Plain.page_loop poolAddress remaining beforeTimestamp candles w.
Proof.
  induction remaining as [|remaining IH]; intros beforeTimestamp candles w W;
    [reflexivity|].
  cbn [Client.page_loop Plain.page_loop].
  unfold bind, fetch, response_json, ret, throw.
  destruct (upstream w (served w)) as [|st [[top|rows| | |]|]] eqn:U;
    try reflexivity; destruct (ok st) eqn:O;
    cbn [negb ohlcv_list Client.ohlcv_list List.length Nat.eqb];
    try reflexivity.
  2:{ exfalso. exact (proj1 (W (served w) st) O U). }
  destruct (proj2 (W (served w) st) _ U) as (Fin_ & NonEmpty).
  rewrite (Client_page_candles_finite rows Fin_).
  destruct (List.length rows =? 0)%nat eqn:L0; [reflexivity|].
  assert (L1 : (List.length (page_candles rows) =? 0)%nat = false).
  { destruct (page_candles rows) eqn:P; [|reflexivity]. exfalso.
    apply NonEmpty; [|reflexivity]. intros ->. discriminate. }
  rewrite L1.
  destruct (List.length rows <? 1000)%nat; [reflexivity|].
  apply IH. exact W.
Qed.

(** X20.  On well-formed pages (no [null] document, finite timestamps,
    a valid candle on every page that has rows) the client's copy of the
    fetcher does what the plain server variant does: the same requests,
    the same candle list or the same error. *)
Theorem Client_fetchAllMinuteCandles_agrees (poolAddress : string) (w : World) :
  well_formed_pages (upstream w) ->
  Client.fetchAllMinuteCandles poolAddress w
    = Plain.fetchAllMinuteCandles poolAddress w.
Proof.
  intros W. unfold Client.fetchAllMinuteCandles, Plain.fetchAllMinuteCandles, bind.
  rewrite (Client_page_loop_agrees poolAddress maxPages None [] w W).
  reflexivity.
Qed.

(** X21.  Whenever the server-side [computeBestSell] returns a populated
    result for a purchase, the client's [computeBestSellInfo] reports
    the same best price and the same return for the holding with that
    buy price and purchase time. *)
Theorem computeBestSellInfo_agrees (p : Purchase) (h : Holding)
    (candles : list Candle) (r : BestSell) :
  buy_price h = buyPrice p -> bought_at h = boughtAt p ->
  computeBestSell p candles = Ok r ->
  bestSellPrice r <> None ->
  bestSellPrice (computeBestSellInfo h candles) = bestSellPrice r /\
  bestPlPercent (computeBestSellInfo h candles) = bestPlPercent r.
Proof.
  intros Eb Ea H Pop.
  destruct (validBuyPrice (buyPrice p)) eqn:Hb.
  2:{ rewrite computeBestSell_invalid_buyPrice in H by exact Hb.
      injection H as <-. contradiction. }
  destruct (validInstant (unixSeconds (boughtAt p))) eqn:Hi.
  2:{ rewrite computeBestSell_invalid_instant in H by exact Hi.
      injection H as <-. contradiction. }
  rewrite computeBestSell_guards_passed in H by assumption.
  unfold computeBestSellInfo. rewrite Eb, Ea.
  assert (G : (buyPrice p <=? zero)%js = false).
  { unfold validBuyPrice in Hb. apply andb_true_iff in Hb. destruct Hb as [_ Hb].
    unfold JS.gtb in Hb. apply ltb_not_leb. exact Hb. }
  rewrite G. fold (afterBuy (unixSeconds (boughtAt p)) candles).
  destruct (afterBuy (unixSeconds (boughtAt p)) candles) as [|first rest];
    [injection H as <-; contradiction|].
  destruct (Date_of_number _) as [ms|]; [|discriminate].
  injection H as <-. unfold populated, plPercent. cbn. auto.
Qed.

Lemma Object_get_set {V} (key : string) (v : V) (o : list (string * V)) :
  Object_get key (Object_set key v o) = Some v.
Proof.
  induction o as [|[k v0] o IH]; cbn.
  - rewrite String.eqb_refl. reflexivity.
  - destruct (String.eqb k key) eqn:E; cbn; rewrite E; [reflexivity|exact IH].
Qed.

Lemma Object_get_set_other {V} (key key' : string) (v : V)
    (o : list (string * V)) :
  key' <> key -> Object_get key' (Object_set key v o) = Object_get key' o.
Proof.
  intros N. induction o as [|[k v0] o IH]; cbn.
  - apply String.eqb_neq in N. rewrite String.eqb_sym, N. reflexivity.
  - destruct (String.eqb k key) eqn:E; cbn.
    + apply String.eqb_eq in E. subst k.
      apply String.eqb_neq in N. rewrite String.eqb_sym, N. reflexivity.
    + destruct (String.eqb k key'); [reflexivity|exact IH].
Qed.

Lemma Object_set_length {V} (key : string) (v : V) (o : list (string * V)) :
  (List.length (Object_set key v o) <= S (List.length o))%nat.
Proof.
  induction o as [|[k v0] o IH]; cbn; [lia|].
  destruct (String.eqb k key); cbn; lia.
Qed.

Lemma Client_page_loop_served (poolAddress : string) (remaining : nat) :
  forall (beforeTimestamp : option number) (candles : list Candle) (w : World),
  (served (snd (Client.page_loop poolAddress remaining beforeTimestamp candles w))
     <= served w + remaining)%nat.
Proof.
  induction remaining as [|remaining IH]; intros beforeTimestamp candles w;
    [cbn; lia|].
  cbn [Client.page_loop]. unfold bind, fetch, response_json, ret, throw.
  destruct (upstream w (served w)) as [|st [ohlcvJson|]];
    try destruct (ok st); cbn [negb snd served]; try lia.
  destruct (Client.ohlcv_list ohlcvJson) as [ohlcvList|]; cbn [snd served];
    [|lia].
  destruct (List.length ohlcvList =? 0)%nat; cbn [snd served]; [lia|].
  destruct (List.length ohlcvList <? 1000)%nat; cbn [snd served]; [lia|].
  match goal with |- context [Client.page_loop _ _ ?b ?c ?w1] =>
    specialize (IH b c w1) end.
  cbn [served] in IH. lia.
Qed.

Lemma Client_fetchTopSolanaPoolAddress_served (tokenAddress : string) (w : World) :
  served (snd (Client.fetchTopSolanaPoolAddress tokenAddress w)) = S (served w).
Proof.
  unfold Client.fetchTopSolanaPoolAddress, bind, fetch, response_json, ret, throw.
  destruct (upstream w (served w)) as [|st [j|]];
    try destruct (ok st); cbn [negb snd served]; try reflexivity.
  destruct j as [top| | | |]; cbn [top_pool_address snd served];
    try reflexivity.
  destruct top as [top|]; [destruct (nonempty top)|]; reflexivity.
Qed.

Lemma loadOne_spec (holding : Holding) (w : World) :
  exists info,
    fst (loadOne holding w) = Ok info /\
    stored_for holding w info /\
    (served (snd (loadOne holding w)) <= served w + 101)%nat.
Proof.
  unfold loadOne, stored_for, try_catch, bind.
  pose proof (Client_fetchTopSolanaPoolAddress_served (mint_address holding) w)
    as S1.
  destruct (Client.fetchTopSolanaPoolAddress (mint_address holding) w)
    as [[poolAddress|e] w1]; cbn [fst snd] in *.
  - unfold Client.fetchAllMinuteCandles, bind.
    pose proof (Client_page_loop_served poolAddress maxPages None [] w1) as S2.
    unfold maxPages in S2 at 2.
    destruct (Client.page_loop poolAddress maxPages None [] w1)
      as [[candles|e] w2]; cbn [fst snd ret] in *.
    + eexists. split; [reflexivity|]. split; [reflexivity|lia].
    + eexists. split; [reflexivity|]. split; [reflexivity|lia].
  - eexists. split; [reflexivity|]. split; [reflexivity|]. cbn. lia.
Qed.

Lemma loadLoop_spec (holdings : list Holding) :
  forall (next : list (string * BestSell)) (w : World),
  exists record,
    fst (loadLoop holdings next w) = Ok record /\
    (forall earlier holding later,
       holdings = earlier ++ holding :: later ->
       Forall (fun h => holdingKey h <> holdingKey holding) later ->
       exists info,
         Object_get (holdingKey holding) record = Some info /\
         stored_for holding (snd (loadLoop earlier next w)) info) /\
    (forall key, ~ In key (map holdingKey holdings) ->
       Object_get key record = Object_get key next) /\
    (List.length record <= List.length next + List.length holdings)%nat /\
    (served (snd (loadLoop holdings next w))
       <= served w + 101 * List.length holdings)%nat.
Proof.
  clear Number_of_string.
  induction holdings as [|h rest IH]; intros next w.
  - exists next. cbn. split; [reflexivity|]. split; [|split; [auto|lia]].
    intros [|x earlier] holding later E; discriminate E.
  - cbn [loadLoop]. unfold bind.
    destruct (loadOne_spec h w) as (info & E & St & B).
    destruct (loadOne h w) as [r w1] eqn:L1. cbn [fst snd] in *. subst r.
    destruct (IH (Object_set (holdingKey h) info next) w1)
      as (record & R & Last & Other & Len & Sv).
    exists record. split; [exact R|].
    assert (Other' : forall key, ~ In key (map holdingKey (h :: rest)) ->
                       Object_get key record = Object_get key next).
    { intros key Hk. cbn [map In] in Hk. rewrite Other by tauto.
      apply Object_get_set_other. intros ->. tauto. }
    split; [|split; [exact Other'|]].
    + intros [|x earlier] holding later Eq Hl; cbn [app] in Eq;
        injection Eq as -> ->.
      * exists info. split; [|exact St].
        rewrite Other; [apply Object_get_set|].
        intros Hin. apply in_map_iff in Hin. destruct Hin as (y & Ky & Hy).
        rewrite Forall_forall in Hl. exact (Hl y Hy Ky).
      * destruct (Last earlier holding later eq_refl Hl) as (i2 & G & S2).
        exists i2. split; [exact G|].
        cbn [loadLoop]. unfold bind. rewrite L1. exact S2.
    + pose proof (Object_set_length (holdingKey h) info next).
      cbn [List.length]. split; lia.
Qed.

Lemma last_with_key (key : string) (l : list Holding) :
  In key (map holdingKey l) ->
  exists earlier x later,
    l = earlier ++ x :: later /\ holdingKey x = key /\
    Forall (fun h => holdingKey h <> holdingKey x) later.
Proof.
  induction l as [|a l IH]; [contradiction|]. intros Hin.
  destruct (in_dec string_dec key (map holdingKey l)) as [Hl|Hout].
  - destruct (IH Hl) as (earlier & x & later & -> & Kx & Fl).
    exists (a :: earlier), x, later. auto.
  - destruct Hin as [Ka|Hl]; [|contradiction].
    exists [], a, l. split; [reflexivity|]. split; [exact Ka|].
    apply Forall_forall. intros y Hy Ky. apply Hout. rewrite <- Ka, <- Ky.
    apply in_map. exact Hy.
Qed.

(** X22.  [loadBestSellTimes] never fails.  Whatever the upstream does it
    returns a record in which every holding has an entry and no other
    key has one; the entry is the one of the last holding with that key:
    the value of [computeBestSellInfo] on the candles fetched for it, or
    the all-absent entry when its lookup throws; the cost is at most 101
    requests per holding. *)
Theorem loadBestSellTimes_total (holdings : list Holding) (w : World) :
  exists record,
    fst (loadBestSellTimes holdings w) = Ok record /\
    (forall earlier holding later,
       holdings = earlier ++ holding :: later ->
       Forall (fun h => holdingKey h <> holdingKey holding) later ->
       exists info,
         Object_get (holdingKey holding) record = Some info /\
         stored_for holding (snd (loadBestSellTimes earlier w)) info) /\
    (forall holding, In holding holdings ->
       Object_get (holdingKey holding) record <> None) /\
    (forall key, Object_get key record <> None ->
       exists holding, In holding holdings /\ key = holdingKey holding) /\
    (List.length record <= List.length holdings)%nat /\
    (served (snd (loadBestSellTimes holdings w))
       <= served w + 101 * List.length holdings)%nat.
Proof.
  unfold loadBestSellTimes.
  destruct (loadLoop_spec holdings [] w) as (record & R & Last & Other & Len & Sv).
  exists record. split; [exact R|]. split; [exact Last|].
  split; [|split; [|split; [exact Len|exact Sv]]].
  - intros holding Hh.
    destruct (last_with_key (holdingKey holding) holdings
                (in_map holdingKey _ _ Hh))
      as (earlier & x & later & E & Kx & Fl).
    destruct (Last earlier x later E Fl) as (info & G & _).
    rewrite <- Kx, G. discriminate.
  - intros key Hk.
    destruct (in_dec string_dec key (map holdingKey holdings)) as [Hin|Hout].
    + apply in_map_iff in Hin. destruct Hin as (y & Ky & Hy). exists y. auto.
    + rewrite (Other key Hout) in Hk. contradiction.
Qed.

(* ================================================================== *)
(** ** Further properties: the simulated portfolio *)
(* ================================================================== *)

Lemma maxAffordableCoins_ten : Portfolio.maxAffordableCoins = Fin 10.
Proof. reflexivity. Qed.

Lemma simulatedInvestments_firstn (holdings : list Holding) :
  Portfolio.simulatedInvestments holdings
  = firstn 10 (Portfolio.validInvestments holdings).
Proof.
  unfold Portfolio.simulatedInvestments. rewrite maxAffordableCoins_ten.
  reflexivity.
Qed.

Lemma inject_Z_succ (n : nat) :
  (inject_Z (Z.of_nat (S n)) == inject_Z (Z.of_nat n) + 1)%Q.
Proof.
  rewrite Nat2Z.inj_succ. unfold Z.succ. rewrite inject_Z_plus. reflexivity.
Qed.

Lemma inject_Z_nat_le (n m : nat) :
  (n <= m)%nat -> (inject_Z (Z.of_nat n) <= inject_Z (Z.of_nat m))%Q.
Proof. intros H. rewrite <- Zle_Qle. lia. Qed.

Lemma simulated_length (holdings : list Holding) :
  (List.length (Portfolio.simulatedInvestments holdings) <= 10)%nat.
Proof. rewrite simulatedInvestments_firstn. apply firstn_le_length. Qed.

Lemma simulated_valid (holdings : list Holding) (h : Holding) :
  In h (Portfolio.simulatedInvestments holdings) ->
  (buy_price h >? zero)%js = true.
Proof.
  rewrite simulatedInvestments_firstn. intros H.
  assert (K : In h (Portfolio.validInvestments holdings)).
  { rewrite <- (firstn_skipn 10). apply in_or_app. left. exact H. }
  apply filter_In in K. exact (proj2 K).
Qed.

Lemma uninvestedCash_value (holdings : list Holding) :
  Portfolio.uninvestedCash holdings
  = Fin (5 - inject_Z (Z.of_nat
           (List.length (Portfolio.simulatedInvestments holdings))) * (1 # 2)).
Proof. reflexivity. Qed.

(** X23.  The simulation never spends more than it has: at most ten
    holdings are simulated, each with a positive buy price and each the
    next valid one in table order, so the invested capital stays within
    the starting capital and the uninvested cash is never negative. *)
Theorem simulation_within_budget (holdings : list Holding) :
  (List.length (Portfolio.simulatedInvestments holdings) <= 10)%nat /\
  Forall (fun h => (buy_price h >? zero)%js = true)
    (Portfolio.simulatedInvestments holdings) /\
  (exists rest, Portfolio.validInvestments holdings
                = Portfolio.simulatedInvestments holdings ++ rest) /\
  (Portfolio.investedCapital holdings <=? Portfolio.startingCapital)%js = true /\
  (Portfolio.uninvestedCash holdings >=? zero)%js = true.
Proof.
  pose proof (simulated_length holdings) as L.
  apply inject_Z_nat_le in L. change (inject_Z (Z.of_nat 10)) with 10%Q in L.
  split; [apply simulated_length|]. split.
  { apply Forall_forall. intros h. apply simulated_valid. }
  split.
  { rewrite simulatedInvestments_firstn.
    exists (skipn 10 (Portfolio.validInvestments holdings)).
    symmetry. apply firstn_skipn. }
  split.
  - unfold Portfolio.investedCapital, Portfolio.Array_length, ofZ,
      Portfolio.investmentPerCoin, Portfolio.startingCapital.
    cbn [JS.mul]. apply leb_Fin. lra.
  - rewrite uninvestedCash_value. unfold JS.geb, zero. apply leb_Fin. lra.
Qed.

Lemma open_value (l : list Holding) :
  Forall (fun h => sell_price h = None) l ->
  forall q, exists q',
    fold_left Portfolio.value_step l (Fin q) = Fin q' /\
    (q' == q + inject_Z (Z.of_nat (List.length l)) * (1 # 2))%Q.
Proof.
  induction 1 as [|h l Hh _ IH]; intros q.
  - exists q. split; [reflexivity|].
    change (inject_Z (Z.of_nat (List.length (@nil Holding)))) with 0%Q. lra.
  - cbn [fold_left]. unfold Portfolio.value_step at 2. rewrite Hh.
    cbn [JS.add Portfolio.investmentPerCoin].
    destruct (IH (q + (1 # 2))%Q) as (q' & E & V).
    exists q'. split; [exact E|].
    cbn [List.length]. rewrite inject_Z_succ. lra.
Qed.

Lemma open_not_closed (l : list Holding) :
  Forall (fun h => sell_price h = None) l ->
  filter (fun holding => negb (is_null (sell_price holding))) l = [].
Proof.
  induction 1 as [|h l Hh _ IH]; [reflexivity|].
  cbn [filter]. rewrite Hh. exact IH.
Qed.

(** X24.  While every simulated holding is still open the portfolio
    breaks even: the ending capital equals the starting capital, the
    total gain or loss is zero in dollars and in percent, and there is
    no win rate. *)
Theorem open_portfolio_breaks_even (holdings : list Holding) :
  Forall (fun h => sell_price h = None)
    (Portfolio.simulatedInvestments holdings) ->
  JS.eqb (Portfolio.endingCapital holdings) Portfolio.startingCapital = true /\
  JS.eqb (Portfolio.totalGainLossAbsolute holdings) zero = true /\
  JS.eqb (Portfolio.totalGainLossPercent holdings) zero = true /\
  Portfolio.winRatePercent holdings = None.
Proof.
  intros Open.
  destruct (open_value _ Open 0) as (q' & E & V).
  set (n := inject_Z (Z.of_nat
              (List.length (Portfolio.simulatedInvestments holdings)))) in *.
  assert (EC : Portfolio.endingCapital holdings
               = Fin (5 - n * (1 # 2) + q')).
  { unfold Portfolio.endingCapital, Portfolio.investmentValue.
    rewrite uninvestedCash_value. unfold zero. rewrite E. reflexivity. }
  assert (TA : Portfolio.totalGainLossAbsolute holdings
               = Fin (5 - n * (1 # 2) + q' - 5)).
  { unfold Portfolio.totalGainLossAbsolute. rewrite EC. reflexivity. }
  assert (TP : Portfolio.totalGainLossPercent holdings
               = Fin ((5 - n * (1 # 2) + q' - 5) / 5 * 100)).
  { unfold Portfolio.totalGainLossPercent. rewrite TA. reflexivity. }
  rewrite EC, TA, TP. unfold Portfolio.startingCapital, zero.
  repeat split.
  - apply eqb_Fin. lra.
  - apply eqb_Fin. lra.
  - apply eqb_Fin.
    assert (Z0 : (5 - n * (1 # 2) + q' - 5 == 0)%Q) by lra.
    rewrite Z0. reflexivity.
  - unfold Portfolio.winRatePercent, Portfolio.closedInvestments.
    rewrite (open_not_closed _ Open). reflexivity.
Qed.

Lemma gtb_zero_cases (b : number) :
  (b >? zero)%js = true -> b = PInf \/ exists qb, b = Fin qb /\ (0 < qb)%Q.
Proof.
  destruct b as [| | |qb]; try discriminate; [left; reflexivity|].
  intros H. right. exists qb. split; [reflexivity|].
  unfold JS.gtb, zero in H. apply ltb_Fin in H. exact H.
Qed.

Lemma eqb_zero_pos (qb : Q) : (0 < qb)%Q -> JS.eqb (Fin qb) zero = false.
Proof.
  intros H. destruct (JS.eqb (Fin qb) zero) eqn:E; [|reflexivity].
  apply eqb_Fin in E. lra.
Qed.

Lemma filter_length_le {A} (f : A -> bool) (l : list A) :
  (List.length (filter f l) <= List.length l)%nat.
Proof.
  induction l as [|x l IH]; cbn; [lia|]. destruct (f x); cbn; lia.
Qed.

(** X25.  A win rate, when there is one, is a percentage: a finite
    number from 0 to 100. *)
Theorem winRatePercent_is_a_percentage (holdings : list Holding) (r : number) :
  Portfolio.winRatePercent holdings = Some r ->
  (zero <=? r)%js = true /\ (r <=? Fin 100)%js = true.
Proof.
  unfold Portfolio.winRatePercent, Portfolio.winningInvestments,
    Portfolio.Array_length, ofZ.
  pose proof (filter_length_le Portfolio.winning
                (Portfolio.closedInvestments holdings)) as W.
  revert W.
  generalize (List.length (filter Portfolio.winning
                             (Portfolio.closedInvestments holdings))).
  generalize (List.length (Portfolio.closedInvestments holdings)).
  intros n k W H.
  destruct (n =? 0)%nat eqn:N; [discriminate|].
  apply Nat.eqb_neq in N.
  assert (Pn : (0 < inject_Z (Z.of_nat n))%Q).
  { change 0%Q with (inject_Z 0). rewrite <- Zlt_Qlt. lia. }
  assert (Pk : (0 <= inject_Z (Z.of_nat k))%Q).
  { change 0%Q with (inject_Z 0). rewrite <- Zle_Qle. lia. }
  pose proof (inject_Z_nat_le _ _ W) as Le.
  cbn [JS.div] in H. rewrite (sgn_pos _ Pn) in H. cbn [JS.mul] in H.
  injection H as <-.
  assert (Nz : ~ (inject_Z (Z.of_nat n) == 0)%Q) by lra.
  pose proof (Qmult_div_r (inject_Z (Z.of_nat k)) _ Nz) as E.
  revert E Pn Pk Le.
  generalize (inject_Z (Z.of_nat k) / inject_Z (Z.of_nat n))%Q.
  generalize (inject_Z (Z.of_nat k)). generalize (inject_Z (Z.of_nat n)).
  intros qn qk x E Pn Pk Le.
  split; unfold zero; apply leb_Fin; nra.
Qed.

(** X26.  A closed holding with a positive buy price counts as a win
    exactly when its displayed profit or loss is a positive number. *)
Theorem winning_iff_positive_percent (h : Holding) (sell : number) :
  (buy_price h >? zero)%js = true -> sell_price h = Some sell ->
  Portfolio.winning h
  = match Portfolio.getProfitLossPercent (buy_price h) (sell_price h) with
    | Some pl => (pl >? zero)%js
    | None => false
    end.
Proof.
  intros Hb Hs. unfold Portfolio.winning, Portfolio.getProfitLossPercent.
  rewrite Hs.
  destruct (gtb_zero_cases _ Hb) as [->|(qb & -> & Pb)].
  - destruct sell; reflexivity.
  - rewrite (eqb_zero_pos _ Pb).
    destruct sell as [| | |qs]; cbn [JS.sub JS.div JS.mul];
      rewrite ?(sgn_pos _ Pb); try reflexivity.
    cbn [JS.mul]. unfold JS.gtb, zero.
    assert (Nz : ~ (qb == 0)%Q) by lra.
    pose proof (Qmult_div_r (qs - qb) qb Nz) as E.
    destruct (Fin qb <? Fin qs)%js eqn:L1;
      destruct (Fin 0 <? Fin ((qs - qb) / qb * 100))%js eqn:L2;
      try reflexivity; num_reflect; exfalso;
      revert E L2; generalize ((qs - qb) / qb)%Q; intros x E L2; nra.
Qed.

Lemma value_step_worth (total : number) (n : nat) (h : Holding) :
  (buy_price h >? zero)%js = true -> no_loss h ->
  worth_stakes total n -> worth_stakes (Portfolio.value_step total h) (S n).
Proof.
  intros Hb Hn Hw. unfold no_loss, Portfolio.getProfitLossPercent in Hn.
  unfold Portfolio.value_step, Portfolio.investmentPerCoin.
  destruct (sell_price h) as [sell|].
  - destruct (gtb_zero_cases _ Hb) as [E|(qb & E & Pb)]; rewrite E in *.
    { destruct sell; discriminate Hn. }
    rewrite (eqb_zero_pos _ Pb) in Hn.
    destruct sell as [| | |qs]; cbn [JS.sub JS.div JS.mul] in *;
      rewrite ?(sgn_pos _ Pb) in *; cbn [JS.mul JS.div JS.sgn JS.inf_of] in *;
      try discriminate Hn.
    + left. destruct Hw as [->|(q & -> & _)]; reflexivity.
    + unfold JS.geb, zero in Hn. apply leb_Fin in Hn.
      destruct Hw as [->|(q & -> & Hq)]; [left; reflexivity|].
      right. eexists. split; [reflexivity|].
      rewrite inject_Z_succ.
      assert (Nz : ~ (qb == 0)%Q) by lra.
      pose proof (Qmult_div_r (qs - qb) qb Nz) as E1.
      pose proof (Qmult_div_r qs qb Nz) as E2.
      revert E1 E2 Hn. generalize ((qs - qb) / qb)%Q (qs / qb)%Q.
      intros x y E1 E2 Hn. nra.
  - destruct Hw as [->|(q & -> & Hq)]; [left; reflexivity|].
    right. eexists. split; [reflexivity|]. rewrite inject_Z_succ. lra.
Qed.

Lemma fold_value_worth (l : list Holding) :
  Forall (fun h => (buy_price h >? zero)%js = true) l -> Forall no_loss l ->
  forall total n,
    worth_stakes total n ->
    worth_stakes (fold_left Portfolio.value_step l total) (n + List.length l).
Proof.
  induction l as [|h l IH]; intros Hv Hn total n Hw.
  - cbn. rewrite Nat.add_0_r. exact Hw.
  - cbn [fold_left List.length]. rewrite Nat.add_succ_r.
    apply (IH (Forall_inv_tail Hv) (Forall_inv_tail Hn) _ (S n)).
    apply value_step_worth;
      [exact (Forall_inv Hv)|exact (Forall_inv Hn)|exact Hw].
Qed.

(** X27.  Without a losing position there is no loss: when no simulated
    holding shows a negative (or undefined) profit-and-loss percentage,
    the ending capital is at least the starting capital and the total
    gain or loss is not negative. *)
Theorem no_losing_position_no_loss (holdings : list Holding) :
  Forall no_loss (Portfolio.simulatedInvestments holdings) ->
  (Portfolio.endingCapital holdings >=? Portfolio.startingCapital)%js = true /\
  (Portfolio.totalGainLossAbsolute holdings >=? zero)%js = true.
Proof.
  intros Hn.
  assert (Hv : Forall (fun h => (buy_price h >? zero)%js = true)
                 (Portfolio.simulatedInvestments holdings)).
  { apply Forall_forall. intros h. apply simulated_valid. }
  assert (W0 : worth_stakes zero 0).
  { right. exists 0%Q. split; [reflexivity|].
    change (inject_Z (Z.of_nat 0)) with 0%Q. lra. }
  pose proof (fold_value_worth _ Hv Hn _ _ W0) as W. cbn [Nat.add] in W.
  unfold Portfolio.totalGainLossAbsolute, Portfolio.endingCapital,
    Portfolio.investmentValue.
  rewrite uninvestedCash_value.
  destruct W as [->|(q & -> & Hq)]; unfold Portfolio.startingCapital, zero;
    [split; reflexivity|].
  cbn [JS.add JS.sub]. unfold JS.geb. split; apply leb_Fin; lra.
Qed.

End Host.

(* ================================================================== *)
(** ** The theorems at the sample inputs *)
(* ================================================================== *)

Import Samples.

(** C1, the scenario of the specification: candles at [t = 100, 160, 220]
    with highs [2, 5, 3], bought at [t = 100] for 1; the best exit is
    [t = 160] at 5, a return of 400 percent. *)
Lemma computeBestSell_earliest_maximum_witness :
  exists (best : Candle) (ms : Z),
    In best candles /\
    (timestamp best >=? unixSeconds hostParse (boughtAt boughtAt100))%js = true /\
    (forall c, In c candles ->
       (timestamp c >=? unixSeconds hostParse (boughtAt boughtAt100))%js = true ->
       (high c <=? high best)%js = true /\
       ((timestamp c <? timestamp best)%js = true ->
        (high c <? high best)%js = true)) /\
    Date_of_number (timestamp best * Fin 1000)%js = Some ms /\
    computeBestSell hostParse hostFormat boughtAt100 candles =
      Ok {| bestSellAt := Some (hostFormat ms);
            bestSellPrice := Some (high best);
            bestPlPercent :=
              Some (((high best - buyPrice boughtAt100)
                     / buyPrice boughtAt100) * Fin 100)%double |}.
Proof.
  apply (computeBestSell_earliest_maximum hostParse hostFormat boughtAt100 candles).
  - reflexivity.
  - reflexivity.
  - repeat constructor.
  - repeat constructor.
  - repeat constructor; discriminate.
  - exists (candle 160 5). split; [right; left; reflexivity | reflexivity].
Defined.

(** The percentage is a double.  Bought at 3, a best price of 4 gives
    [33.33333333333333], the result of the three rounded operations,
    where the exact value is [100 / 3]; a quotient beyond the range of
    doubles gives [Infinity]. *)
Example percentage_is_a_double :
  plPercent (ofZ 4) (ofZ 3) = Fin (2345624805922133 # 70368744177664) /\
  JS.eqb (plPercent (ofZ 4) (ofZ 3)) (Fin (100 # 3)) = false /\
  plPercent (Fin (inject_Z (2 ^ 1023))) (Fin (1 # Z.to_pos (2 ^ 1074))) = PInf.
Proof. vm_compute. repeat split. Qed.

(** C1 as stated fails at the epoch: the price is valid, [boughtAt]
    parses, every candle is after the purchase instant [0], and the
    result is the all-absent one. *)
Lemma computeBestSell_epoch_counterexample :
  validBuyPrice (buyPrice boughtAtEpoch) = true /\
  hostParse (boughtAt boughtAtEpoch) = Some 0%Z /\
  (exists c, In c candles /\
     (timestamp c >=? unixSeconds hostParse (boughtAt boughtAtEpoch))%js = true) /\
  computeBestSell hostParse hostFormat boughtAtEpoch candles = Ok nullBestSell.
Proof.
  split; [reflexivity|]. split; [reflexivity|]. split; [|reflexivity].
  exists (candle 100 2). split; [left; reflexivity | reflexivity].
Qed.

(** C3 as stated fails one second before the epoch: none of the three
    stated conditions holds, and the result is the all-absent one. *)
Lemma computeBestSell_before_epoch_counterexample :
  validBuyPrice (buyPrice boughtBeforeEpoch) = true /\
  hostParse (boughtAt boughtBeforeEpoch) = Some (-1000)%Z /\
  unixSeconds hostParse (boughtAt boughtBeforeEpoch) = Fin (-1) /\
  (exists c, In c candles /\
     (timestamp c >=? unixSeconds hostParse (boughtAt boughtBeforeEpoch))%js
       = true) /\
  computeBestSell hostParse hostFormat boughtBeforeEpoch candles
    = Ok nullBestSell.
Proof.
  split; [reflexivity|]. split; [reflexivity|]. split; [reflexivity|].
  split; [|reflexivity].
  exists (candle 100 2). split; [left; reflexivity | reflexivity].
Qed.

(** C2.  A 404 is not final: [fetchJsonWithRetry] backs off for 250 ms,
    asks again and returns the second answer. *)
Theorem fetchJsonWithRetry_retries_not_found :
  let run := fetchJsonWithRetry (PoolsUrl "mint") 3 (worldOf notFoundThenOk) in
  retryable 404 = false /\
  fst run = Ok (JPools (Some "pool"%string)) /\
  served (snd run) = 2%nat /\
  log (snd run) =
    [EvFetch (PoolsUrl "mint"); EvSleep 250; EvFetch (PoolsUrl "mint")].
Proof. repeat split. Qed.

(** C4 on two pages that overlap at [t = 160]: the value of the page
    fetched last is the one kept. *)
Lemma fetchAllMinuteCandles_ascending_unique_witness :
  let w := worldOf (pageOutcome overlapping) in
  let result := [candle 100 2; candle 160 7; candle 220 3] in
  exists fetched : list Candle,
    fst (collectCandles "pool" NaN w) = Ok fetched /\
    ascending result /\
    distinct_timestamps result /\
    (forall c, In c result -> last_with_timestamp fetched c) /\
    (forall c, In c fetched ->
       exists c', In c' result /\
                  sameValueZero (timestamp c') (timestamp c) = true).
Proof.
  apply (fetchAllMinuteCandles_ascending_unique "pool" NaN
           (worldOf (pageOutcome overlapping))).
  vm_compute. reflexivity.
Defined.


(** The exit rule at the samples.  One second after the purchase the
    holding bought at 2 is selected at a spot price of 4 and not at 3,
    one and a half times its buy price; sixteen hours later it is
    selected at any price.  At a buy price of [0.007] and a spot price
    of [0.0105] the holding is not selected: the product is rounded to
    [0.0105], although the exact product is below the spot price. *)
Example exit_rule_at_the_samples :
  coinsToSell hostParse earlyEnv table = [openHolding] /\
  coinsToSell hostParse earlyEnvAtLimit table = [undatedHolding] /\
  coinsToSell hostParse env table = [openHolding; undatedHolding] /\
  (double_0_007 * Fin (3 # 2))%double = double_0_0105 /\
  (double_0_0105 >? double_0_007 * Fin (3 # 2))%js = true /\
  coinsToSell hostParse smallEnv [smallHolding] = [].
Proof. vm_compute. repeat split. Qed.

(** C6 at the closed row of the sample table. *)
Lemma closed_position_stays_closed_witness :
  (forall t, ~ In closedHolding (activeHoldings t)) /\
  (forall env t, ~ In closedHolding (coinsToSell hostParse env t)) /\
  (forall price mint,
     nth_error (update_sell_price price mint (holdings db)) 0 = Some closedHolding) /\
  (forall envs,
     nth_error (holdings (runPasses hostParse envs db)) 0 = Some closedHolding).
Proof.
  apply (closed_position_stays_closed hostParse db 0 closedHolding (ofZ 3)).
  - reflexivity.
  - reflexivity.
Defined.


(** C8 on a full page that reaches the purchase instant followed by an
    older page: the early exit skips the older page, the plain variant
    fetches it, the best exit is the same. *)
Lemma early_exit_is_an_optimization_witness :
  exists withExit plain noFloor : list Candle,
    fst (fetchAllMinuteCandles "pool"
           (unixSeconds hostParse (boughtAt boughtAt100))
           (worldOf (pageOutcome pastPurchase))) = Ok withExit /\
    fst (Plain.fetchAllMinuteCandles "pool" (worldOf (pageOutcome pastPurchase)))
      = Ok plain /\
    fst (fetchAllMinuteCandles "pool" NaN (worldOf (pageOutcome pastPurchase)))
      = Ok noFloor /\
    computeBestSell hostParse hostFormat boughtAt100 withExit
      = computeBestSell hostParse hostFormat boughtAt100 plain /\
    computeBestSell hostParse hostFormat boughtAt100 withExit
      = computeBestSell hostParse hostFormat boughtAt100 noFloor.
Proof.
  apply (early_exit_is_an_optimization hostParse hostFormat "pool" boughtAt100
           pastPurchase (worldOf (pageOutcome pastPurchase))).
  - intros k. reflexivity.
  - vm_compute. reflexivity.
Defined.

(** C10 at the holding whose [bought_at] is not a date: bought at 2, it
    is selected at a spot price of 4. *)
Lemma unparseable_only_profit_witness :
  let buyPrice := or_else (buy_price undatedHolding) zero in
  let openMints :=
    map mint_address (filter (fun x => is_null (sell_price x)) table) in
  let currentPrice :=
    match jupiterAtSell env (firstn 100 openMints) with
    | Some data =>
        match data (mint_address undatedHolding) with
        | Some usd => or_else usd zero
        | None => zero
        end
    | None => zero
    end in
  let profit :=
    (buyPrice >? zero)%js = true /\
    (currentPrice >? (buyPrice * Fin (3 # 2))%double)%js = true in
  (forall now : number, heldOver16Hours hostParse now undatedHolding = false) /\
  (In undatedHolding (coinsToSell hostParse env table) <-> profit) /\
  (forall i : nat,
     nth_error table i = Some undatedHolding ->
     nth_error (fst (sellDue hostParse env table)) i <> Some undatedHolding ->
     exists x, In x (coinsToSell hostParse env table) /\
               mint_address x = mint_address undatedHolding) /\
  (forall i : nat,
     nth_error table i = Some undatedHolding ->
     (forall h', In h' table -> sell_price h' = None ->
                 mint_address h' = mint_address undatedHolding ->
                 h' = undatedHolding) ->
     nth_error (fst (sellDue hostParse env table)) i <> Some undatedHolding ->
     profit).
Proof.
  apply (unparseable_only_profit hostParse env table undatedHolding).
  - right. right. left. reflexivity.
  - reflexivity.
  - reflexivity.
Defined.

(** C10 as stated fails when another open holding has the same mint
    address: the holding without a date is not selected (bought at 2,
    the spot price is 2), the dated one is, by the time rule, and the
    update keyed by the mint address closes both rows. *)
Lemma unparseable_closed_by_shared_mint_counterexample :
  nth_error sharedTable 1 = Some undatedShared /\
  sell_price undatedShared = None /\
  isFinite (getTime (hostParse (bought_at undatedShared))) = false /\
  (ofZ 2 >? (or_else (buy_price undatedShared) zero * Fin (3 # 2))%double)%js
    = false /\
  coinsToSell hostParse sharedEnv sharedTable = [datedShared] /\
  nth_error (fst (sellDue hostParse sharedEnv sharedTable)) 1
    = Some (sold_at (ofZ 2) undatedShared).
Proof. vm_compute. repeat split. Qed.

(** The cap is reached: an upstream that answers every request with a
    full page of 1000 rows is asked exactly 100 times. *)
Example full_pages_stop_at_the_cap :
  let run := fetchAllMinuteCandles "pool" NaN
               (worldOf (fun _ => Response 200 (Some (JOhlcv fullPage)))) in
  fst run = Ok [candle 220 3] /\ served (snd run) = 100%nat.
Proof. vm_compute. split; reflexivity. Qed.

(** X1 on an upstream that is down. *)
Lemma fetchJsonWithRetry_exhausted_witness :
  let url := PoolsUrl "mint" in
  let run := fetchJsonWithRetry url 3 (worldOf alwaysDown) in
  fst run = Throw (UpstreamStatus 503 url) /\
  served (snd run) = 3%nat /\
  log (snd run) =
    [EvFetch url; EvSleep 500; EvFetch url; EvSleep 250; EvFetch url].
Proof.
  apply (fetchJsonWithRetry_exhausted (PoolsUrl "mint") (worldOf alwaysDown)
           (UpstreamStatus 503 (PoolsUrl "mint"))
           (UpstreamStatus 503 (PoolsUrl "mint"))
           (UpstreamStatus 503 (PoolsUrl "mint")));
    reflexivity.
Defined.

(** X2 on a 404 followed by a good answer: the second attempt is the
    one that returns. *)
Lemma fetchJsonWithRetry_returns_first_success_witness :
  let url := PoolsUrl "mint" in
  let w := worldOf notFoundThenOk in
  exists k : nat,
    (k < 3)%nat /\
    attempt_value (upstream w (served w + k)%nat)
      = Some (JPools (Some "pool"%string)) /\
    (forall i, (i < k)%nat ->
       attempt_error url (upstream w (served w + i)%nat) <> None) /\
    served (snd (fetchJsonWithRetry url 3 w)) = (served w + S k)%nat.
Proof.
  apply (fetchJsonWithRetry_returns_first_success (PoolsUrl "mint") 3
           (worldOf notFoundThenOk) (JPools (Some "pool"%string))).
  reflexivity.
Defined.

(** X4 on an upstream whose pages cannot be mapped. *)
Lemma fetchAllMinuteCandles_errors_witness :
  page_error "pool" TypeError /\
  (TypeError = TypeError -> unmappable_served (worldOf unmappable)).
Proof.
  apply (fetchAllMinuteCandles_errors "pool" NaN (worldOf unmappable)).
  reflexivity.
Defined.

(** X5 on the two overlapping pages. *)
Lemma fetchAllMinuteCandles_valid_witness :
  Forall (fun c => isFinite (timestamp c) = true /\
                   isFinite (high c) = true /\
                   (high c >? zero)%js = true)
    [candle 100 2; candle 160 7; candle 220 3].
Proof.
  apply (fetchAllMinuteCandles_valid "pool" NaN
           (worldOf (pageOutcome overlapping))).
  vm_compute. reflexivity.
Defined.

(** X6 on the two overlapping pages. *)
Lemma Plain_fetchAllMinuteCandles_ascending_unique_witness :
  let w := worldOf (pageOutcome overlapping) in
  let result := [candle 100 2; candle 160 7; candle 220 3] in
  exists candles : list Candle,
    fst (Plain.page_loop "pool" maxPages None [] w) = Ok candles /\
    ascending result /\
    distinct_timestamps result /\
    Forall (fun c => valid_candle c = true) result /\
    (forall c, In c result -> last_with_timestamp candles c) /\
    (forall c, In c candles ->
       exists c', In c' result /\
                  sameValueZero (timestamp c') (timestamp c) = true).
Proof.
  apply (Plain_fetchAllMinuteCandles_ascending_unique "pool"
           (worldOf (pageOutcome overlapping))).
  vm_compute. reflexivity.
Defined.

(** X8 on a candle past the last instant a [Date] can hold. *)
Lemma computeBestSell_throws_witness :
  RangeError = RangeError /\
  exists c, In c farFuture /\
            (timestamp c >=? unixSeconds hostParse (boughtAt boughtAt100))%js
              = true /\
            Date_of_number (timestamp c * Fin 1000)%js = None.
Proof.
  apply (computeBestSell_throws hostParse hostFormat boughtAt100 farFuture).
  reflexivity.
Defined.

(** X9 at the scenario of the specification. *)
Lemma computeBestSell_all_or_nothing_witness :
  (bestSellAt bestAt160 = None /\ bestSellPrice bestAt160 = None /\
   bestPlPercent bestAt160 = None) \/
  (exists iso price pl,
     bestSellAt bestAt160 = Some iso /\ bestSellPrice bestAt160 = Some price /\
     bestPlPercent bestAt160 = Some pl).
Proof.
  apply (computeBestSell_all_or_nothing hostParse hostFormat boughtAt100
           candles).
  reflexivity.
Defined.

(** X10 at the scenario of the specification: bought for 1, best price
    5, a return of 400 percent. *)
Lemma computeBestSell_return_sign_witness :
  bestPlPercent bestAt160 = Some (((Fin 5 - Fin 1) / Fin 1) * Fin 100)%double /\
  ((1 <= 5)%Q ->
   (zero <=? (((Fin 5 - Fin 1) / Fin 1) * Fin 100)%double)%js = true) /\
  ((5 <= 1)%Q ->
   ((((Fin 5 - Fin 1) / Fin 1) * Fin 100)%double <=? zero)%js = true) /\
  ((zero <? (((Fin 5 - Fin 1) / Fin 1) * Fin 100)%double)%js = true ->
   (1 < 5)%Q) /\
  (((((Fin 5 - Fin 1) / Fin 1) * Fin 100)%double <? zero)%js = true ->
   (5 < 1)%Q).
Proof.
  apply (computeBestSell_return_sign hostParse hostFormat boughtAt100 candles
           bestAt160 5 1); vm_compute; reflexivity.
Defined.

(** X12 on a [POST]. *)
Lemma handler_rejects_without_fetch_witness :
  snd (handler hostParse hostFormat hostNumber postRequest
         (worldOf poolThenPage))
  = worldOf poolThenPage.
Proof.
  apply (handler_rejects_without_fetch hostParse hostFormat hostNumber
           postRequest (worldOf poolThenPage)).
  vm_compute. discriminate.
Defined.

(** X15 on a healthy upstream whose first page reaches the purchase
    instant: the two handlers answer a valid request alike. *)
Lemma handlers_agree_witness :
  let req := getRequest "1" in
  let w := worldOf healthyUpstream in
  fst (tryBlock hostParse hostFormat (String_or_empty (query_mintAddress req))
         (String_or_empty (query_boughtAt req))
         (Number_of_query hostNumber (query_buyPrice req)) w)
  = fst (plainTryBlock hostParse hostFormat
           (String_or_empty (query_mintAddress req))
           (String_or_empty (query_boughtAt req))
           (Number_of_query hostNumber (query_buyPrice req)) w) /\
  (forall result,
     body (fst (handler hostParse hostFormat hostNumber req w))
       = ResultBody result None <->
     fst (plainHandler hostParse hostFormat hostNumber req w)
       = {| plain_status := 200; plain_body := PlainResult result |}) /\
  (forall error,
     body (fst (handler hostParse hostFormat hostNumber req w))
       = ResultBody nullBestSell (Some error) <->
     fst (plainHandler hostParse hostFormat hostNumber req w)
       = {| plain_status := 502; plain_body := PlainFailure error |}).
Proof.
  apply (handlers_agree hostParse hostFormat hostNumber (getRequest "1")
           (worldOf healthyUpstream) "pool" pastPurchase).
  - split; [reflexivity|]. split; [reflexivity|]. split; reflexivity.
  - split; [reflexivity|]. split; [reflexivity|]. intros k. reflexivity.
  - vm_compute. reflexivity.
Defined.


(** X18 at the sample pass: the token of the feed is known after the
    pass, and a second pass over the same feed buys nothing. *)
Lemma discovery_is_idempotent_witness :
  (forall token, In token [newToken] ->
     In (token_symbol token)
        (map meme_symbol (memeList (fst (lifecyclePass hostParse env db))))) /\
  (forall env2, feed env2 = Some [newToken] ->
     buyNew env2 [newToken] (fst (lifecyclePass hostParse env db))
       = (fst (lifecyclePass hostParse env db), O) /\
     List.length (holdings (fst (lifecyclePass hostParse env2
                                   (fst (lifecyclePass hostParse env db)))))
       = List.length (holdings (fst (lifecyclePass hostParse env db))) /\
     memeList (fst (lifecyclePass hostParse env2
                      (fst (lifecyclePass hostParse env db))))
       = memeList (fst (lifecyclePass hostParse env db))).
Proof.
  apply (discovery_is_idempotent hostParse env db [newToken]); reflexivity.
Defined.

(** X19 at a pass without prices at buy time: the new holding has a buy
    price of zero and can only leave by the time limit. *)
Lemma unpriced_buys_only_time_out_witness :
  In unpricedHolding (holdings db) \/
  (buy_price unpricedHolding = zero /\ sell_price unpricedHolding = None /\
   forall env' t', In unpricedHolding (coinsToSell hostParse env' t') ->
                   heldOver16Hours hostParse (now env') unpricedHolding = true).
Proof.
  apply (unpriced_buys_only_time_out hostParse unpricedEnv [newToken] db
           unpricedHolding).
  - intros ids. reflexivity.
  - vm_compute. right. right. right. left. reflexivity.
Defined.

(** X20 on one short page. *)
Lemma Client_fetchAllMinuteCandles_agrees_witness :
  Client.fetchAllMinuteCandles "pool" (worldOf (pageOutcome shortPages))
  = Plain.fetchAllMinuteCandles "pool" (worldOf (pageOutcome shortPages)).
Proof.
  apply (Client_fetchAllMinuteCandles_agrees "pool"
           (worldOf (pageOutcome shortPages))).
  intros n status. split; [intros _; discriminate|].
  intros rows H. injection H as _ <-.
  destruct n as [|[|n]]; split; try (repeat constructor); try discriminate;
    intros N; exfalso; apply N; reflexivity.
Defined.

(** X21 at the scenario of the specification, held as a row of the
    table. *)
Lemma computeBestSellInfo_agrees_witness :
  bestSellPrice (computeBestSellInfo hostParse hostLocale scenarioHolding candles)
    = bestSellPrice bestAt160 /\
  bestPlPercent (computeBestSellInfo hostParse hostLocale scenarioHolding candles)
    = bestPlPercent bestAt160.
Proof.
  apply (computeBestSellInfo_agrees hostParse hostFormat hostLocale boughtAt100
           scenarioHolding candles bestAt160).
  - reflexivity.
  - reflexivity.
  - reflexivity.
  - discriminate.
Defined.

(** X24 at a table of two open holdings. *)
Lemma open_portfolio_breaks_even_witness :
  JS.eqb (Portfolio.endingCapital openTable) Portfolio.startingCapital = true /\
  JS.eqb (Portfolio.totalGainLossAbsolute openTable) zero = true /\
  JS.eqb (Portfolio.totalGainLossPercent openTable) zero = true /\
  Portfolio.winRatePercent openTable = None.
Proof.
  apply (open_portfolio_breaks_even openTable).
  repeat constructor.
Defined.

(** X25 at the sample table: one closed holding, a win. *)
Lemma winRatePercent_is_a_percentage_witness :
  (zero <=? Fin (1 / 1 * 100))%js = true /\
  (Fin (1 / 1 * 100) <=? Fin 100)%js = true.
Proof.
  apply (winRatePercent_is_a_percentage table (Fin (1 / 1 * 100))).
  reflexivity.
Defined.

(** X26 at the closed holding of the sample table, bought at 2 and sold
    at 3. *)
Lemma winning_iff_positive_percent_witness :
  Portfolio.winning closedHolding
  = match Portfolio.getProfitLossPercent (buy_price closedHolding)
            (sell_price closedHolding) with
    | Some pl => (pl >? zero)%js
    | None => false
    end.
Proof.
  apply (winning_iff_positive_percent closedHolding (ofZ 3)); reflexivity.
Defined.

(** X27 at the sample table: one holding sold above its buy price, two
    still open. *)
Lemma no_losing_position_no_loss_witness :
  (Portfolio.endingCapital table >=? Portfolio.startingCapital)%js = true /\
  (Portfolio.totalGainLossAbsolute table >=? zero)%js = true.
Proof.
  apply (no_losing_position_no_loss table).
  repeat (constructor; [vm_compute; auto|]). constructor.
Defined.

(** [loadBestSellTimes] at the samples: the entry of a holding whose pool
    and candles load is its best exit; on an upstream that is down, on a
    page that cannot be mapped and on the document [null] it is the
    all-absent entry. *)
Example loadBestSellTimes_at_the_samples :
  fst (loadBestSellTimes hostParse hostLocale [scenarioHolding]
         (worldOf poolThenPage))
    = Ok [("AAA-1970-01-01T00:01:40.000Z"%string,
           {| bestSellAt := Some "1/1/1970, 12:02:40 AM"%string;
              bestSellPrice := Some (ofZ 5);
              bestPlPercent := Some (ofZ 400) |})] /\
  fst (loadBestSellTimes hostParse hostLocale [scenarioHolding]
         (worldOf alwaysDown))
    = Ok [("AAA-1970-01-01T00:01:40.000Z"%string, nullBestSell)] /\
  fst (loadBestSellTimes hostParse hostLocale [scenarioHolding]
         (worldOf (fun n => match n with
                            | O => Response 200 (Some (JPools (Some "pool"%string)))
                            | _ => Response 200 (Some JOhlcvUnmappable)
                            end)))
    = Ok [("AAA-1970-01-01T00:01:40.000Z"%string, nullBestSell)] /\
  fst (loadBestSellTimes hostParse hostLocale [scenarioHolding]
         (worldOf (fun _ => Response 200 (Some JNull))))
    = Ok [("AAA-1970-01-01T00:01:40.000Z"%string, nullBestSell)].
Proof. vm_compute. repeat split. Qed.

(** The document [null] divides the client from the plain variant: the
    client reads [ohlcvJson.data] and throws, the plain variant reads
    [ohlcvJson?.data] and returns no candle. *)
Example null_document_divides_client_and_plain :
  fst (Client.fetchAllMinuteCandles "pool"
         (worldOf (fun _ => Response 200 (Some JNull)))) = Throw TypeError /\
  fst (Plain.fetchAllMinuteCandles "pool"
         (worldOf (fun _ => Response 200 (Some JNull)))) = Ok [].
Proof. vm_compute. split; reflexivity. Qed.

(** A page that cannot be mapped ends the serverless request with the
    all-absent result and the [TypeError] as warning. *)
Example handler_warns_of_an_unmappable_page :
  fst (handler hostParse hostFormat hostNumber (getRequest "1")
         (worldOf (fun n => match n with
                            | O => Response 200 (Some (JPools (Some "pool"%string)))
                            | _ => Response 200 (Some JOhlcvUnmappable)
                            end)))
    = {| status := 200; body := ResultBody nullBestSell (Some TypeError) |}.
Proof. vm_compute. reflexivity. Qed.
